(** * Contract review pipeline: text extraction, normalisation and
      recovery of typed records from model responses.

    A shallow embedding of [parsers_llm.py], [llm_analyzer.py], [chain.py]
    and the control flow of [Home.py], followed by the properties of the
    pipeline.  Python [str] values are sequences of code points; the
    operations of the Python runtime that the code calls ([str.strip],
    [str.find], [str.split], [str.replace], [re.sub], [sorted], [dict]) are
    written out, libraries outside the repository (the JSON decoder, the
    record validator, the language model, the document readers) are the
    fields of one interface, [Runtime]. *)

From Stdlib Require Import String Ascii.
From Stdlib Require Import List NArith ZArith Bool Lia Arith Sorted Permutation.
Import ListNotations.

(* ================================================================== *)
(** * Python strings *)
(* ================================================================== *)

(** A character is a Unicode code point, a string a sequence of them. *)
Definition char := N.
Definition pystr := list char.

(** Literals of the source are ASCII; [py "abc"] is their code points. *)
Definition py (s : string) : pystr :=
  map N_of_ascii (list_ascii_of_string s).

Fixpoint str_eqb (a b : pystr) : bool :=
  match a, b with
  | [], [] => true
  | x :: a', y :: b' => N.eqb x y && str_eqb a' b'
  | _, _ => false
  end.

(** [x in l] for a list of strings. *)
Definition str_in (x : pystr) (l : list pystr) : bool :=
  existsb (str_eqb x) l.

(** [str.isspace] on one character, also the class [\s] of [re] on [str]
    patterns: the ASCII whitespace 0x09-0x0D, 0x1C-0x20 and the Unicode
    white-space code points. *)
Definition isspace (c : char) : bool :=
  ((9 <=? c) && (c <=? 13) || (28 <=? c) && (c <=? 32)
   || (c =? 133) || (c =? 160) || (c =? 5760)
   || (8192 <=? c) && (c <=? 8202)
   || (c =? 8232) || (c =? 8233) || (c =? 8239) || (c =? 8287)
   || (c =? 12288))%N.

Definition is_nil {A} (l : list A) : bool :=
  match l with [] => true | _ => false end.

Fixpoint lstrip (s : pystr) : pystr :=
  match s with
  | c :: t => if isspace c then lstrip t else s
  | [] => []
  end.

Fixpoint rstrip (s : pystr) : pystr :=
  match s with
  | c :: t => let r := rstrip t in
              if isspace c && is_nil r then [] else c :: r
  | [] => []
  end.

(** [s.strip()] *)
Definition strip (s : pystr) : pystr := rstrip (lstrip s).

Fixpoint startswith (p s : pystr) : bool :=
  match p, s with
  | [], _ => true
  | x :: p', y :: s' => N.eqb x y && startswith p' s'
  | _ :: _, [] => false
  end.

(** [sub in s] *)
Fixpoint contains (sub s : pystr) : bool :=
  startswith sub s || match s with [] => false | _ :: t => contains sub t end.

(** [s.find(sub)]: the lowest index where [sub] starts, [-1] when absent. *)
Fixpoint find (sub s : pystr) : Z :=
  if startswith sub s then 0%Z
  else match s with
       | [] => (-1)%Z
       | _ :: t => let i := find sub t in
                   if (i <? 0)%Z then (-1)%Z else (i + 1)%Z
       end.

(** [s.rfind(sub)]: the highest index where [sub] starts, [-1] when absent. *)
Fixpoint rfind (sub s : pystr) : Z :=
  match s with
  | [] => if startswith sub s then 0%Z else (-1)%Z
  | _ :: t => let i := rfind sub t in
              if (0 <=? i)%Z then (i + 1)%Z
              else if startswith sub s then 0%Z else (-1)%Z
  end.

(** [s[a:b]] with the clipping of Python's slices. *)
Definition slice (a b : Z) (s : pystr) : pystr :=
  let n := Z.of_nat (length s) in
  let clip i := if (i <? 0)%Z then Z.max 0 (i + n) else Z.min i n in
  let a' := clip a in
  let b' := clip b in
  firstn (Z.to_nat (b' - a')) (skipn (Z.to_nat a') s).

(** [s[:n] if len(s) > n else s] *)
Definition truncate (n : N) (s : pystr) : pystr :=
  if (n <? N.of_nat (length s))%N then firstn (N.to_nat n) s else s.

(** [s.split(sep)] for a non-empty separator, read left to right; [skip]
    counts the characters of a separator just recognised that are still
    to be passed over, [cur] is the field being read (reversed). *)
Fixpoint split_scan (sep : pystr) (skip : nat) (cur : pystr) (s : pystr)
  : list pystr :=
  match s with
  | [] => [rev cur]
  | c :: t =>
      match skip with
      | S k => split_scan sep k cur t
      | O => if startswith sep s
             then rev cur :: split_scan sep (length sep - 1) [] t
             else split_scan sep 0 (c :: cur) t
      end
  end.

Definition split (sep s : pystr) : list pystr := split_scan sep 0 [] s.

(** [s.split(sep, 1)]: at most one cut, at the first occurrence. *)
Definition split1 (sep s : pystr) : list pystr :=
  let i := find sep s in
  if (i <? 0)%Z then [s]
  else [firstn (Z.to_nat i) s; skipn (Z.to_nat i + length sep) s].

(** [s.replace(old, new)]: every non-overlapping occurrence, left to right.
    With an empty [old] Python puts [new] before every character and at
    the end. *)
Fixpoint replace_scan (old new : pystr) (skip : nat) (s : pystr) : pystr :=
  match s with
  | [] => []
  | c :: t =>
      match skip with
      | S k => replace_scan old new k t
      | O => if startswith old s
             then new ++ replace_scan old new (length old - 1) t
             else c :: replace_scan old new 0 t
      end
  end.

Definition replace (old new s : pystr) : pystr :=
  match old with
  | [] => flat_map (fun c => new ++ [c]) s ++ new
  | _ => replace_scan old new 0 s
  end.

(** [sep.join(l)] *)
Fixpoint join (sep : pystr) (l : list pystr) : pystr :=
  match l with
  | [] => []
  | [x] => x
  | x :: rest => x ++ sep ++ join sep rest
  end.

(** [l[-1]] of a non-empty list, as [str.split] always returns one. *)
Definition last_field (l : list pystr) : pystr := last l [].

(** ASCII letters under [str.lower]. *)
Definition ascii_lower (c : char) : char :=
  if ((65 <=? c) && (c <=? 90))%N then (c + 32)%N else c.

Definition is_ascii (c : char) : bool := (c <? 128)%N.

(* ================================================================== *)
(** * Regular expressions of [re.sub] *)
(* ================================================================== *)

(** The five patterns of [clean_text] are sequences of character classes,
    each taken once, or under a greedy [*] or [+]. *)
Inductive quant := One | Star | Plus.

Definition regex := list ((char -> bool) * quant).

(** The backtracking matcher of [re]: the length of the match of [re] at the
    start of [s], the greedy alternative tried first. *)
Fixpoint match_here (re : regex) (s : pystr) {struct re} : option nat :=
  match re with
  | [] => Some 0
  | (p, q) :: re' =>
      let fix many (s : pystr) : option nat :=
        match s with
        | c :: t =>
            if p c
            then match many t with
                 | Some n => Some (S n)
                 | None => match_here re' s
                 end
            else match_here re' s
        | [] => match_here re' []
        end in
      match q with
      | One => match s with
               | c :: t => if p c then option_map S (match_here re' t) else None
               | [] => None
               end
      | Star => many s
      | Plus => match s with
                | c :: t => if p c then option_map S (many t) else None
                | [] => None
                end
      end
  end.

(** [re.sub(re, repl, s)]: the string is read left to right, every match is
    replaced by [repl] of the matched text and the scan resumes behind it;
    [skip] counts the characters of the current match still to pass over.
    An empty match puts [repl] in front of the character it stands at. *)
Fixpoint sub_scan (re : regex) (repl : pystr -> pystr) (skip : nat) (s : pystr)
  : pystr :=
  match s with
  | [] => match skip, match_here re [] with
          | O, Some _ => repl []
          | _, _ => []
          end
  | c :: t =>
      match skip with
      | S k => sub_scan re repl k t
      | O => match match_here re s with
             | Some (S n) => repl (firstn (S n) s) ++ sub_scan re repl n t
             | Some O => repl [] ++ c :: sub_scan re repl 0 t
             | None => c :: sub_scan re repl 0 t
             end
      end
  end.

Definition re_sub (re : regex) (repl : pystr -> pystr) (s : pystr) : pystr :=
  sub_scan re repl 0 s.

Definition is_lower_az (c : char) : bool := ((97 <=? c) && (c <=? 122))%N.
Definition is_upper_AZ (c : char) : bool := ((65 <=? c) && (c <=? 90))%N.
Definition is_dot (c : char) : bool := (c =? 46)%N.
Definition is_newline (c : char) : bool := (c =? 10)%N.
Definition is_ff_cr (c : char) : bool := ((c =? 12) || (c =? 13))%N.

(** [r'\s+'] *)
Definition re_whitespace : regex := [(isspace, Plus)].
(** [r'[\f\r]+'] *)
Definition re_page_breaks : regex := [(is_ff_cr, Plus)].
(** [r'([a-z])([A-Z])'] *)
Definition re_lower_upper : regex := [(is_lower_az, One); (is_upper_AZ, One)].
(** [r'(\.)([A-Z])'] *)
Definition re_dot_upper : regex := [(is_dot, One); (is_upper_AZ, One)].
(** [r'\n\s*\n\s*\n+'] *)
Definition re_newlines : regex :=
  [(is_newline, One); (isspace, Star); (is_newline, One); (isspace, Star);
   (is_newline, Plus)].

(** The template [r'\1 \2'] for two groups of one character each. *)
Definition repl_groups_spaced (m : pystr) : pystr :=
  match m with
  | [a; b] => [a; 32%N; b]
  | _ => m
  end.

(* ================================================================== *)
(** * parsers_llm.py: the text normaliser *)
(* ================================================================== *)

Definition clean_text (text : pystr) : pystr :=
  if is_nil text then []
  else
    (* Remove excessive whitespace *)
    let text := re_sub re_whitespace (fun _ => py " ") text in
    (* Remove page breaks and form feeds *)
    let text := re_sub re_page_breaks (fun _ => [10%N]) text in
    (* Fix common OCR issues *)
    let text := re_sub re_lower_upper repl_groups_spaced text in
    let text := re_sub re_dot_upper repl_groups_spaced text in
    (* Remove extra newlines but preserve paragraph breaks *)
    let text := re_sub re_newlines (fun _ => [10%N; 10%N]) text in
    strip text.

(** The text that reaches each step of [clean_text]. *)
Definition after_whitespace (text : pystr) : pystr :=
  re_sub re_whitespace (fun _ => py " ") text.
Definition before_newline_collapse (text : pystr) : pystr :=
  re_sub re_dot_upper repl_groups_spaced
    (re_sub re_lower_upper repl_groups_spaced
       (re_sub re_page_breaks (fun _ => [10%N]) (after_whitespace text))).

(** ** Direct forms of the substitutions, and the shape of cleaned text *)

(** The length of the longest prefix of [s] in the class [p]. *)
Fixpoint run (p : char -> bool) (s : pystr) : nat :=
  match s with
  | c :: t => if p c then S (run p t) else 0
  | [] => 0
  end.

(** Every run of white space becomes one space; [in_run] says that the
    character before was white space. *)
Fixpoint squeeze (in_run : bool) (s : pystr) : pystr :=
  match s with
  | [] => []
  | c :: t =>
      if isspace c
      then if in_run then squeeze true t else 32%N :: squeeze true t
      else c :: squeeze false t
  end.

(** A space goes between a character of [P] and a character of [Q] that
    follows it. *)
Fixpoint spaced (P Q : char -> bool) (s : pystr) : pystr :=
  match s with
  | [] => []
  | a :: t =>
      match t with
      | b :: _ => if P a && Q b then a :: 32%N :: spaced P Q t else a :: spaced P Q t
      | [] => [a]
      end
  end.

(** All white space is the space character and no two stand together;
    with [after_space], the text does not start with one either. *)
Fixpoint single_spaced (after_space : bool) (s : pystr) : bool :=
  match s with
  | [] => true
  | c :: t =>
      if isspace c
      then negb after_space && (c =? 32)%N && single_spaced true t
      else single_spaced false t
  end.

(** No character of [P] is directly followed by one of [Q]. *)
Fixpoint adjfree (P Q : char -> bool) (s : pystr) : bool :=
  match s with
  | [] => true
  | a :: t =>
      match t with
      | b :: _ => negb (P a && Q b) && adjfree P Q t
      | [] => true
      end
  end.

(* ================================================================== *)
(** * Python dictionaries and decoded JSON *)
(* ================================================================== *)

(** A [dict] with string keys: the entries in insertion order, every key
    once.  Assigning to a key that is present keeps its place. *)
Definition dict (V : Type) := list (pystr * V).

Fixpoint dict_get {V} (k : pystr) (d : dict V) : option V :=
  match d with
  | [] => None
  | (k', v) :: d' => if str_eqb k k' then Some v else dict_get k d'
  end.

Fixpoint dict_set {V} (k : pystr) (v : V) (d : dict V) : dict V :=
  match d with
  | [] => [(k, v)]
  | (k', v') :: d' =>
      if str_eqb k k' then (k', v) :: d' else (k', v') :: dict_set k v d'
  end.

(** [k in d] *)
Definition dict_has {V} (k : pystr) (d : dict V) : bool :=
  match dict_get k d with Some _ => true | None => false end.

(** [d.get(k, default)] *)
Definition dict_get_default {V} (k : pystr) (default : V) (d : dict V) : V :=
  match dict_get k d with Some v => v | None => default end.

Definition dict_keys {V} (d : dict V) : list pystr := map fst d.

(** What [json.loads] returns.  A number keeps the text it was read from. *)
#[warnings="-register-all"]
Inductive json :=
| JNull
| JBool (b : bool)
| JNumber (lexeme : pystr)
| JStr (s : pystr)
| JArr (items : list json)
| JObj (members : dict json).

(** [isinstance(v, dict)] *)
Definition is_dict (v : json) : bool :=
  match v with JObj _ => true | _ => false end.

(* ================================================================== *)
(** * The libraries and services outside the repository *)
(* ================================================================== *)

(** A formatted prompt: the template of [prompts/contract_analysis.py] or of
    [chain.py] and the values put into it. *)
Inductive prompt :=
| CONTRACT_TYPE_DETECTION_PROMPT (text : pystr)
| GOVERNING_LAW_DETECTION_PROMPT (text : pystr)
| KEY_CLAUSES_EXTRACTION_PROMPT (text : pystr)
| CLAUSE_RISK_ASSESSMENT_PROMPT (clause_text contract_type governing_law : pystr)
| RISK_ANALYSIS_PROMPT (text contract_type country regulatory_hints : pystr).

Class Runtime := {
  (** [json.loads]; [None] when it raises [JSONDecodeError]. *)
  json_loads : pystr -> option json;
  (** pydantic, a number or a boolean given to a [str] field: version 1
      takes its text, version 2 raises [ValidationError] ([None]). *)
  scalar_as_str : json -> option pystr;
  (** [str.lower]; on ASCII text it maps [A-Z] to [a-z]. *)
  str_lower : pystr -> pystr;
  str_lower_ascii :
    forall s, forallb is_ascii s = true -> str_lower s = map ascii_lower s;
  (** The chat model: [model.invoke(prompt)] answers with [response.content]
      or raises ([None]); [World] is whatever the service depends on. *)
  World : Type;
  model_invoke : prompt -> World -> option pystr * World;
  (** The document readers, from the bytes of the file to the texts of its
      pages or paragraphs; [None] when the reader raises. *)
  fitz_page_texts : list Byte.byte -> option (list pystr);
  pdfplumber_page_texts : list Byte.byte -> option (list (option pystr));
  pypdf2_page_texts : list Byte.byte -> option (list pystr);
  docx_paragraph_texts : list Byte.byte -> option (list pystr);
  docx2txt_process : list Byte.byte -> option (option pystr)
}.

(** Sequential code that calls the model: state passing over [World]. *)
Definition M {RT : Runtime} (A : Type) : Type := World -> A * World.

Definition ret {RT : Runtime} {A} (a : A) : M A := fun w => (a, w).

Definition bind {RT : Runtime} {A B} (m : M A) (k : A -> M B) : M B :=
  fun w => let (a, w') := m w in k a w'.

Notation "x <- m ;; k" := (bind m (fun x => k))
  (at level 61, m at next level, right associativity).

(* ================================================================== *)
(** * pydantic models *)
(* ================================================================== *)

Record ClauseInfo := {
  ci_text : pystr;
  ci_summary : pystr
}.

Record ClauseRiskAssessment := {
  cra_risk_level : pystr;
  cra_issues : list pystr;
  cra_recommendations : list pystr;
  cra_explanation : pystr
}.

Record RiskItem := {
  ri_text : pystr;
  ri_issue : pystr;
  ri_suggestion : pystr;
  ri_risk_level : pystr
}.

Fixpoint all_some {A} (l : list (option A)) : option (list A) :=
  match l with
  | [] => Some []
  | Some a :: l' => option_map (cons a) (all_some l')
  | None :: _ => None
  end.

Section Validation.
Context {RT : Runtime}.

(** Validation of a field declared [str]; [None] is [ValidationError]. *)
Definition str_field (v : json) : option pystr :=
  match v with
  | JStr s => Some s
  | JNumber _ | JBool _ => scalar_as_str v
  | JNull | JArr _ | JObj _ => None
  end.

(** Validation of a field declared [List[str]]. *)
Definition list_str_field (v : json) : option (list pystr) :=
  match v with
  | JArr items => all_some (map str_field items)
  | _ => None
  end.

(** [ClauseInfo(text=..., summary=...)] *)
Definition make_ClauseInfo (text summary : json) : option ClauseInfo :=
  match str_field text, str_field summary with
  | Some t, Some s => Some {| ci_text := t; ci_summary := s |}
  | _, _ => None
  end.

(** [ClauseRiskAssessment(risk_level=..., issues=..., ...)] *)
Definition make_ClauseRiskAssessment (risk_level issues recommendations explanation : json)
  : option ClauseRiskAssessment :=
  match str_field risk_level, list_str_field issues,
        list_str_field recommendations, str_field explanation with
  | Some r, Some i, Some c, Some e =>
      Some {| cra_risk_level := r; cra_issues := i;
              cra_recommendations := c; cra_explanation := e |}
  | _, _, _, _ => None
  end.

End Validation.

(* ================================================================== *)
(** * llm_analyzer.py *)
(* ================================================================== *)

Section LlmAnalyzer.
Context {RT : Runtime}.

Definition valid_types : list pystr :=
  [py "NDA"; py "DPA"; py "Employment"; py "MSA"; py "SLA"; py "License";
   py "Purchase"; py "Lease"; py "Commercial"].

Definition detect_contract_type_llm (text : pystr) : M pystr :=
  (* Limit text length to avoid token limits *)
  let text_sample := truncate 4000%N text in
  response <- model_invoke (CONTRACT_TYPE_DETECTION_PROMPT text_sample) ;;
  match response with
  | Some content =>
      let contract_type := strip content in
      (* Validate response *)
      if str_in contract_type valid_types
      then ret contract_type
      else ret (py "Commercial")
  | None => ret (py "Commercial")
  end.

Definition detect_governing_law_llm (text : pystr) : M pystr :=
  let text_sample := truncate 4000%N text in
  response <- model_invoke (GOVERNING_LAW_DETECTION_PROMPT text_sample) ;;
  match response with
  | Some content =>
      let governing_law := strip content in
      (* Clean up common variations *)
      if str_in (str_lower governing_law)
           [py "unknown"; py "not specified"; py "not mentioned"; py "none"]
      then ret (py "Unknown")
      else ret governing_law
  | None => ret (py "Unknown")
  end.

(** The loop of [extract_key_clauses_llm] over [clauses_data.items()];
    [None] when a [ClauseInfo] is refused by its validation. *)
Fixpoint collect_clauses (items : dict json) (clauses : dict ClauseInfo)
  : option (dict ClauseInfo) :=
  match items with
  | [] => Some clauses
  | (clause_type, clause_info) :: rest =>
      match clause_info with
      | JObj fields =>
          if dict_has (py "text") fields
          then match make_ClauseInfo
                       (dict_get_default (py "text") (JStr []) fields)
                       (dict_get_default (py "summary") (JStr []) fields) with
               | Some info => collect_clauses rest (dict_set clause_type info clauses)
               | None => None
               end
          else collect_clauses rest clauses
      | _ => collect_clauses rest clauses
      end
  end.

(** Lines 125-144 of [extract_key_clauses_llm], behind [json.loads].
    [JSONDecodeError] ([None]) is handled by the inner [except], calling
    [.items()] on a value that is no [dict] and a refused [ClauseInfo] by
    the outer one; all three return the empty [dict]. *)
Definition clauses_of_decoded (decoded : option json) : dict ClauseInfo :=
  match decoded with
  | Some (JObj clauses_data) =>
      match collect_clauses clauses_data [] with
      | Some clauses => clauses
      | None => []
      end
  | Some _ => []
  | None => []
  end.

(** What [extract_key_clauses_llm] returns for the content of a response:
    the content goes to [json.loads] as it is. *)
Definition clauses_of_response (content : pystr) : dict ClauseInfo :=
  clauses_of_decoded (json_loads content).

Definition extract_key_clauses_llm (text : pystr) : M (dict ClauseInfo) :=
  (* For now, limit to first 6000 characters *)
  let text_sample := truncate 6000%N text in
  response <- model_invoke (KEY_CLAUSES_EXTRACTION_PROMPT text_sample) ;;
  match response with
  | Some content => ret (clauses_of_response content)
  | None => ret []
  end.

(** The assessment returned "instead of None" when the JSON cannot be used. *)
Definition default_assessment : ClauseRiskAssessment :=
  {| cra_risk_level := py "medium";
     cra_issues := [py "Unable to parse detailed risk assessment"];
     cra_recommendations := [py "Review this clause manually"];
     cra_explanation := py "Automated risk assessment failed" |}.

(** [s[s.find("{") : s.rfind("}") + 1]] *)
Definition brace_span (s : pystr) : pystr :=
  let start := find (py "{") s in
  let end_ := (rfind (py "}") s + 1)%Z in
  slice start end_ s.

(** Lines 169-178: the text handed to [json.loads]. *)
Definition assessment_json_str (content : pystr) : pystr :=
  let response_content := strip content in
  (* Try to extract JSON if it's embedded in other text *)
  if contains (py "{") response_content && contains (py "}") response_content
  then brace_span response_content
  else response_content.

(** Lines 180-196, behind [json.loads].  [JSONDecodeError] ([None]) and the
    validation error of the model (a [ValueError]) give the default
    assessment; [.get] on a decoded value that is no [dict] raises
    [AttributeError], which only the outer [except] handles: [None]. *)
Definition assessment_of_decoded (decoded : option json) : option ClauseRiskAssessment :=
  match decoded with
  | Some (JObj assessment_data) =>
      match make_ClauseRiskAssessment
              (dict_get_default (py "risk_level") (JStr (py "medium")) assessment_data)
              (dict_get_default (py "issues") (JArr []) assessment_data)
              (dict_get_default (py "recommendations") (JArr []) assessment_data)
              (dict_get_default (py "explanation") (JStr []) assessment_data) with
      | Some assessment => Some assessment
      | None => Some default_assessment
      end
  | Some _ => None
  | None => Some default_assessment
  end.

(** What [assess_clause_risk_llm] returns for the content of a response. *)
Definition assessment_of_response (content : pystr) : option ClauseRiskAssessment :=
  assessment_of_decoded (json_loads (assessment_json_str content)).

Definition assess_clause_risk_llm (clause_text contract_type governing_law : pystr)
  : M (option ClauseRiskAssessment) :=
  response <- model_invoke
                (CLAUSE_RISK_ASSESSMENT_PROMPT clause_text contract_type governing_law) ;;
  match response with
  | Some content => ret (assessment_of_response content)
  | None => ret None
  end.

Record Analysis := {
  contract_type : pystr;
  governing_law : pystr;
  key_clauses : dict ClauseInfo;
  clause_risks : dict ClauseRiskAssessment
}.

(** Step 4 of [analyze_contract_comprehensive]: the loop over
    [key_clauses.items()]. *)
Fixpoint assess_clauses (contract_type governing_law : pystr)
    (items : dict ClauseInfo) (clause_risks : dict ClauseRiskAssessment)
  : M (dict ClauseRiskAssessment) :=
  match items with
  | [] => ret clause_risks
  | (clause_type, clause_info) :: rest =>
      if 100 <? length (ci_text clause_info)  (* Only assess substantial clauses *)
      then
        risk_assessment <- assess_clause_risk_llm (ci_text clause_info)
                             contract_type governing_law ;;
        match risk_assessment with
        | Some assessment =>
            assess_clauses contract_type governing_law rest
              (dict_set clause_type assessment clause_risks)
        | None => assess_clauses contract_type governing_law rest clause_risks
        end
      else assess_clauses contract_type governing_law rest clause_risks
  end.

Definition analyze_contract_comprehensive (text : pystr) : M Analysis :=
  (* Step 1: Detect contract type *)
  contract_type <- detect_contract_type_llm text ;;
  (* Step 2: Detect governing law *)
  governing_law <- detect_governing_law_llm text ;;
  (* Step 3: Extract key clauses *)
  key_clauses <- extract_key_clauses_llm text ;;
  (* Step 4: Assess risks for each clause *)
  clause_risks <- assess_clauses contract_type governing_law key_clauses [] ;;
  ret {| contract_type := contract_type; governing_law := governing_law;
         key_clauses := key_clauses; clause_risks := clause_risks |}.

End LlmAnalyzer.

(* ================================================================== *)
(** * chain.py *)
(* ================================================================== *)

Section Chain.
Context {RT : Runtime}.

(** [RiskItem(...)] on four strings: the validation has nothing to refuse. *)
Definition create_risk_item (risk_data : dict pystr) : RiskItem :=
  {| ri_text := dict_get_default (py "text") (py "Unknown text") risk_data;
     ri_issue := dict_get_default (py "issue") (py "Issue identified") risk_data;
     ri_suggestion :=
       dict_get_default (py "suggestion") (py "Review with legal counsel") risk_data;
     ri_risk_level := dict_get_default (py "risk_level") (py "medium") risk_data |}.

(** [part.replace(label, '') if part.startswith(label) else part] *)
Definition drop_label (label part : pystr) : pystr :=
  if startswith label part then replace label [] part else part.

(** The body of the loop over the lines of the response, on the pair of
    [risks] and [current_risk]. *)
Definition review_line (state : list RiskItem * dict pystr) (line : pystr)
  : list RiskItem * dict pystr :=
  let (risks, current_risk) := state in
  let line := strip line in
  if is_nil line then state
  else if startswith (py "Risk") line && contains (py ":") line then
    (* New risk found, save previous if exists *)
    let (risks, current_risk) :=
      if negb (is_nil current_risk)
      then (risks ++ [create_risk_item current_risk], [])
      else (risks, current_risk) in
    (* Parse the risk line *)
    let parts := split (py " - ") line in
    if 4 <=? length parts then
      let part0 := nth 0 parts [] in
      let text_part :=
        if contains (py ": ") part0 then nth 1 (split1 (py ": ") part0) [] else [] in
      let issue_part := drop_label (py "Issue: ") (nth 1 parts []) in
      let suggestion_part := drop_label (py "Suggestion: ") (nth 2 parts []) in
      let level_part := drop_label (py "Level: ") (nth 3 parts []) in
      (risks,
       [(py "text", strip text_part);
        (py "issue", strip issue_part);
        (py "suggestion", strip suggestion_part);
        (py "risk_level", str_lower (strip level_part))])
    else (risks, current_risk)
  else state.

Definition general_risk : RiskItem :=
  {| ri_text := py "General contract review";
     ri_issue := py "Contract requires detailed legal review";
     ri_suggestion := py "Have this contract reviewed by qualified legal counsel";
     ri_risk_level := py "medium" |}.

Definition error_risk : RiskItem :=
  {| ri_text := py "Contract analysis error";
     ri_issue := py "Unable to complete automated analysis";
     ri_suggestion := py "Please review this contract manually with legal counsel";
     ri_risk_level := py "medium" |}.

(** The records read from the lines of a response: the loop and the flush
    of the last record. *)
Definition parsed_risks (response_text : pystr) : list RiskItem :=
  let lines := split [10%N] response_text in
  let (risks, current_risk) := fold_left review_line lines ([], []) in
  (* Add the last risk if exists *)
  if negb (is_nil current_risk)
  then risks ++ [create_risk_item current_risk]
  else risks.

(** Lines 85-135 of [llm_review]: the risks for the content of a response. *)
Definition risks_of_response (content : pystr) : list RiskItem :=
  let response_text := strip content in
  if is_nil response_text
     || contains (py "no significant risks") (str_lower response_text)
  then []
  else
    let risks := parsed_risks response_text in
    (* If parsing failed, create a general risk *)
    if is_nil risks && negb (is_nil response_text)
    then risks ++ [general_risk]
    else risks.

Definition llm_review (text contract_type country : pystr)
    (regulatory_hints : list pystr) : M (list RiskItem) :=
  (* Limit text length to avoid token limits *)
  let text_sample := truncate 8000%N text in
  (* Format regulatory hints *)
  let hints_text := join [10%N] (map (fun hint => py "- " ++ hint) regulatory_hints) in
  response <- model_invoke
                (RISK_ANALYSIS_PROMPT text_sample contract_type country hints_text) ;;
  match response with
  | Some content => ret (risks_of_response content)
  | None => ret [error_risk]
  end.

End Chain.

(* ================================================================== *)
(** * exa_search.py *)
(* ================================================================== *)

Definition search_regulatory_hints (contract_type country : pystr) : list pystr :=
  let hints := [] in
  (* Contract type specific hints *)
  let hints :=
    if str_eqb contract_type (py "NDA") then
      hints ++ [py "Ensure confidentiality period is reasonable and enforceable";
                py "Consider mutual vs unilateral disclosure obligations";
                py "Include proper exceptions for publicly available information"]
    else if str_eqb contract_type (py "Employment") then
      hints ++ [py "Verify compliance with local employment laws";
                py "Check non-compete clause enforceability";
                py "Ensure proper termination procedures"]
    else if str_eqb contract_type (py "MSA") then
      hints ++ [py "Include clear scope of work definitions";
                py "Specify payment terms and dispute resolution";
                py "Address intellectual property ownership"]
    else hints in
  (* Country specific hints *)
  let hints :=
    if contains (py "California") country || contains (py "United States") country then
      hints ++ [py "Consider California's strict non-compete restrictions";
                py "Ensure compliance with US data privacy laws";
                py "Review indemnification clause enforceability"]
    else if contains (py "United Kingdom") country || contains (py "UK") country then
      hints ++ [py "Consider GDPR compliance requirements";
                py "Review unfair contract terms regulations";
                py "Ensure proper governing law clauses"]
    else hints in
  (* General hints *)
  let hints :=
    hints ++ [py "Review limitation of liability clauses for reasonableness";
              py "Ensure termination clauses are clearly defined";
              py "Consider force majeure provisions"] in
  firstn 5 hints.

(* ================================================================== *)
(** * parsers_llm.py: text extraction *)
(* ================================================================== *)

(** The uploaded file: its name, its bytes and the read cursor. *)
Record pyfile := {
  file_name : pystr;
  file_data : list Byte.byte;
  file_pos : nat
}.

(** [file_obj.seek(0)] *)
Definition seek0 (f : pyfile) : pyfile :=
  {| file_name := file_name f; file_data := file_data f; file_pos := 0 |}.

(** [file_obj.read()]: the bytes from the cursor on; the cursor ends behind
    them. *)
Definition file_read (f : pyfile) : list Byte.byte * pyfile :=
  (skipn (file_pos f) (file_data f),
   {| file_name := file_name f; file_data := file_data f;
      file_pos := length (file_data f) |}).

(** [bytes.decode('latin-1')]: every byte is its own code point. *)
Definition latin1_decode (b : list Byte.byte) : pystr := map Byte.to_N b.

Definition continuation (b : Byte.byte) : option N :=
  let n := Byte.to_N b in
  if ((128 <=? n) && (n <=? 191))%N then Some (n - 128)%N else None.

(** [bytes.decode('utf-8')], strict: [None] is [UnicodeDecodeError]
    (stray or missing continuation bytes, overlong forms, surrogates, code
    points above U+10FFFF). *)
Fixpoint utf8_decode (b : list Byte.byte) : option pystr :=
  match b with
  | [] => Some []
  | b0 :: t0 =>
      let n0 := Byte.to_N b0 in
      if (n0 <? 128)%N then option_map (cons n0) (utf8_decode t0)
      else if ((194 <=? n0) && (n0 <=? 223))%N then
        match t0 with
        | b1 :: t1 =>
            match continuation b1 with
            | Some c1 => option_map (cons ((n0 - 192) * 64 + c1)%N) (utf8_decode t1)
            | None => None
            end
        | _ => None
        end
      else if ((224 <=? n0) && (n0 <=? 239))%N then
        match t0 with
        | b1 :: b2 :: t2 =>
            match continuation b1, continuation b2 with
            | Some c1, Some c2 =>
                let cp := ((n0 - 224) * 4096 + c1 * 64 + c2)%N in
                if ((2048 <=? cp) && negb ((55296 <=? cp) && (cp <=? 57343)))%N
                then option_map (cons cp) (utf8_decode t2)
                else None
            | _, _ => None
            end
        | _ => None
        end
      else if ((240 <=? n0) && (n0 <=? 244))%N then
        match t0 with
        | b1 :: b2 :: b3 :: t3 =>
            match continuation b1, continuation b2, continuation b3 with
            | Some c1, Some c2, Some c3 =>
                let cp := ((n0 - 240) * 262144 + c1 * 4096 + c2 * 64 + c3)%N in
                if ((65536 <=? cp) && (cp <=? 1114111))%N
                then option_map (cons cp) (utf8_decode t3)
                else None
            | _, _, _ => None
            end
        | _ => None
        end
      else None
  end.

Section Extraction.
Context {RT : Runtime}.

(** Each reader returns the text and leaves the file behind; a reader that
    raises is caught inside its function, which then returns the empty
    string. *)
Definition extract_text_from_pdf_pymupdf (file_obj : pyfile) : pystr * pyfile :=
  let (data, file_obj) := file_read file_obj in
  match fitz_page_texts data with
  | Some pages => (join (py " ") pages, file_obj)
  | None => ([], file_obj)
  end.

Definition extract_text_from_pdf_pdfplumber (file_obj : pyfile) : pystr * pyfile :=
  let file_obj := seek0 file_obj in
  let (data, file_obj) := file_read file_obj in
  match pdfplumber_page_texts data with
  | Some pages =>
      (fold_left (fun text page_text =>
                    match page_text with
                    | Some (c :: t) => text ++ (c :: t) ++ [10%N]
                    | _ => text
                    end) pages [],
       file_obj)
  | None => ([], file_obj)
  end.

Definition extract_text_from_pdf_pypdf2 (file_obj : pyfile) : pystr * pyfile :=
  let file_obj := seek0 file_obj in
  let (data, file_obj) := file_read file_obj in
  match pypdf2_page_texts data with
  | Some pages =>
      (fold_left (fun text page_text => text ++ page_text ++ [10%N]) pages [],
       file_obj)
  | None => ([], file_obj)
  end.

Definition extract_text_from_docx_python_docx (file_obj : pyfile) : pystr * pyfile :=
  let file_obj := seek0 file_obj in
  let (data, file_obj) := file_read file_obj in
  match docx_paragraph_texts data with
  | Some paragraphs => (join [10%N] paragraphs, file_obj)
  | None => ([], file_obj)
  end.

Definition extract_text_from_docx_docx2txt (file_obj : pyfile) : pystr * pyfile :=
  let file_obj := seek0 file_obj in
  let (data, file_obj) := file_read file_obj in
  match docx2txt_process data with
  | Some (Some text) => (text, file_obj)   (* [text if text else empty] *)
  | Some None => ([], file_obj)
  | None => ([], file_obj)
  end.

(** [for method_name, method_func in methods: ...] with its [break]. *)
Fixpoint try_methods (methods : list (pystr * (pyfile -> pystr * pyfile)))
    (text : pystr) (file_obj : pyfile) : pystr * pyfile :=
  match methods with
  | [] => (text, file_obj)
  | (method_name, method_func) :: rest =>
      let file_obj := seek0 file_obj in
      let (text, file_obj) := method_func file_obj in
      if negb (is_nil (strip text))
      then (text, file_obj)
      else try_methods rest text file_obj
  end.

Definition pdf_methods : list (pystr * (pyfile -> pystr * pyfile)) :=
  [(py "PyMuPDF", extract_text_from_pdf_pymupdf);
   (py "pdfplumber", extract_text_from_pdf_pdfplumber);
   (py "PyPDF2", extract_text_from_pdf_pypdf2)].

Definition docx_methods : list (pystr * (pyfile -> pystr * pyfile)) :=
  [(py "python-docx", extract_text_from_docx_python_docx);
   (py "docx2txt", extract_text_from_docx_docx2txt)].

(** [file_obj.name.split(".")[-1].lower()] *)
Definition file_suffix (file_obj : pyfile) : pystr :=
  str_lower (last_field (split (py ".") (file_name file_obj))).

Definition extract_text (file_obj : pyfile) : pystr :=
  let suffix := file_suffix file_obj in
  let text := [] in
  let text :=
    if str_eqb suffix (py "pdf") then
      (* Try multiple PDF extraction methods *)
      fst (try_methods pdf_methods text file_obj)
    else if str_eqb suffix (py "docx") then
      (* Try multiple DOCX extraction methods *)
      fst (try_methods docx_methods text file_obj)
    else if str_eqb suffix (py "txt") then
      let (data, file_obj) := file_read (seek0 file_obj) in
      match utf8_decode data with
      | Some text => text
      | None =>
          let (data, file_obj) := file_read (seek0 file_obj) in
          latin1_decode data
      end
    else text in
  strip text.

End Extraction.

(* ================================================================== *)
(** * parsers_llm.py: conversion to Markdown *)
(* ================================================================== *)

(** The Unicode tables behind [str.isupper], [str.title] and the class [\d]
    of [re] (the decimal digits). *)
Class Casing := {
  str_isupper : pystr -> bool;
  str_title : pystr -> pystr;
  is_decimal_digit : char -> bool
}.

(** [s.endswith('.')] *)
Definition ends_with_dot (s : pystr) : bool :=
  match rev s with
  | c :: _ => (c =? 46)%N
  | [] => false
  end.

Section Markdown.
Context {CS : Casing}.

(** [re.match(r'^\d+\.?\s+[A-Z]', paragraph)]: digits, a full stop or none,
    white space, an upper case letter, at the start of the paragraph.  The
    optional full stop makes two sequences of classes; the paragraph
    matches when it matches one of them. *)
Definition numbered_section (paragraph : pystr) : bool :=
  match match_here [(is_decimal_digit, Plus); (is_dot, One); (isspace, Plus);
                    (is_upper_AZ, One)] paragraph,
        match_here [(is_decimal_digit, Plus); (isspace, Plus);
                    (is_upper_AZ, One)] paragraph with
  | None, None => false
  | _, _ => true
  end.

(** What a stripped, non-empty paragraph adds to the document. *)
Definition markdown_block (paragraph : pystr) : pystr :=
  (* Check if it looks like a heading (all caps, short line) *)
  if (length paragraph <? 100) && str_isupper paragraph
     && negb (ends_with_dot paragraph)
  then py "## " ++ str_title paragraph ++ [10%N; 10%N]
  (* Check if it looks like a numbered section *)
  else if numbered_section paragraph
  then py "### " ++ paragraph ++ [10%N; 10%N]
  (* Regular paragraph *)
  else paragraph ++ [10%N; 10%N].

(** [f"# {title}\n\n"] when a title is given and not empty. *)
Definition title_heading (title : option pystr) : pystr :=
  match title with
  | Some (c :: t) => py "# " ++ (c :: t) ++ [10%N; 10%N]
  | _ => []
  end.

Definition convert_text_to_markdown (text : pystr) (title : option pystr) : pystr :=
  if is_nil (strip text) then []
  else
    (* Add title if provided *)
    let markdown_content := title_heading title in
    (* Split text into paragraphs *)
    let paragraphs := split [10%N; 10%N] text in
    fold_left (fun markdown_content paragraph =>
                 let paragraph := strip paragraph in
                 if is_nil paragraph then markdown_content
                 else markdown_content ++ markdown_block paragraph)
              paragraphs markdown_content.

End Markdown.

(* ================================================================== *)
(** * parsers_llm.py: the wrappers used by the application *)
(* ================================================================== *)

Definition analyze_contract_full {RT : Runtime} (text : pystr) : M Analysis :=
  analyze_contract_comprehensive text.

(* ================================================================== *)
(** * Home.py *)
(* ================================================================== *)

(** [sorted(l, key=key, reverse=True)]: stable, elements with equal keys
    keep the order they came in. *)
Fixpoint insert_desc {A} (key : A -> Z) (x : A) (l : list A) : list A :=
  match l with
  | [] => [x]
  | y :: l' => if (key y <=? key x)%Z then x :: l else y :: insert_desc key x l'
  end.

Definition sorted_reverse {A} (key : A -> Z) (l : list A) : list A :=
  fold_right (insert_desc key) [] l.

(** [lambda x: text.find(x.text) if x.text in text else 0] *)
Definition position_key (text : pystr) (x : RiskItem) : Z :=
  if contains (ri_text x) text then find (ri_text x) text else 0%Z.

(** The colour of a risk level, with the default of [.get]. *)
Definition highlight_color (risk_level : pystr) : pystr :=
  dict_get_default risk_level (py "#f3e5f5")
    [(py "high", py "#ffcdd2"); (py "medium", py "#ffe0b2"); (py "low", py "#f3e5f5")].

Definition quote : pystr := [34%N].

(** The [<mark>] element put around the text of a risk. *)
Definition mark (risk : RiskItem) : pystr :=
  py "<mark style=" ++ quote ++ py "background-color: "
    ++ highlight_color (ri_risk_level risk)
    ++ py "; padding: 2px 4px; border-radius: 3px;" ++ quote ++ py ">"
    ++ ri_text risk ++ py "</mark>".

(** The body of the loop over [sorted_risks]. *)
Definition highlight_step (highlighted_text : pystr) (risk : RiskItem) : pystr :=
  if contains (ri_text risk) highlighted_text
  then replace (ri_text risk) (mark risk) highlighted_text
  else highlighted_text.

Definition highlight_risks_in_text (text : pystr) (risks : list RiskItem) : pystr :=
  let highlighted_text := text in
  (* Sort risks by position to avoid overlapping highlights *)
  let sorted_risks := sorted_reverse (position_key text) risks in
  fold_left highlight_step sorted_risks highlighted_text.

(** [risk_counts = {"high": 0, "medium": 0, "low": 0}] and the loop
    [risk_counts[risk.risk_level] += 1]; [None] is the [KeyError] of a level
    that is no key. *)
Fixpoint count_risks (risks : list RiskItem) (risk_counts : dict nat)
  : option (dict nat) :=
  match risks with
  | [] => Some risk_counts
  | risk :: rest =>
      match dict_get (ri_risk_level risk) risk_counts with
      | Some n => count_risks rest (dict_set (ri_risk_level risk) (S n) risk_counts)
      | None => None
      end
  end.

(** What one run of the page shows. *)
Inductive page :=
| AwaitingUpload
| ExtractionError
| Report (analysis : Analysis) (risks : list RiskItem)
         (contract_view : pystr) (risk_counts : dict nat)
| UncaughtKeyError.

Definition process_contract {RT : Runtime} (text : pystr) : M page :=
  (* Analyze contract using LLM *)
  analysis_results <- analyze_contract_full text ;;
  let contract_type := contract_type analysis_results in
  let country := governing_law analysis_results in
  (* Get regulatory hints *)
  let regulatory_hints := search_regulatory_hints contract_type country in
  (* Perform LLM review *)
  risks <- llm_review text contract_type country regulatory_hints ;;
  let contract_view :=
    if negb (is_nil risks) then highlight_risks_in_text text risks else text in
  match count_risks risks [(py "high", 0); (py "medium", 0); (py "low", 0)] with
  | Some risk_counts => ret (Report analysis_results risks contract_view risk_counts)
  | None => ret UncaughtKeyError
  end.

(** The sample contract behind the "Load Sample NDA" button. *)
Definition sample_text : pystr := py "
            NON-DISCLOSURE AGREEMENT
            
            This Non-Disclosure Agreement is entered into between TechCorp Inc. and DataSolutions LLC.
            
            CONFIDENTIALITY
            The Receiving Party agrees to hold and maintain the Confidential Information in strict confidence for a period of five years.
            
            TERMINATION
            This Agreement may be terminated by either party with 30 days written notice.
            
            GOVERNING LAW
            This Agreement shall be governed by and construed in accordance with the laws of the State of California.
            
            LIABILITY
            In no event shall either party be liable for any indirect, special, or consequential damages exceeding $100,000.
            ".

(** [main()]: with no file uploaded the page waits, or processes the sample
    when its button is pressed; an uploaded file is extracted and cleaned
    first. *)
Definition main {RT : Runtime} (uploaded_file : option pyfile) (load_sample : bool)
  : M page :=
  match uploaded_file with
  | None =>
      if load_sample then process_contract sample_text else ret AwaitingUpload
  | Some file_obj =>
      (* Process uploaded file *)
      let text := extract_text file_obj in
      let text := clean_text text in
      if is_nil (strip text)
      then ret ExtractionError        (* st.error(...); return *)
      else process_contract text
  end.

(* ================================================================== *)
(** * A reference runtime *)
(* ================================================================== *)

(** The decoder of Python's [json] module on code points: RFC 8259 with the
    constants [NaN], [Infinity] and [-Infinity], strings in strict mode,
    the last value of a repeated key kept. *)
Module Json.

Definition is_ws (c : char) : bool :=
  ((c =? 32) || (c =? 9) || (c =? 10) || (c =? 13))%N.

Fixpoint skip_ws (s : pystr) : pystr :=
  match s with
  | c :: t => if is_ws c then skip_ws t else s
  | [] => []
  end.

Definition is_digit (c : char) : bool := ((48 <=? c) && (c <=? 57))%N.

Definition hex_value (c : char) : option N :=
  if is_digit c then Some (c - 48)%N
  else if ((97 <=? c) && (c <=? 102))%N then Some (c - 87)%N
  else if ((65 <=? c) && (c <=? 70))%N then Some (c - 55)%N
  else None.

Definition hex4 (a b c d : char) : option N :=
  match hex_value a, hex_value b, hex_value c, hex_value d with
  | Some x, Some y, Some z, Some w => Some (((x * 16 + y) * 16 + z) * 16 + w)%N
  | _, _, _, _ => None
  end.

(** The character of a one-letter escape. *)
Definition unescape (e : char) : option char :=
  if (e =? 34)%N then Some 34%N          (* quotation mark *)
  else if (e =? 92)%N then Some 92%N     (* backslash *)
  else if (e =? 47)%N then Some 47%N     (* slash *)
  else if (e =? 98)%N then Some 8%N      (* b *)
  else if (e =? 102)%N then Some 12%N    (* f *)
  else if (e =? 110)%N then Some 10%N    (* n *)
  else if (e =? 114)%N then Some 13%N    (* r *)
  else if (e =? 116)%N then Some 9%N     (* t *)
  else None.

(** The low half of a surrogate pair written as a second [\u] escape. *)
Definition low_surrogate (s : pystr) : option N :=
  match s with
  | 92%N :: 117%N :: a :: b :: c :: d :: _ =>
      match hex4 a b c d with
      | Some u => if ((56320 <=? u) && (u <=? 57343))%N then Some u else None
      | None => None
      end
  | _ => None
  end.

(** A string behind its opening quotation mark: its characters (read so
    far, reversed, in [acc]) and the text behind the closing mark. *)
Fixpoint scan_string (s : pystr) (acc : pystr) : option (pystr * pystr) :=
  match s with
  | [] => None
  | c :: t =>
      if (c =? 34)%N then Some (rev acc, t)
      else if (c =? 92)%N then
        match t with
        | [] => None
        | e :: t1 =>
            if (e =? 117)%N then
              match t1 with
              | a :: b :: c' :: d :: t2 =>
                  match hex4 a b c' d with
                  | Some u =>
                      match (if ((55296 <=? u) && (u <=? 56319))%N
                             then low_surrogate t2 else None), t2 with
                      | Some lo, _ :: _ :: _ :: _ :: _ :: _ :: t3 =>
                          scan_string t3
                            ((65536 + (u - 55296) * 1024 + (lo - 56320))%N :: acc)
                      | _, _ => scan_string t2 (u :: acc)
                      end
                  | None => None
                  end
              | _ => None
              end
            else match unescape e with
                 | Some ch => scan_string t1 (ch :: acc)
                 | None => None
                 end
        end
      else if (c <? 32)%N then None
      else scan_string t (c :: acc)
  end.

Fixpoint span (p : char -> bool) (s : pystr) : pystr * pystr :=
  match s with
  | c :: t => if p c then let (a, b) := span p t in (c :: a, b) else ([], s)
  | [] => ([], [])
  end.

(** A number at the start of [s]: an optional minus sign, the integer part
    (a single zero, or digits that do not start with zero), an optional
    fraction (a point and digits), an optional exponent ([e] or [E], a sign,
    digits).  Returns the text of the number and the text behind it. *)
Definition scan_number (s : pystr) : option (pystr * pystr) :=
  let (sign, s1) := match s with
                    | 45%N :: t => ([45%N], t)
                    | _ => ([], s)
                    end in
  match s1 with
  | d :: t =>
      if is_digit d then
        let (int_rest, s2) := if (d =? 48)%N then ([], t) else span is_digit t in
        let (frac, s3) :=
          match s2 with
          | 46%N :: f =>
              match span is_digit f with
              | (x :: ds, r) => (46%N :: x :: ds, r)
              | ([], _) => ([], s2)
              end
          | _ => ([], s2)
          end in
        let (expo, s4) :=
          match s3 with
          | e :: x =>
              if ((e =? 101) || (e =? 69))%N then
                let (esign, x1) :=
                  match x with
                  | g :: x' => if ((g =? 43) || (g =? 45))%N then ([g], x') else ([], x)
                  | [] => ([], x)
                  end in
                match span is_digit x1 with
                | (y :: ds, r) => (e :: esign ++ y :: ds, r)
                | ([], _) => ([], s3)
                end
              else ([], s3)
          | [] => ([], s3)
          end in
        Some (sign ++ d :: int_rest ++ frac ++ expo, s4)
      else None
  | [] => None
  end.

(** [startswith] that also hands back the rest. *)
Definition take_literal (lit s : pystr) : option pystr :=
  if startswith lit s then Some (skipn (length lit) s) else None.

(** The constants of the grammar and of Python's extension of it. *)
Definition scan_constant (s : pystr) : option (json * pystr) :=
  match take_literal (py "null") s, take_literal (py "true") s,
        take_literal (py "false") s with
  | Some r, _, _ => Some (JNull, r)
  | _, Some r, _ => Some (JBool true, r)
  | _, _, Some r => Some (JBool false, r)
  | None, None, None =>
      match take_literal (py "NaN") s, take_literal (py "Infinity") s,
            take_literal (py "-Infinity") s with
      | Some r, _, _ => Some (JNumber (py "NaN"), r)
      | _, Some r, _ => Some (JNumber (py "Infinity"), r)
      | _, _, Some r => Some (JNumber (py "-Infinity"), r)
      | None, None, None => None
      end
  end.

(** A value at the start of [s] and the text behind it; [parse_members]
    stands at the key of a member, [parse_elements] at an element.  Each
    call on a nested value takes one unit of [fuel]. *)
Fixpoint parse_value (fuel : nat) (s : pystr) {struct fuel}
  : option (json * pystr) :=
  match fuel with
  | O => None
  | S fuel' =>
      match s with
      | 34%N :: t =>
          match scan_string t [] with
          | Some (str, r) => Some (JStr str, r)
          | None => None
          end
      | 123%N :: t =>
          match skip_ws t with
          | 125%N :: r => Some (JObj [], r)
          | t' => parse_members fuel' t' []
          end
      | 91%N :: t =>
          match skip_ws t with
          | 93%N :: r => Some (JArr [], r)
          | t' => parse_elements fuel' t' []
          end
      | _ =>
          match scan_constant s with
          | Some res => Some res
          | None =>
              match scan_number s with
              | Some (lexeme, r) => Some (JNumber lexeme, r)
              | None => None
              end
          end
      end
  end
with parse_members (fuel : nat) (s : pystr) (acc : dict json) {struct fuel}
  : option (json * pystr) :=
  match fuel with
  | O => None
  | S fuel' =>
      match s with
      | 34%N :: t =>
          match scan_string t [] with
          | Some (key, r) =>
              match skip_ws r with
              | 58%N :: r1 =>
                  match parse_value fuel' (skip_ws r1) with
                  | Some (v, r2) =>
                      match skip_ws r2 with
                      | 125%N :: r3 => Some (JObj (dict_set key v acc), r3)
                      | 44%N :: r3 =>
                          parse_members fuel' (skip_ws r3) (dict_set key v acc)
                      | _ => None
                      end
                  | None => None
                  end
              | _ => None
              end
          | None => None
          end
      | _ => None
      end
  end
with parse_elements (fuel : nat) (s : pystr) (acc : list json) {struct fuel}
  : option (json * pystr) :=
  match fuel with
  | O => None
  | S fuel' =>
      match parse_value fuel' s with
      | Some (v, r) =>
          match skip_ws r with
          | 93%N :: r1 => Some (JArr (rev (v :: acc)), r1)
          | 44%N :: r1 => parse_elements fuel' (skip_ws r1) (v :: acc)
          | _ => None
          end
      | None => None
      end
  end.

(** [json.loads(s)]: one value, white space around it, nothing else; a
    leading byte order mark is refused. *)
Definition loads (s : pystr) : option json :=
  match s with
  | 65279%N :: _ => None
  | _ =>
      match parse_value (2 * length s + 2) (skip_ws s) with
      | Some (v, r) => if is_nil (skip_ws r) then Some v else None
      | None => None
      end
  end.

End Json.

(** A runtime to run the code on: the decoder above, pydantic 2, ASCII
    lower-casing, a model that plays back a script of answers ([None]: the
    call raises; so does a call behind the end of the script), and readers
    that see a document whose pages carry no text. *)
Definition scripted_invoke (p : prompt) (script : list (option pystr))
  : option pystr * list (option pystr) :=
  match script with
  | [] => (None, [])
  | answer :: rest => (answer, rest)
  end.

Definition reference_runtime : Runtime :=
  {| json_loads := Json.loads;
     scalar_as_str := fun _ => None;
     str_lower := map ascii_lower;
     str_lower_ascii := fun s _ => eq_refl;
     World := list (option pystr);
     model_invoke := scripted_invoke;
     fitz_page_texts := fun _ => Some [py " "; []];
     pdfplumber_page_texts := fun _ => Some [None; Some []];
     pypdf2_page_texts := fun _ => None;
     docx_paragraph_texts := fun _ => Some [[]; py "  "];
     docx2txt_process := fun _ => Some None |}.

(** A literal with quotation marks, written with apostrophes in their
    place. *)
Definition json_text (s : string) : pystr :=
  map (fun c => if (c =? 39)%N then 34%N else c) (py s).

(** The tables on ASCII text. *)
Definition ascii_isupper (s : pystr) : bool :=
  existsb is_upper_AZ s && negb (existsb is_lower_az s).

Definition ascii_upper (c : char) : char :=
  if is_lower_az c then (c - 32)%N else c.

Fixpoint ascii_title_from (in_word : bool) (s : pystr) : pystr :=
  match s with
  | [] => []
  | c :: t =>
      if is_upper_AZ c || is_lower_az c
      then (if in_word then ascii_lower c else ascii_upper c) :: ascii_title_from true t
      else c :: ascii_title_from false t
  end.

Definition ascii_casing : Casing :=
  {| str_isupper := ascii_isupper;
     str_title := ascii_title_from false;
     is_decimal_digit := Json.is_digit |}.

(* ================================================================== *)
(** * The predicates and the inputs of the properties *)
(* ================================================================== *)

(** The statement of "no risks" that the review looks for. *)
Definition says_no_risks {RT : Runtime} (response_text : pystr) : bool :=
  contains (py "no significant risks") (str_lower response_text).

Definition risk_levels : list pystr := [py "high"; py "medium"; py "low"].

(** Both braces occur in [s]. *)
Definition has_braces (s : pystr) : bool :=
  contains (py "{") s && contains (py "}") s.

(** The value of an entry is an object with a ["text"] field. *)
Definition entry_has_text (v : json) : bool :=
  match v with
  | JObj fields => dict_has (py "text") fields
  | _ => false
  end.

Definition entry_field (name : pystr) (v : json) : json :=
  match v with
  | JObj fields => dict_get_default name (JStr []) fields
  | _ => JStr []
  end.

Definition is_string (v : json) : bool :=
  match v with JStr _ => true | _ => false end.

Definition json_string (v : json) : pystr :=
  match v with JStr s => s | _ => [] end.

(** The clause mapping of the claim: the entries with a ["text"] field, in
    their order, with the text and the summary of the entry, the summary
    empty when the entry has none. *)
Definition expected_clauses (members : dict json) : dict ClauseInfo :=
  map (fun kv => (fst kv,
                  {| ci_text := json_string (entry_field (py "text") (snd kv));
                     ci_summary := json_string (entry_field (py "summary") (snd kv)) |}))
      (filter (fun kv => entry_has_text (snd kv)) members).

(** In the entries with a ["text"] field, the text and the summary are
    strings. *)
Definition texts_are_strings (members : dict json) : bool :=
  forallb (fun kv => implb (entry_has_text (snd kv))
                       (is_string (entry_field (py "text") (snd kv))
                        && is_string (entry_field (py "summary") (snd kv))))
          members.

(** Empty or white space only. *)
Definition blank (s : pystr) : bool := is_nil (strip s).

(** The text of the file read as plain text. *)
Definition decoded_text (file_obj : pyfile) : pystr :=
  match utf8_decode (file_data file_obj) with
  | Some text => text
  | None => latin1_decode (file_data file_obj)
  end.

(** Every extraction method for the format of the file returns blank text,
    called as [extract_text] calls it, on the file at its start.  A reader
    that raises makes its method return the empty string. *)
Definition all_backends_blank {RT : Runtime} (file_obj : pyfile) : bool :=
  let suffix := file_suffix file_obj in
  if str_eqb suffix (py "pdf") then
    forallb (fun m => blank (fst (snd m (seek0 file_obj)))) pdf_methods
  else if str_eqb suffix (py "docx") then
    forallb (fun m => blank (fst (snd m (seek0 file_obj)))) docx_methods
  else if str_eqb suffix (py "txt") then blank (decoded_text file_obj)
  else true.

(** A method leaves the name and the bytes of the file as they are. *)
Definition keeps_file (m : pyfile -> pystr * pyfile) : Prop :=
  forall g, seek0 (snd (m g)) = seek0 g.

Definition clauses_in_prose : pystr :=
  json_text "Here are the clauses: {'termination': {'text': 'T', 'summary': 'S'}}".

Definition clauses_with_null_text : pystr :=
  json_text "{'termination': {'text': 'T', 'summary': 'S'}, 'payment': {'text': null}}".

(** The object of the specification, with one entry of each kind added:
    a number, and an object without a text. *)
Definition clauses_response : pystr :=
  json_text "{'termination': {'text': 'T', 'summary': 'S'}, 'pages': 5, 'notes': {'summary': 'none'}, 'payment': {'text': 'P'}}".

(** A run in which the assessment of the first of two clauses raises. *)
Definition termination_clause : ClauseInfo :=
  {| ci_text := py "Either party may terminate this Agreement at any time and for any reason upon thirty days written notice to the other party.";
     ci_summary := py "Termination on notice" |}.

Definition liability_clause : ClauseInfo :=
  {| ci_text := py "In no event shall either party be liable for any indirect, special, or consequential damages exceeding the fees paid hereunder.";
     ci_summary := py "Cap on damages" |}.

Definition two_clause_script : list (option pystr) :=
  [Some (py "NDA"); Some (py "Delaware");
   Some (json_text "{'termination': {'text': 'Either party may terminate this Agreement at any time and for any reason upon thirty days written notice to the other party.', 'summary': 'Termination on notice'}, 'liability': {'text': 'In no event shall either party be liable for any indirect, special, or consequential damages exceeding the fees paid hereunder.', 'summary': 'Cap on damages'}}");
   None;
   Some (json_text "{'risk_level': 'high', 'issues': ['No cap for direct damages'], 'recommendations': [], 'explanation': 'One-sided'}")].

(** A scanned document: the readers find pages without text, or raise. *)
Definition scanned_pdf : pyfile :=
  {| file_name := py "lease.scan.PDF";
     file_data := [Byte.x25; Byte.x50; Byte.x44; Byte.x46];
     file_pos := 0 |}.

(** A text with one risk at offset 10 and one at offset 50. *)
Definition offsets_text : pystr :=
  py "This lease [NO NOTICE] binds the tenants, and the [UNCAPPED FEE] applies.".

Definition risk_at_10 : RiskItem :=
  {| ri_text := py " [NO NOTICE]"; ri_issue := py "No notice period";
     ri_suggestion := py "Add thirty days notice"; ri_risk_level := py "medium" |}.

Definition risk_at_50 : RiskItem :=
  {| ri_text := py "[UNCAPPED FEE]"; ri_issue := py "Fee without a cap";
     ri_suggestion := py "Cap the fee"; ri_risk_level := py "high" |}.

(** A risk whose text is in the source, and one whose text, "mark", is not. *)
Definition fee_text : pystr := py "The fee is due on signature.".

Definition fee_risk : RiskItem :=
  {| ri_text := py "fee"; ri_issue := py "No amount is stated";
     ri_suggestion := py "State the amount"; ri_risk_level := py "high" |}.

Definition paraphrased_risk : RiskItem :=
  {| ri_text := py "mark"; ri_issue := py "No trade mark licence";
     ri_suggestion := py "Add a licence clause"; ri_risk_level := py "low" |}.

(** The answers that [detect_governing_law_llm] takes for "not stated". *)
Definition unknown_variants : list pystr :=
  [py "unknown"; py "not specified"; py "not mentioned"; py "none"].

(** The three lists of [search_regulatory_hints] that do not depend on the
    contract. *)
Definition general_hints : list pystr :=
  [py "Review limitation of liability clauses for reasonableness";
   py "Ensure termination clauses are clearly defined";
   py "Consider force majeure provisions"].

(** The contract type has hints of its own. *)
Definition type_has_hints (contract_type : pystr) : bool :=
  str_in contract_type [py "NDA"; py "Employment"; py "MSA"].

(** The governing law has hints of its own. *)
Definition country_has_hints (country : pystr) : bool :=
  contains (py "California") country || contains (py "United States") country
  || contains (py "United Kingdom") country || contains (py "UK") country.

(** The number of risks at a level. *)
Definition count_level (level : pystr) (risks : list RiskItem) : nat :=
  length (filter (fun r => str_eqb (ri_risk_level r) level) risks).

(** The counters that [process_contract] starts from. *)
Definition zero_counts : dict nat :=
  [(py "high", 0); (py "medium", 0); (py "low", 0)].

(** A model that cannot be reached: every call raises. *)
Definition offline_runtime : Runtime :=
  {| json_loads := Json.loads;
     scalar_as_str := fun _ => None;
     str_lower := map ascii_lower;
     str_lower_ascii := fun s _ => eq_refl;
     World := unit;
     model_invoke := fun _ w => (None, w);
     fitz_page_texts := fun _ => None;
     pdfplumber_page_texts := fun _ => None;
     pypdf2_page_texts := fun _ => None;
     docx_paragraph_texts := fun _ => None;
     docx2txt_process := fun _ => None |}.

(** Two long texts that differ behind their first 6000 characters. *)
Definition long_text (tail : pystr) : pystr := repeat 97%N (N.to_nat 6000) ++ tail.

(** The characters of a text that are no white space, in their order. *)
Definition visible (s : pystr) : pystr := filter (fun c => negb (isspace c)) s.

(** The first of the outputs that is not blank; the last one when all are
    blank, the empty string when there is none. *)
Fixpoint first_nonblank (outputs : list pystr) (text : pystr) : pystr :=
  match outputs with
  | [] => text
  | o :: rest => if blank o then first_nonblank rest o else o
  end.

(** What the methods of a format return on the file at its start. *)
Definition method_outputs (methods : list (pystr * (pyfile -> pystr * pyfile)))
    (file_obj : pyfile) : list pystr :=
  map (fun m => fst (snd m (seek0 file_obj))) methods.

(** A runtime in which the first PDF reader raises and the second finds
    text on two of three pages. *)
Definition second_reader_runtime : Runtime :=
  {| json_loads := Json.loads;
     scalar_as_str := fun _ => None;
     str_lower := map ascii_lower;
     str_lower_ascii := fun s _ => eq_refl;
     World := list (option pystr);
     model_invoke := scripted_invoke;
     fitz_page_texts := fun _ => None;
     pdfplumber_page_texts :=
       fun _ => Some [Some (py " LEASE"); None; Some (py "Rent is due. ")];
     pypdf2_page_texts := fun _ => Some [py "unused"];
     docx_paragraph_texts := fun _ => None;
     docx2txt_process := fun _ => Some (Some (py "From docx2txt")) |}.

(** A plain text file. *)
Definition lease_txt : pyfile :=
  {| file_name := py "lease.txt";
     file_data := [Byte.x20; Byte.x4c; Byte.x65; Byte.x61; Byte.x73; Byte.x65; Byte.x0a];
     file_pos := 0 |}.

(** A line of the response opens a risk record. *)
Definition is_risk_line (line : pystr) : bool :=
  startswith (py "Risk") (strip line) && contains (py ":") (strip line).

(** No hyphen, colon or newline. *)
Definition no_delimiter (s : pystr) : bool :=
  forallb (fun c => negb ((c =? 45) || (c =? 58) || (c =? 10))%N) s.

(** A field of a risk line: no hyphen, colon or newline in it and no white
    space at its ends. *)
Definition field_ok (s : pystr) : bool := no_delimiter s && str_eqb (strip s) s.

Definition item_ok (item : RiskItem) : bool :=
  field_ok (ri_text item) && field_ok (ri_issue item)
  && field_ok (ri_suggestion item) && field_ok (ri_risk_level item)
  && negb (is_nil (ri_risk_level item)).

(** A risk in the format that the prompt of [chain.py] asks for,
    [Risk 1: text - Issue: issue - Suggestion: suggestion - Level: level];
    [label] is what stands between "Risk" and the colon. *)
Definition risk_line (entry : pystr * RiskItem) : pystr :=
  py "Risk" ++ fst entry ++ py ": " ++ ri_text (snd entry)
    ++ py " - Issue: " ++ ri_issue (snd entry)
    ++ py " - Suggestion: " ++ ri_suggestion (snd entry)
    ++ py " - Level: " ++ ri_risk_level (snd entry).

Definition entry_ok (entry : pystr * RiskItem) : bool :=
  no_delimiter (fst entry) && item_ok (snd entry).

(** The record read back from a line: the level in lower case. *)
Definition lowered {RT : Runtime} (item : RiskItem) : RiskItem :=
  {| ri_text := ri_text item; ri_issue := ri_issue item;
     ri_suggestion := ri_suggestion item;
     ri_risk_level := str_lower (ri_risk_level item) |}.

(** No occurrence of [sep] starts inside [a] when [a] is followed by
    [tail]. *)
Fixpoint clear_of (sep a tail : pystr) : bool :=
  match a with
  | [] => true
  | _ :: a' => negb (startswith sep (a ++ tail)) && clear_of sep a' tail
  end.

(** What [review_line] and the flush behind the loop make of a state. *)
Definition flushed (state : list RiskItem * dict pystr) : list RiskItem :=
  if negb (is_nil (snd state))
  then fst state ++ [create_risk_item (snd state)]
  else fst state.

(** A value that no runtime accepts for a field declared [List[str]]: no
    array, or an array with [null], an array or an object in it. *)
Definition refused_list (v : json) : bool :=
  match v with
  | JArr items =>
      existsb (fun i => match i with
                        | JNull | JArr _ | JObj _ => true
                        | _ => false
                        end) items
  | _ => true
  end.

(** A contract of two paragraphs, the first a heading in capitals. *)
Definition headed_text : pystr :=
  py "  TERMINATION " ++ [10%N; 10%N]
    ++ py "1. Either party may terminate on notice." ++ [10%N].

(* ================================================================== *)
(** * Properties: strings *)
(* ================================================================== *)

Example strip_example : strip (py "  a b  ") = py "a b".
Proof. reflexivity. Qed.

Example find_example :
  find (py "{") (py "ab{c{") = 2%Z /\ rfind (py "{") (py "ab{c{") = 4%Z
  /\ find (py "x") (py "abc") = (-1)%Z /\ rfind (py "x") (py "abc") = (-1)%Z.
Proof. repeat split; reflexivity. Qed.

Example split_example :
  split (py " - ") (py "a - b - - c") = [py "a"; py "b"; py "- c"]
  /\ split1 (py ": ") (py "Risk 1: a: b") = [py "Risk 1"; py "a: b"].
Proof. split; reflexivity. Qed.

Example replace_example :
  replace (py "aa") (py "b") (py "aaaxaa") = py "baxb"
  /\ replace [] (py "-") (py "ab") = py "-a-b-".
Proof. split; reflexivity. Qed.

Example slice_example :
  slice 2 4 (py "abcdef") = py "cd" /\ slice 3 1 (py "abcdef") = [].
Proof. split; reflexivity. Qed.

Example re_sub_example :
  re_sub re_newlines (fun _ => [10%N; 10%N])
    [97%N; 10%N; 32%N; 10%N; 10%N; 10%N; 32%N; 10%N; 32%N; 98%N; 10%N; 10%N; 99%N]
  = [97%N; 10%N; 10%N; 32%N; 98%N; 10%N; 10%N; 99%N].
Proof. reflexivity. Qed.

Example json_loads_example :
  Json.loads (json_text " {'a': [1, -2.5e3, null, true], 'b': 'x', 'a': {}} ")
  = Some (JObj [(py "a", JObj []); (py "b", JStr (py "x"))])
  /\ Json.loads (json_text "{'a': 1,}") = None
  /\ Json.loads (json_text "{'a': 1} trailing") = None
  /\ Json.loads (py "01") = None
  /\ Json.loads [] = None.
Proof. repeat split; vm_compute; reflexivity. Qed.

Lemma str_eqb_eq (a b : pystr) : str_eqb a b = true <-> a = b.
Proof.
  revert b; induction a as [|x a IH]; intros [|y b]; simpl; split; intro H;
    try reflexivity; try discriminate.
  - apply andb_true_iff in H as [Hx Hab].
    apply N.eqb_eq in Hx. apply IH in Hab. now subst.
  - injection H as -> ->. now rewrite N.eqb_refl, (proj2 (IH b)).
Qed.

Lemma str_in_In (x : pystr) (l : list pystr) : str_in x l = true <-> In x l.
Proof.
  unfold str_in. rewrite existsb_exists. split.
  - intros (y & Hy & Heq). apply str_eqb_eq in Heq. now subst.
  - intro H. exists x. split; [assumption | now apply str_eqb_eq].
Qed.

Lemma str_in_not_In (x : pystr) (l : list pystr) : str_in x l = false <-> ~ In x l.
Proof.
  rewrite <- str_in_In. destruct (str_in x l); split; intro H;
    try discriminate; try reflexivity; try (now elim H).
Qed.

Lemma is_nil_true {A} (l : list A) : is_nil l = true <-> l = [].
Proof. destruct l; simpl; split; intro H; try reflexivity; discriminate. Qed.

Lemma rstrip_cons_nonspace (c : char) (t : pystr) :
  isspace c = false -> rstrip (c :: t) = c :: rstrip t.
Proof. intro H. simpl. now rewrite H. Qed.

Lemma rstrip_idempotent (s : pystr) : rstrip (rstrip s) = rstrip s.
Proof.
  induction s as [|c t IH]; simpl; [reflexivity|].
  destruct (isspace c && is_nil (rstrip t)) eqn:E; [reflexivity|].
  simpl. now rewrite IH, E.
Qed.

Lemma lstrip_head (s : pystr) :
  lstrip s = [] \/ exists c t, lstrip s = c :: t /\ isspace c = false.
Proof.
  induction s as [|c t IH]; simpl; [now left|].
  destruct (isspace c) eqn:E; [assumption|].
  right. now exists c, t.
Qed.

Lemma lstrip_nonspace (c : char) (t : pystr) :
  isspace c = false -> lstrip (c :: t) = c :: t.
Proof. intro H. simpl. now rewrite H. Qed.

Lemma strip_idempotent (s : pystr) : strip (strip s) = strip s.
Proof.
  unfold strip.
  destruct (lstrip_head s) as [-> | (c & t & -> & Hc)]; [reflexivity|].
  rewrite (rstrip_cons_nonspace c t Hc), (lstrip_nonspace c _ Hc).
  rewrite <- (rstrip_cons_nonspace c t Hc). apply rstrip_idempotent.
Qed.

Lemma strip_nil : strip [] = [].
Proof. reflexivity. Qed.

(* ================================================================== *)
(** * Properties: the matcher and [re.sub] *)
(* ================================================================== *)

Lemma match_star (p : char -> bool) (s : pystr) :
  match_here [(p, Star)] s = Some (run p s).
Proof.
  induction s as [|c t IH]; simpl; [reflexivity|].
  simpl in IH. destruct (p c); [now rewrite IH | reflexivity].
Qed.

Lemma match_plus (p : char -> bool) (s : pystr) :
  match_here [(p, Plus)] s =
  match s with
  | c :: t => if p c then Some (S (run p t)) else None
  | [] => None
  end.
Proof.
  destruct s as [|c t]; [reflexivity|].
  change (match_here [(p, Plus)] (c :: t))
    with (if p c then option_map S (match_here [(p, Star)] t) else None).
  now rewrite match_star.
Qed.

(** A pattern that starts with a class taken at least once does not match
    where no character of the class stands. *)
Lemma match_first_class (p : char -> bool) (q : quant) (re : regex) (s : pystr) :
  q <> Star ->
  match s with c :: _ => p c = false | [] => True end ->
  match_here ((p, q) :: re) s = None.
Proof.
  intros Hq Hs. destruct q; try congruence; destruct s as [|c t]; simpl;
    try reflexivity; now rewrite Hs.
Qed.

(** Where a pattern matches nowhere, [re.sub] changes nothing. *)
Lemma re_sub_no_class (p : char -> bool) (q : quant) (re : regex)
    (repl : pystr -> pystr) (s : pystr) :
  q <> Star ->
  forallb (fun c => negb (p c)) s = true ->
  re_sub ((p, q) :: re) repl s = s.
Proof.
  intros Hq. unfold re_sub. induction s as [|c t IH]; intro Hs.
  - unfold sub_scan. now rewrite (match_first_class p q re [] Hq I).
  - simpl in Hs. apply andb_true_iff in Hs as [Hc Ht].
    apply negb_true_iff in Hc.
    change (sub_scan ((p, q) :: re) repl 0 (c :: t))
      with (match match_here ((p, q) :: re) (c :: t) with
            | Some (S n) => repl (firstn (S n) (c :: t)) ++ sub_scan ((p, q) :: re) repl n t
            | Some O => repl [] ++ c :: sub_scan ((p, q) :: re) repl 0 t
            | None => c :: sub_scan ((p, q) :: re) repl 0 t
            end).
    rewrite (match_first_class p q re (c :: t) Hq Hc). now rewrite IH.
Qed.

(** [re.sub(r'\s+', ' ', s)] in its direct form. *)
Lemma sub_whitespace_squeeze (s : pystr) :
  sub_scan re_whitespace (fun _ => py " ") 0 s = squeeze false s
  /\ sub_scan re_whitespace (fun _ => py " ") (run isspace s) s = squeeze true s.
Proof.
  induction s as [|c t [IH0 IHrun]].
  - split; reflexivity.
  - assert (H0 : sub_scan re_whitespace (fun _ => py " ") 0 (c :: t)
                 = squeeze false (c :: t)).
    { change (sub_scan re_whitespace (fun _ => py " ") 0 (c :: t))
        with (match match_here re_whitespace (c :: t) with
              | Some (S n) => py " " ++ sub_scan re_whitespace (fun _ => py " ") n t
              | Some O => py " " ++ c :: sub_scan re_whitespace (fun _ => py " ") 0 t
              | None => c :: sub_scan re_whitespace (fun _ => py " ") 0 t
              end).
      unfold re_whitespace at 1. rewrite match_plus. simpl squeeze.
      destruct (isspace c); [now rewrite IHrun | now rewrite IH0]. }
    split; [exact H0|].
    simpl run. simpl squeeze. destruct (isspace c) eqn:E.
    + exact IHrun.
    + rewrite H0. simpl. now rewrite E.
Qed.

Lemma re_sub_whitespace (s : pystr) :
  re_sub re_whitespace (fun _ => py " ") s = squeeze false s.
Proof. apply sub_whitespace_squeeze. Qed.

Section PairPattern.
Variables P Q : char -> bool.
Hypothesis Q_not_P : forall c, Q c = true -> P c = false.

Lemma match_pair (s : pystr) :
  match_here [(P, One); (Q, One)] s =
  match s with
  | a :: b :: _ => if P a && Q b then Some 2 else None
  | _ => None
  end.
Proof.
  destruct s as [|a [|b t]]; simpl; try reflexivity.
  - now destruct (P a).
  - now destruct (P a), (Q b).
Qed.

Lemma sub_scan_pair_step (a : char) (s : pystr) :
  sub_scan [(P, One); (Q, One)] repl_groups_spaced 0 (a :: s) =
  match s with
  | b :: t =>
      if P a && Q b
      then a :: 32%N :: b :: sub_scan [(P, One); (Q, One)] repl_groups_spaced 0 t
      else a :: sub_scan [(P, One); (Q, One)] repl_groups_spaced 0 s
  | [] => [a]
  end.
Proof.
  change (sub_scan [(P, One); (Q, One)] repl_groups_spaced 0 (a :: s))
    with (match match_here [(P, One); (Q, One)] (a :: s) with
          | Some (S n) => repl_groups_spaced (firstn (S n) (a :: s))
                          ++ sub_scan [(P, One); (Q, One)] repl_groups_spaced n s
          | Some O => repl_groups_spaced []
                      ++ a :: sub_scan [(P, One); (Q, One)] repl_groups_spaced 0 s
          | None => a :: sub_scan [(P, One); (Q, One)] repl_groups_spaced 0 s
          end).
  rewrite match_pair. destruct s as [|b t]; [reflexivity|].
  destruct (P a && Q b); reflexivity.
Qed.

Lemma spaced_cons2 (a b : char) (t : pystr) :
  spaced P Q (a :: b :: t) =
  if P a && Q b then a :: 32%N :: spaced P Q (b :: t) else a :: spaced P Q (b :: t).
Proof. reflexivity. Qed.

Lemma spaced_cons_Q (b : char) (t : pystr) :
  Q b = true -> spaced P Q (b :: t) = b :: spaced P Q t.
Proof.
  intro Hb. destruct t as [|c t]; [reflexivity|].
  simpl. now rewrite (Q_not_P b Hb).
Qed.

(** [re.sub] with a pattern of two single classes and the template
    [\1 \2], in its direct form. *)
Lemma re_sub_pair (s : pystr) :
  re_sub [(P, One); (Q, One)] repl_groups_spaced s = spaced P Q s.
Proof.
  unfold re_sub.
  enough (H : sub_scan [(P, One); (Q, One)] repl_groups_spaced 0 s = spaced P Q s
              /\ forall a, sub_scan [(P, One); (Q, One)] repl_groups_spaced 0 (a :: s)
                           = spaced P Q (a :: s)) by apply H.
  induction s as [|b t [IH0 IH1]].
  - split; [reflexivity | intro a; now rewrite sub_scan_pair_step].
  - split; [apply IH1|]. intro a. rewrite sub_scan_pair_step.
    rewrite spaced_cons2. destruct (P a && Q b) eqn:E.
    + apply andb_true_iff in E as [_ Hb].
      now rewrite (spaced_cons_Q b t Hb), IH0.
    + now rewrite IH1.
Qed.

Lemma spaced_fixed (s : pystr) : adjfree P Q s = true -> spaced P Q s = s.
Proof.
  induction s as [|a t IH]; [reflexivity|]. intro H.
  destruct t as [|b t']; [reflexivity|].
  simpl in H. apply andb_true_iff in H as [Hab Ht].
  apply negb_true_iff in Hab. rewrite spaced_cons2, Hab. f_equal. now apply IH.
Qed.

Hypothesis P_not_space : forall c, P c = true -> isspace c = false.
Hypothesis Q_not_space : forall c, Q c = true -> isspace c = false.

Lemma spaced_single_spaced (s : pystr) (b : bool) :
  single_spaced b s = true -> single_spaced b (spaced P Q s) = true.
Proof.
  revert b. induction s as [|a t IH]; intros b H; [reflexivity|].
  destruct t as [|c t'].
  - exact H.
  - rewrite spaced_cons2. destruct (P a && Q c) eqn:E.
    + apply andb_true_iff in E as [Ha Hc].
      pose proof (P_not_space a Ha) as Sa. pose proof (Q_not_space c Hc) as Sc.
      simpl in H. rewrite Sa, Sc in H.
      cbn [single_spaced]. rewrite Sa.
      change (isspace 32%N) with true. cbn [negb andb N.eqb Pos.eqb].
      apply IH. simpl. now rewrite Sc.
    + cbn [single_spaced] in *. destruct (isspace a).
      * apply andb_true_iff in H as [H1 H2]. rewrite H1. now apply IH.
      * now apply IH.
Qed.

Lemma adjfree_cons2 (a b : char) (t : pystr) :
  adjfree P Q (a :: b :: t) = negb (P a && Q b) && adjfree P Q (b :: t).
Proof. reflexivity. Qed.

Lemma spaced_head (c : char) (t : pystr) :
  exists r, spaced P Q (c :: t) = c :: r.
Proof.
  destruct t as [|d t]; [now exists []|].
  rewrite spaced_cons2. destruct (P c && Q d); eexists; reflexivity.
Qed.

Lemma spaced_adjfree_self (s : pystr) :
  P 32%N = false -> adjfree P Q (spaced P Q s) = true.
Proof.
  intro P32. induction s as [|a t IH]; [reflexivity|].
  destruct t as [|c t']; [reflexivity|].
  rewrite spaced_cons2. destruct (P a && Q c) eqn:E.
  - apply andb_true_iff in E as [Ha Hc].
    rewrite (spaced_cons_Q c t' Hc) in *.
    rewrite !adjfree_cons2, P32, IH.
    assert (Q 32%N = false) as ->.
    { destruct (Q 32%N) eqn:Q32; [|reflexivity].
      apply Q_not_space in Q32. discriminate. }
    now rewrite andb_false_r.
  - destruct (spaced_head c t') as (r & Hr). rewrite Hr in *.
    now rewrite adjfree_cons2, E, IH.
Qed.

End PairPattern.

Lemma spaced_adjfree_other (P Q P' Q' : char -> bool) (s : pystr) :
  P 32%N = false -> Q 32%N = false ->
  adjfree P Q s = true -> adjfree P Q (spaced P' Q' s) = true.
Proof.
  intros P32 Q32. induction s as [|a t IH]; [reflexivity|]. intro H.
  destruct t as [|c t']; [reflexivity|].
  rewrite adjfree_cons2 in H. apply andb_true_iff in H as [Hac Ht].
  specialize (IH Ht). destruct (spaced_head P' Q' c t') as (r & Hr).
  rewrite spaced_cons2, Hr in *.
  destruct (P' a && Q' c).
  - now rewrite !adjfree_cons2, P32, Q32, IH, andb_false_r.
  - now rewrite adjfree_cons2, Hac, IH.
Qed.

(** ** The shape of text behind the first substitution *)

Lemma squeeze_single_spaced (s : pystr) (b : bool) :
  single_spaced b (squeeze b s) = true.
Proof.
  revert b. induction s as [|c t IH]; intro b; [reflexivity|].
  simpl. destruct (isspace c) eqn:E.
  - destruct b; [apply IH|]. simpl. apply IH.
  - simpl. rewrite E. apply IH.
Qed.

Lemma squeeze_fixed (s : pystr) (b : bool) :
  single_spaced b s = true -> squeeze b s = s.
Proof.
  revert b. induction s as [|c t IH]; intros b H; [reflexivity|].
  simpl in *. destruct (isspace c).
  - apply andb_true_iff in H as [H1 H2]. apply andb_true_iff in H1 as [Hb Hc].
    apply negb_true_iff in Hb. apply N.eqb_eq in Hc. subst.
    now rewrite (IH true H2).
  - now rewrite (IH false H).
Qed.

Lemma single_spaced_weaken (s : pystr) (b : bool) :
  single_spaced b s = true -> single_spaced false s = true.
Proof.
  destruct s as [|c t]; [reflexivity|]. simpl. destruct (isspace c); [|easy].
  intro H. apply andb_true_iff in H as [H1 H2].
  apply andb_true_iff in H1 as [_ Hc]. now rewrite Hc, H2.
Qed.

Lemma single_spaced_tail (c : char) (t : pystr) (b : bool) :
  single_spaced b (c :: t) = true -> single_spaced false t = true.
Proof.
  simpl. destruct (isspace c); intro H; [|exact H].
  apply andb_true_iff in H as [_ H]. now apply single_spaced_weaken in H.
Qed.

(** Cleaned text holds no white space but the space character. *)
Lemma single_spaced_no_class (p : char -> bool) (s : pystr) (b : bool) :
  (forall c, p c = true -> isspace c = true /\ c <> 32%N) ->
  single_spaced b s = true -> forallb (fun c => negb (p c)) s = true.
Proof.
  intro Hp. revert b. induction s as [|c t IH]; intros b H; [reflexivity|].
  simpl. rewrite (IH _ (single_spaced_tail c t b H)), andb_true_r.
  destruct (p c) eqn:E; [|reflexivity]. exfalso.
  destruct (Hp c E) as [Sc Nc]. simpl in H. rewrite Sc in H.
  apply andb_true_iff in H as [H _]. apply andb_true_iff in H as [_ H].
  apply N.eqb_eq in H. contradiction.
Qed.

Lemma lstrip_single_spaced (s : pystr) (b : bool) :
  single_spaced b s = true -> single_spaced false (lstrip s) = true.
Proof.
  revert b. induction s as [|c t IH]; intros b H; [reflexivity|].
  simpl. destruct (isspace c) eqn:E.
  - apply (IH false). now apply single_spaced_tail in H.
  - now apply single_spaced_weaken in H.
Qed.

Lemma rstrip_head (s : pystr) (d : char) (r : pystr) :
  rstrip s = d :: r -> exists t, s = d :: t.
Proof.
  destruct s as [|c t]; simpl; [discriminate|].
  destruct (isspace c && is_nil (rstrip t)); [discriminate|].
  intro H. injection H as -> _. now exists t.
Qed.

Lemma rstrip_single_spaced (s : pystr) (b : bool) :
  single_spaced b s = true -> single_spaced b (rstrip s) = true.
Proof.
  revert b. induction s as [|c t IH]; intros b H; [reflexivity|].
  simpl. destruct (isspace c && is_nil (rstrip t)); [reflexivity|].
  simpl in *. destruct (isspace c).
  - apply andb_true_iff in H as [H1 H2]. rewrite H1. now apply IH.
  - now apply IH.
Qed.

Lemma lstrip_adjfree (P Q : char -> bool) (s : pystr) :
  adjfree P Q s = true -> adjfree P Q (lstrip s) = true.
Proof.
  induction s as [|c t IH]; intro H; [reflexivity|].
  simpl. destruct (isspace c); [|exact H]. apply IH.
  destruct t as [|d t']; [reflexivity|].
  rewrite adjfree_cons2 in H. now apply andb_true_iff in H as [_ H].
Qed.

Lemma rstrip_adjfree (P Q : char -> bool) (s : pystr) :
  adjfree P Q s = true -> adjfree P Q (rstrip s) = true.
Proof.
  induction s as [|c t IH]; intro H; [reflexivity|].
  simpl. destruct (isspace c && is_nil (rstrip t)); [reflexivity|].
  destruct (rstrip t) as [|d r] eqn:E; [reflexivity|].
  destruct (rstrip_head t d r E) as (t' & ->).
  rewrite adjfree_cons2 in *. apply andb_true_iff in H as [H1 H2].
  now rewrite H1, (IH H2).
Qed.

(** ** The character classes of the patterns *)

Ltac class_hyps :=
  repeat match goal with
    | H : (_ && _)%bool = true |- _ => apply andb_true_iff in H; destruct H
    | H : (_ || _)%bool = true |- _ => apply orb_true_iff in H; destruct H
    | H : (_ <=? _)%N = true |- _ => apply N.leb_le in H
    | H : (_ =? _)%N = true |- _ => apply N.eqb_eq in H
    end.

Ltac class_false :=
  unfold is_lower_az, is_upper_AZ, is_dot, is_newline, is_ff_cr, isspace in *;
  apply not_true_is_false; intro; class_hyps; lia.

Lemma lower_not_space (c : char) : is_lower_az c = true -> isspace c = false.
Proof. intro H. class_false. Qed.

Lemma upper_not_space (c : char) : is_upper_AZ c = true -> isspace c = false.
Proof. intro H. class_false. Qed.

Lemma dot_not_space (c : char) : is_dot c = true -> isspace c = false.
Proof. intro H. class_false. Qed.

Lemma upper_not_lower (c : char) : is_upper_AZ c = true -> is_lower_az c = false.
Proof. intro H. class_false. Qed.

Lemma upper_not_dot (c : char) : is_upper_AZ c = true -> is_dot c = false.
Proof. intro H. class_false. Qed.

Lemma newline_is_space (c : char) :
  is_newline c = true -> isspace c = true /\ c <> 32%N.
Proof.
  unfold is_newline. intro H. apply N.eqb_eq in H. subst. split; [reflexivity | lia].
Qed.

Lemma ff_cr_is_space (c : char) :
  is_ff_cr c = true -> isspace c = true /\ c <> 32%N.
Proof.
  unfold is_ff_cr. intro H. apply orb_true_iff in H as [H | H];
    apply N.eqb_eq in H; subst; split; (reflexivity || lia).
Qed.

(* ================================================================== *)
(** * Properties: [clean_text] *)
(* ================================================================== *)

Lemma after_whitespace_shape (text : pystr) :
  single_spaced false (after_whitespace text) = true.
Proof.
  unfold after_whitespace. rewrite re_sub_whitespace. apply squeeze_single_spaced.
Qed.

(** The second substitution finds no form feed and no carriage return. *)
Lemma page_breaks_identity (text : pystr) :
  re_sub re_page_breaks (fun _ => [10%N]) (after_whitespace text)
  = after_whitespace text.
Proof.
  apply re_sub_no_class; [discriminate|].
  apply (single_spaced_no_class is_ff_cr _ false ff_cr_is_space).
  apply after_whitespace_shape.
Qed.

Lemma before_newline_collapse_spaced (text : pystr) :
  before_newline_collapse text
  = spaced is_dot is_upper_AZ
      (spaced is_lower_az is_upper_AZ (squeeze false text)).
Proof.
  unfold before_newline_collapse. rewrite page_breaks_identity.
  unfold re_lower_upper, re_dot_upper.
  rewrite (re_sub_pair _ _ upper_not_lower), (re_sub_pair _ _ upper_not_dot).
  unfold after_whitespace. now rewrite re_sub_whitespace.
Qed.

(** What holds of the text that reaches the last substitution. *)
Lemma before_newline_collapse_shape (text : pystr) :
  single_spaced false (before_newline_collapse text) = true
  /\ adjfree is_lower_az is_upper_AZ (before_newline_collapse text) = true
  /\ adjfree is_dot is_upper_AZ (before_newline_collapse text) = true.
Proof.
  rewrite before_newline_collapse_spaced. repeat split.
  - apply (spaced_single_spaced _ _ dot_not_space upper_not_space).
    apply (spaced_single_spaced _ _ lower_not_space upper_not_space).
    apply squeeze_single_spaced.
  - apply spaced_adjfree_other; try reflexivity.
    now apply (spaced_adjfree_self _ _ upper_not_lower upper_not_space).
  - now apply (spaced_adjfree_self _ _ upper_not_dot upper_not_space).
Qed.

Lemma newline_collapse_identity (text : pystr) :
  re_sub re_newlines (fun _ => [10%N; 10%N]) (before_newline_collapse text)
  = before_newline_collapse text.
Proof.
  apply re_sub_no_class; [discriminate|].
  apply (single_spaced_no_class is_newline _ false newline_is_space).
  apply before_newline_collapse_shape.
Qed.

Lemma clean_text_steps (text : pystr) :
  text <> [] -> clean_text text = strip (before_newline_collapse text).
Proof.
  intro H. unfold clean_text. destruct text as [|c t]; [contradiction|].
  cbn [is_nil].
  change (re_sub re_dot_upper repl_groups_spaced
            (re_sub re_lower_upper repl_groups_spaced
               (re_sub re_page_breaks (fun _ => [10%N])
                  (re_sub re_whitespace (fun _ => py " ") (c :: t)))))
    with (before_newline_collapse (c :: t)).
  now rewrite newline_collapse_identity.
Qed.

(** The cleaned text: single spaces only, no space at either end, no
    lower case letter and no full stop directly before an upper case one. *)
Lemma clean_text_shape (text : pystr) :
  single_spaced false (clean_text text) = true
  /\ adjfree is_lower_az is_upper_AZ (clean_text text) = true
  /\ adjfree is_dot is_upper_AZ (clean_text text) = true
  /\ strip (clean_text text) = clean_text text.
Proof.
  destruct text as [|c t]; [repeat split|].
  rewrite clean_text_steps by discriminate.
  destruct (before_newline_collapse_shape (c :: t)) as (H1 & H2 & H3).
  unfold strip at 1 2 3. repeat split.
  - apply rstrip_single_spaced. now apply lstrip_single_spaced in H1.
  - now apply rstrip_adjfree, lstrip_adjfree.
  - now apply rstrip_adjfree, lstrip_adjfree.
  - apply strip_idempotent.
Qed.

(** Text of that shape is left as it is by every step. *)
Lemma clean_text_fixed (y : pystr) :
  single_spaced false y = true ->
  adjfree is_lower_az is_upper_AZ y = true ->
  adjfree is_dot is_upper_AZ y = true ->
  strip y = y ->
  clean_text y = y.
Proof.
  intros H1 H2 H3 H4. destruct y as [|c t]; [reflexivity|].
  rewrite clean_text_steps by discriminate.
  rewrite before_newline_collapse_spaced.
  rewrite (squeeze_fixed _ _ H1).
  rewrite (spaced_fixed _ _ _ H2), (spaced_fixed _ _ _ H3). exact H4.
Qed.

Example clean_text_example :
  clean_text (py "  helloWorld.Foo   bar.X aB ") = py "hello World. Foo bar. X a B"
  /\ clean_text [32%N; 97%N; 10%N; 10%N; 10%N; 12%N; 98%N; 13%N] = py "a b"
  /\ clean_text [] = [].
Proof. repeat split; reflexivity. Qed.

(** C3.  The text normaliser is idempotent: cleaning a cleaned text changes
    nothing, for every input string. *)
Theorem clean_text_idempotent (x : pystr) :
  clean_text (clean_text x) = clean_text x.
Proof.
  destruct (clean_text_shape x) as (H1 & H2 & H3 & H4).
  now apply clean_text_fixed.
Qed.

(** C4.  The first step of the normaliser, the collapse of white space,
    leaves no newline, form feed or carriage return; so the last step, the
    collapse of three or more newlines, is the identity on the text it
    receives, and the output of [clean_text] holds no newline. *)
Theorem newline_collapse_never_fires (text : pystr) :
  forallb (fun c => negb (is_newline c || is_ff_cr c)) (after_whitespace text) = true
  /\ re_sub re_newlines (fun _ => [10%N; 10%N]) (before_newline_collapse text)
     = before_newline_collapse text
  /\ forallb (fun c => negb (is_newline c)) (clean_text text) = true
  /\ ~ In 10%N (clean_text text).
Proof.
  assert (Hout : forallb (fun c => negb (is_newline c)) (clean_text text) = true).
  { apply (single_spaced_no_class is_newline _ false newline_is_space).
    apply clean_text_shape. }
  repeat split.
  - apply (single_spaced_no_class (fun c => is_newline c || is_ff_cr c) _ false).
    + intros c H. apply orb_true_iff in H as [H | H];
        [now apply newline_is_space | now apply ff_cr_is_space].
    + apply after_whitespace_shape.
  - apply newline_collapse_identity.
  - exact Hout.
  - intro Hin. rewrite forallb_forall in Hout. specialize (Hout _ Hin).
    discriminate.
Qed.

(* ================================================================== *)
(** * Properties: contract type detection *)
(* ================================================================== *)

Section ContractType.
Context {RT : Runtime}.

Lemma commercial_valid : In (py "Commercial") valid_types.
Proof. unfold valid_types. simpl. tauto. Qed.

(** C9.  Contract type detection always returns one of the nine types of
    [valid_types]; a response whose stripped content is none of them gives
    [Commercial], and so does a failing call of the model. *)
Theorem detect_contract_type_llm_closed (text : pystr) (w : World) :
  length valid_types = 9
  /\ In (fst (detect_contract_type_llm text w)) valid_types
  /\ (forall content w',
        model_invoke (CONTRACT_TYPE_DETECTION_PROMPT (truncate 4000 text)) w
          = (Some content, w') ->
        ~ In (strip content) valid_types ->
        detect_contract_type_llm text w = (py "Commercial", w'))
  /\ (forall w',
        model_invoke (CONTRACT_TYPE_DETECTION_PROMPT (truncate 4000 text)) w
          = (None, w') ->
        detect_contract_type_llm text w = (py "Commercial", w')).
Proof.
  unfold detect_contract_type_llm, bind, ret.
  destruct (model_invoke (CONTRACT_TYPE_DETECTION_PROMPT (truncate 4000 text)) w)
    as [[content|] w1] eqn:E.
  - split; [reflexivity|]. split; [|split].
    + destruct (str_in (strip content) valid_types) eqn:Hin; cbn [fst].
      * now apply str_in_In.
      * apply commercial_valid.
    + intros c w' H Hout. injection H as <- <-.
      apply str_in_not_In in Hout. now rewrite Hout.
    + intros w' H. discriminate.
  - split; [reflexivity|]. split; [|split].
    + apply commercial_valid.
    + intros c w' H. discriminate.
    + intros w' H. now injection H as <-.
Qed.

End ContractType.

(** A response outside the list, and a call that fails. *)
Lemma detect_contract_type_llm_closed_witness :
  @detect_contract_type_llm reference_runtime (py "LEASE OF PREMISES")
     [Some (py " Rental agreement ")] = (py "Commercial", [])
  /\ @detect_contract_type_llm reference_runtime (py "LEASE OF PREMISES")
       [None; Some (py "Lease")] = (py "Commercial", [Some (py "Lease")]).
Proof.
  split.
  - refine (proj1 (proj2 (proj2
      (@detect_contract_type_llm_closed reference_runtime (py "LEASE OF PREMISES")
         [Some (py " Rental agreement ")]))) (py " Rental agreement ") [] eq_refl _).
    apply str_in_not_In. vm_compute. reflexivity.
  - exact (proj2 (proj2 (proj2
      (@detect_contract_type_llm_closed reference_runtime (py "LEASE OF PREMISES")
         [None; Some (py "Lease")]))) [Some (py "Lease")] eq_refl).
Defined.

(* ================================================================== *)
(** * Properties: the whole-document risk review *)
(* ================================================================== *)

Section RiskReview.
Context {RT : Runtime}.

Lemma llm_review_of_response (text contract_type country : pystr)
    (hints : list pystr) (w w' : World) (content : pystr) :
  model_invoke (RISK_ANALYSIS_PROMPT (truncate 8000 text) contract_type country
                  (join [10%N] (map (fun hint => py "- " ++ hint) hints))) w
    = (Some content, w') ->
  llm_review text contract_type country hints w = (risks_of_response content, w').
Proof.
  intro H. unfold llm_review, bind, ret. now rewrite H.
Qed.

Lemma risks_of_response_empty (content : pystr) :
  risks_of_response content = [] <->
  strip content = [] \/ says_no_risks (strip content) = true.
Proof.
  unfold risks_of_response, says_no_risks. split.
  - intro H.
    destruct (is_nil (strip content)) eqn:E1; [left; now apply is_nil_true|].
    destruct (contains (py "no significant risks") (str_lower (strip content)));
      [now right|].
    exfalso. cbn [orb] in H.
    destruct (parsed_risks (strip content)) as [|r rs]; cbn [is_nil negb andb] in H;
      discriminate.
  - intros [H | H].
    + now rewrite H.
    + rewrite H. now rewrite orb_true_r.
Qed.

Lemma no_risks_statement_lowered :
  str_lower (py "No significant risks found.") = py "no significant risks found.".
Proof. now rewrite str_lower_ascii. Qed.

(** C6.  For a response of the model, the review is empty exactly when the
    stripped response is empty or holds "no significant risks" in any
    letter case, as the response "No significant risks found." does; any
    other response gives a non-empty list, which is the single record
    "General contract review" at level "medium" when no record can be
    read from the lines. *)
Theorem llm_review_empty_iff (text contract_type country : pystr)
    (hints : list pystr) (w w' : World) (content : pystr) :
  model_invoke (RISK_ANALYSIS_PROMPT (truncate 8000 text) contract_type country
                  (join [10%N] (map (fun hint => py "- " ++ hint) hints))) w
    = (Some content, w') ->
  (fst (llm_review text contract_type country hints w) = [] <->
     strip content = [] \/ says_no_risks (strip content) = true)
  /\ (content = py "No significant risks found." ->
      fst (llm_review text contract_type country hints w) = [])
  /\ (strip content <> [] -> says_no_risks (strip content) = false ->
      fst (llm_review text contract_type country hints w) <> []
      /\ (parsed_risks (strip content) = [] ->
          fst (llm_review text contract_type country hints w) = [general_risk]))
  /\ ri_text general_risk = py "General contract review"
  /\ ri_risk_level general_risk = py "medium".
Proof.
  intro H. rewrite (llm_review_of_response _ _ _ _ _ _ _ H). cbn [fst].
  split; [apply risks_of_response_empty|]. split; [|split; [|split; reflexivity]].
  - intros ->. apply risks_of_response_empty. right.
    change (strip (py "No significant risks found."))
      with (py "No significant risks found.").
    unfold says_no_risks. now rewrite no_risks_statement_lowered.
  - intros Hne Hsay. split.
    + intro Hempty. apply risks_of_response_empty in Hempty as [He | He];
        [contradiction | congruence].
    + intro Hparsed. unfold risks_of_response. fold (says_no_risks (strip content)).
      rewrite Hsay, Hparsed.
      destruct (strip content); [contradiction | reflexivity].
Qed.

End RiskReview.

(** A response in prose, from which no record can be read. *)
Lemma llm_review_empty_iff_witness :
  fst (@llm_review reference_runtime (py "TERMS OF SERVICE") (py "Commercial")
         (py "Unknown") [] [Some (py "The indemnity clause is one-sided.")])
  = [general_risk].
Proof.
  refine (proj2 (proj1 (proj2 (proj2
    (@llm_review_empty_iff reference_runtime (py "TERMS OF SERVICE")
       (py "Commercial") (py "Unknown") []
       [Some (py "The indemnity clause is one-sided.")] []
       (py "The indemnity clause is one-sided.") eq_refl))) _ _) _).
  - vm_compute. discriminate.
  - vm_compute. reflexivity.
  - vm_compute. reflexivity.
Defined.

(* ================================================================== *)
(** * Properties: the per-clause risk assessment *)
(* ================================================================== *)

Lemma dict_set_keys {V} (k0 : pystr) (v : V) (d : dict V) (k : pystr) :
  In k (dict_keys (dict_set k0 v d)) -> k = k0 \/ In k (dict_keys d).
Proof.
  induction d as [|[k' v'] d IH]; simpl.
  - intros [H | []]. now left.
  - destruct (str_eqb k0 k') eqn:E; simpl.
    + intros [H | H]; [right; now left | right; now right].
    + intros [H | H]; [right; now left|].
      destruct (IH H) as [H' | H']; [now left | right; now right].
Qed.

Section ClauseRisk.
Context {RT : Runtime}.

Lemma assess_clause_risk_llm_raises (clause_text ct gl : pystr) (w w' : World) :
  model_invoke (CLAUSE_RISK_ASSESSMENT_PROMPT clause_text ct gl) w = (None, w') ->
  assess_clause_risk_llm clause_text ct gl w = (None, w').
Proof. intro H. unfold assess_clause_risk_llm, bind, ret. now rewrite H. Qed.

(** The keys of the assessments come from the clauses that were long enough
    to be assessed. *)
Lemma assess_clauses_keys (ct gl : pystr) (items : dict ClauseInfo)
    (acc : dict ClauseRiskAssessment) (w : World) (k : pystr) :
  In k (dict_keys (fst (assess_clauses ct gl items acc w))) ->
  In k (dict_keys acc)
  \/ exists ci, In (k, ci) items /\ 100 < length (ci_text ci).
Proof.
  revert acc w. induction items as [|[k0 ci0] rest IH]; intros acc w H.
  - now left.
  - cbn [assess_clauses] in H.
    assert (Hlater : forall acc' w',
               In k (dict_keys (fst (assess_clauses ct gl rest acc' w'))) ->
               (In k (dict_keys acc') -> In k (dict_keys acc)
                  \/ exists ci, In (k, ci) ((k0, ci0) :: rest)
                                /\ 100 < length (ci_text ci)) ->
               In k (dict_keys acc)
               \/ exists ci, In (k, ci) ((k0, ci0) :: rest) /\ 100 < length (ci_text ci)).
    { intros acc' w' Hin Hacc. destruct (IH acc' w' Hin) as [Ha | (ci & Hci & Hlen)].
      - now apply Hacc.
      - right. exists ci. split; [now right | assumption]. }
    destruct (100 <? length (ci_text ci0)) eqn:Elen.
    + apply Nat.ltb_lt in Elen. unfold bind in H.
      destruct (assess_clause_risk_llm (ci_text ci0) ct gl w) as [[a|] w1].
      * apply (Hlater _ _ H). intro Hk.
        apply dict_set_keys in Hk as [Heq | Hk]; [|now left].
        right. exists ci0. split; [left; now rewrite Heq | assumption].
      * apply (Hlater _ _ H). intro Hk. now left.
    + apply (Hlater _ _ H). intro Hk. now left.
Qed.

(** C10.  The keys of [clause_risks] are keys of extracted clauses whose
    text is longer than 100 characters.  When the call of the model raises
    inside the assessment of a clause, [assess_clause_risk_llm] returns
    [None], nothing is recorded for the clause, and the loop goes on over
    the other clauses as it would without it. *)
Theorem failed_assessment_is_omitted (text : pystr) (w0 : World) :
  (forall k,
      In k (dict_keys (clause_risks (fst (analyze_contract_comprehensive text w0)))) ->
      exists ci,
        In (k, ci) (key_clauses (fst (analyze_contract_comprehensive text w0)))
        /\ 100 < length (ci_text ci))
  /\ (forall ct gl k ci rest acc w w',
        model_invoke (CLAUSE_RISK_ASSESSMENT_PROMPT (ci_text ci) ct gl) w = (None, w') ->
        100 < length (ci_text ci) ->
        assess_clause_risk_llm (ci_text ci) ct gl w = (None, w')
        /\ assess_clauses ct gl ((k, ci) :: rest) acc w
           = assess_clauses ct gl rest acc w'
        /\ (~ In k (dict_keys acc) -> ~ In k (dict_keys rest) ->
            ~ In k (dict_keys (fst (assess_clauses ct gl ((k, ci) :: rest) acc w))))).
Proof.
  split.
  - intros k. unfold analyze_contract_comprehensive, bind, ret.
    destruct (detect_contract_type_llm text w0) as [ct w1].
    destruct (detect_governing_law_llm text w1) as [gl w2].
    destruct (extract_key_clauses_llm text w2) as [clauses w3].
    destruct (assess_clauses ct gl clauses [] w3) as [risks w4] eqn:E.
    cbn [fst clause_risks key_clauses]. intro Hk.
    assert (Hk' : In k (dict_keys (fst (assess_clauses ct gl clauses [] w3))))
      by now rewrite E.
    apply assess_clauses_keys in Hk' as [[] | H]. exact H.
  - intros ct gl k ci rest acc w w' Hraise Hlen.
    pose proof (assess_clause_risk_llm_raises _ _ _ _ _ Hraise) as Hnone.
    assert (Hloop : assess_clauses ct gl ((k, ci) :: rest) acc w
                    = assess_clauses ct gl rest acc w').
    { cbn [assess_clauses]. apply Nat.ltb_lt in Hlen. rewrite Hlen.
      unfold bind. now rewrite Hnone. }
    split; [exact Hnone|]. split; [exact Hloop|].
    intros Hacc Hrest Hin. rewrite Hloop in Hin.
    apply assess_clauses_keys in Hin as [Hin | (ci' & Hin & _)].
    + contradiction.
    + apply Hrest. unfold dict_keys. apply in_map_iff. now exists (k, ci').
Qed.

End ClauseRisk.

(** Two clauses, the assessment of the first of which raises. *)
Lemma failed_assessment_is_omitted_witness :
  (exists ci,
      In (py "liability", ci)
         (key_clauses (fst (@analyze_contract_comprehensive reference_runtime
                              (py "MUTUAL NON-DISCLOSURE AGREEMENT") two_clause_script)))
      /\ 100 < length (ci_text ci))
  /\ @assess_clauses reference_runtime (py "NDA") (py "Delaware")
       [(py "termination", termination_clause); (py "liability", liability_clause)] []
       (skipn 3 two_clause_script)
     = @assess_clauses reference_runtime (py "NDA") (py "Delaware")
         [(py "liability", liability_clause)] [] (skipn 4 two_clause_script).
Proof.
  destruct (@failed_assessment_is_omitted reference_runtime
              (py "MUTUAL NON-DISCLOSURE AGREEMENT") two_clause_script) as [Hkeys Hraise].
  split.
  - apply (Hkeys (py "liability")). vm_compute. now left.
  - refine (proj1 (proj2 (Hraise (py "NDA") (py "Delaware") (py "termination")
                            termination_clause [(py "liability", liability_clause)] []
                            (skipn 3 two_clause_script) (skipn 4 two_clause_script)
                            eq_refl _))).
    apply Nat.ltb_lt. vm_compute. reflexivity.
Defined.

Example two_clause_run :
  let r := fst (@analyze_contract_comprehensive reference_runtime
                  (py "MUTUAL NON-DISCLOSURE AGREEMENT") two_clause_script) in
  dict_keys (key_clauses r) = [py "termination"; py "liability"]
  /\ clause_risks r
     = [(py "liability",
         {| cra_risk_level := py "high";
            cra_issues := [py "No cap for direct damages"];
            cra_recommendations := [];
            cra_explanation := py "One-sided" |})].
Proof. vm_compute. split; reflexivity. Qed.

(* ================================================================== *)
(** * Properties: searching for one character *)
(* ================================================================== *)

Lemma startswith_char (x : char) (s : pystr) :
  startswith [x] s = match s with y :: _ => N.eqb x y | [] => false end.
Proof. destruct s as [|y t]; simpl; [reflexivity | apply andb_true_r]. Qed.

Lemma contains_char (x : char) (s : pystr) : contains [x] s = true <-> In x s.
Proof.
  induction s as [|y t IH].
  - simpl. split; [discriminate | contradiction].
  - cbn [contains]. rewrite startswith_char, orb_true_iff, IH, N.eqb_eq. simpl.
    split; intros [H | H]; auto.
Qed.

Lemma find_char (x : char) (s : pystr) :
  (0 <= find [x] s)%Z ->
  exists pre post,
    s = pre ++ x :: post /\ Z.of_nat (length pre) = find [x] s /\ ~ In x pre.
Proof.
  induction s as [|y t IH]; cbn [find]; rewrite startswith_char.
  - intro H. lia.
  - destruct (N.eqb x y) eqn:E.
    + intros _. apply N.eqb_eq in E. subst y. exists [], t. simpl. tauto.
    + apply N.eqb_neq in E. destruct (find [x] t <? 0)%Z eqn:F; [intro H; lia|].
      intros _. apply Z.ltb_ge in F.
      destruct (IH F) as (pre & post & -> & Hlen & Hpre).
      exists (y :: pre), post. repeat split.
      * cbn [length]. lia.
      * intros [H | H]; [now apply E | contradiction].
Qed.

Lemma find_char_present (x : char) (s : pystr) : In x s -> (0 <= find [x] s)%Z.
Proof.
  induction s as [|y t IH]; [contradiction|].
  cbn [find]. rewrite startswith_char. destruct (N.eqb x y) eqn:E; [lia|].
  intros [H | H].
  - subst. now rewrite N.eqb_refl in E.
  - specialize (IH H). destruct (find [x] t <? 0)%Z eqn:F; [|lia].
    apply Z.ltb_lt in F. lia.
Qed.

Lemma rfind_char_absent (x : char) (s : pystr) : (rfind [x] s < 0)%Z -> ~ In x s.
Proof.
  induction s as [|y t IH]; [auto|].
  cbn [rfind]. rewrite startswith_char.
  destruct (0 <=? rfind [x] t)%Z eqn:F.
  - apply Z.leb_le in F. lia.
  - apply Z.leb_gt in F. destruct (N.eqb x y) eqn:E; [lia|].
    apply N.eqb_neq in E. intros _ [H | H]; [now apply E | now apply IH].
Qed.

Lemma rfind_char (x : char) (s : pystr) :
  (0 <= rfind [x] s)%Z ->
  exists pre post,
    s = pre ++ x :: post /\ Z.of_nat (length pre) = rfind [x] s /\ ~ In x post.
Proof.
  induction s as [|y t IH]; cbn [rfind]; rewrite startswith_char.
  - intro H. lia.
  - destruct (0 <=? rfind [x] t)%Z eqn:F.
    + intros _. apply Z.leb_le in F.
      destruct (IH F) as (pre & post & Heq & Hlen & Hpost).
      exists (y :: pre), post. rewrite Heq at 1. repeat split; [|assumption].
      cbn [length]. lia.
    + apply Z.leb_gt in F. destruct (N.eqb x y) eqn:E; [|intro H; lia].
      intros _. apply N.eqb_eq in E. subst y. exists [], t. repeat split.
      now apply rfind_char_absent.
Qed.

Lemma rfind_char_present (x : char) (s : pystr) : In x s -> (0 <= rfind [x] s)%Z.
Proof.
  intro H. destruct (Z.lt_ge_cases (rfind [x] s) 0) as [Hneg | Hpos]; [|assumption].
  now apply rfind_char_absent in Hneg.
Qed.

Lemma split_twice {A} (l1 l2 r1 r2 : list A) (a b : A) :
  l1 ++ a :: r1 = l2 ++ b :: r2 -> length l1 < length l2 ->
  exists mid, l2 = l1 ++ a :: mid /\ r1 = mid ++ b :: r2.
Proof.
  revert l2. induction l1 as [|h l1 IH]; intros [|h' l2] Heq Hlen;
    simpl in Hlen; try lia.
  - injection Heq as -> ->. now exists l2.
  - injection Heq as -> Heq. destruct (IH l2 Heq) as (mid & -> & ->); [lia|].
    now exists mid.
Qed.

(** The text between the first opening and the last closing brace, both
    included; it is empty when the last closing brace stands before the
    first opening one. *)
Lemma brace_span_spec (s : pystr) :
  In 123%N s -> In 125%N s ->
  (exists pre mid post,
      s = pre ++ 123%N :: mid ++ 125%N :: post
      /\ ~ In 123%N pre /\ ~ In 125%N post
      /\ brace_span s = 123%N :: mid ++ [125%N])
  \/ ((rfind (py "}") s < find (py "{") s)%Z /\ brace_span s = []).
Proof.
  intros Hopen Hclose.
  pose proof (find_char_present _ _ Hopen) as Hi.
  pose proof (rfind_char_present _ _ Hclose) as Hj.
  destruct (find_char 123%N s Hi) as (pre & post1 & E1 & L1 & Npre).
  destruct (rfind_char 125%N s Hj) as (pre2 & post & E2 & L2 & Npost).
  unfold brace_span, slice.
  change (py "{") with [123%N]. change (py "}") with [125%N].
  unfold pystr, char in *.
  remember (find [123%N] s) as i eqn:Ei. remember (rfind [125%N] s) as j eqn:Ej.
  assert (Hn1 : Z.of_nat (length s) = (i + 1 + Z.of_nat (length post1))%Z).
  { rewrite E1. rewrite length_app. cbn [length]. lia. }
  assert (Hn2 : Z.of_nat (length s) = (j + 1 + Z.of_nat (length post))%Z).
  { rewrite E2. rewrite length_app. cbn [length]. lia. }
  destruct (i <? 0)%Z eqn:F1; [apply Z.ltb_lt in F1; lia|].
  destruct (j + 1 <? 0)%Z eqn:F2; [apply Z.ltb_lt in F2; lia|].
  rewrite !Z.min_l by lia. clear Hn1 Hn2.
  destruct (Z.lt_ge_cases i j) as [Hlt | Hge].
  - left. rewrite E1 in E2.
    destruct (split_twice pre pre2 post1 post 123%N 125%N E2) as (mid & Hpre2 & Hpost1);
      [lia|].
    exists pre, mid, post. subst post1. repeat split; try assumption.
    rewrite E1.
    replace (Z.to_nat i) with (length pre + 0) by lia.
    rewrite skipn_app, skipn_all2 by lia.
    replace (length pre + 0 - length pre) with 0 by lia. cbn [skipn app].
    replace (Z.to_nat (j + 1 - i)) with (length (123%N :: mid ++ [125%N]) + 0).
    + change (123%N :: mid ++ 125%N :: post)
        with ((123%N :: mid) ++ [125%N] ++ post).
      rewrite app_assoc. change ((123%N :: mid) ++ [125%N]) with (123%N :: mid ++ [125%N]).
      rewrite firstn_app_2. cbn [firstn]. now rewrite app_nil_r.
    + subst pre2. rewrite length_app in L2. cbn [length] in *.
      rewrite length_app. cbn [length]. lia.
  - right. assert (Hne : i <> j).
    { intro Heq. rewrite E1 in E2. rewrite <- L1, <- L2 in Heq.
      apply Nat2Z.inj in Heq.
      assert (H : nth (length pre) (pre ++ 123%N :: post1) 0%N
                  = nth (length pre2) (pre2 ++ 125%N :: post) 0%N)
        by (now rewrite Heq, E2).
      rewrite !nth_middle in H. discriminate. }
    split; [lia|].
    replace (Z.to_nat (j + 1 - i)) with 0 by lia.
    reflexivity.
Qed.

(* ================================================================== *)
(** * Properties: risk levels *)
(* ================================================================== *)

(** A response that cannot be decoded gives the default assessment, at
    level "medium". *)
Lemma undecodable_assessment_is_medium {RT : Runtime} (content : pystr) :
  json_loads (assessment_json_str content) = None ->
  assessment_of_response content = Some default_assessment
  /\ cra_risk_level default_assessment = py "medium".
Proof.
  intro H. unfold assessment_of_response. rewrite H. split; reflexivity.
Qed.

(** The level of an assessment is "medium" or what the validation made of
    the value under ["risk_level"] in the decoded object. *)
Lemma assessment_level_source {RT : Runtime} (content : pystr)
    (a : ClauseRiskAssessment) :
  assessment_of_response content = Some a ->
  cra_risk_level a = py "medium"
  \/ exists data v,
       json_loads (assessment_json_str content) = Some (JObj data)
       /\ dict_get (py "risk_level") data = Some v
       /\ str_field v = Some (cra_risk_level a).
Proof.
  unfold assessment_of_response, assessment_of_decoded.
  destruct (json_loads (assessment_json_str content)) as [[| | | | |data]|] eqn:Ed;
    try discriminate; try (intro H; injection H as <-; now left).
  destruct (make_ClauseRiskAssessment _ _ _ _) as [a'|] eqn:Em;
    intro H; injection H as <-; [|now left].
  unfold make_ClauseRiskAssessment in Em.
  destruct (str_field (dict_get_default (py "risk_level") (JStr (py "medium")) data))
    as [r|] eqn:Er; [|discriminate].
  destruct (list_str_field (dict_get_default (py "issues") (JArr []) data));
    [|discriminate].
  destruct (list_str_field (dict_get_default (py "recommendations") (JArr []) data));
    [|discriminate].
  destruct (str_field (dict_get_default (py "explanation") (JStr []) data));
    [|discriminate].
  injection Em as <-. cbn [cra_risk_level].
  unfold dict_get_default in Er.
  destruct (dict_get (py "risk_level") data) as [v|] eqn:Ev.
  - right. exists data, v. auto.
  - left. cbn [str_field] in Er. now injection Er as <-.
Qed.

(** C1, on a response that names a fourth level.  The record of the review
    and the assessment of the clause both carry the level "critical", which
    is none of "high", "medium" and "low"; the count of the risks by level
    in [process_contract] then fails on the missing key. *)
Theorem risk_level_outside_the_three :
  (exists item,
      fst (@llm_review reference_runtime (py "SERVICES AGREEMENT") (py "MSA")
             (py "Unknown") []
             [Some (py "Risk 1: unlimited liability - Issue: No cap on damages - Suggestion: Add a cap - Level: critical")])
      = [item]
      /\ ri_risk_level item = py "critical"
      /\ ~ In (ri_risk_level item) risk_levels)
  /\ (exists assessment,
        fst (@assess_clause_risk_llm reference_runtime
               (py "The Supplier shall be liable without limit.") (py "MSA") (py "Unknown")
               [Some (json_text "{'risk_level': 'critical', 'issues': [], 'recommendations': [], 'explanation': 'No cap'}")])
        = Some assessment
        /\ cra_risk_level assessment = py "critical"
        /\ ~ In (cra_risk_level assessment) risk_levels)
  /\ fst (@process_contract reference_runtime (py "SERVICES AGREEMENT")
            [Some (py "MSA"); Some (py "Unknown"); Some (json_text "{}");
             Some (py "Risk 1: unlimited liability - Issue: No cap on damages - Suggestion: Add a cap - Level: critical")])
     = UncaughtKeyError.
Proof.
  split; [|split].
  - eexists. split; [vm_compute; reflexivity|]. split; [reflexivity|].
    apply str_in_not_In. reflexivity.
  - eexists. split; [vm_compute; reflexivity|]. split; [reflexivity|].
    apply str_in_not_In. reflexivity.
  - vm_compute. reflexivity.
Qed.

(* ================================================================== *)
(** * Properties: JSON embedded in prose *)
(* ================================================================== *)

(** C2 as stated, on the clause extraction: a response in prose around a
    JSON object.  Decoding the response fails, both braces are there, the
    text from the first opening to the last closing brace decodes to one
    clause, and yet the stage returns the empty mapping: it does not decode
    the span. *)
Lemma extraction_retry_counterexample :
  @json_loads reference_runtime clauses_in_prose = None
  /\ has_braces clauses_in_prose = true
  /\ @clauses_of_decoded reference_runtime
       (@json_loads reference_runtime (brace_span clauses_in_prose))
     = [(py "termination", {| ci_text := py "T"; ci_summary := py "S" |})]
  /\ @clauses_of_response reference_runtime clauses_in_prose = []
  /\ @clauses_of_response reference_runtime clauses_in_prose
     <> @clauses_of_decoded reference_runtime
          (@json_loads reference_runtime (brace_span clauses_in_prose)).
Proof.
  repeat split; try (vm_compute; reflexivity).
  vm_compute. discriminate.
Qed.

Section EmbeddedJson.
Context {RT : Runtime}.

Lemma has_braces_In (s : pystr) :
  has_braces s = true -> In 123%N s /\ In 125%N s.
Proof.
  unfold has_braces. intro H. apply andb_true_iff in H as [H1 H2].
  split; now apply contains_char.
Qed.

(** C2, amended.  In the risk assessment, a response that holds both braces
    is decoded on the text from its first opening to its last closing brace,
    both included, and on nothing else; a failure of that decoding gives
    the default assessment.  From "Here is the result: {...} Thanks" the
    braced text alone reaches the decoder.  The clause extraction decodes
    the whole response and returns the empty mapping when that fails. *)
Theorem brace_span_in_assessment_only (content : pystr) :
  (has_braces (strip content) = true ->
     assessment_of_response content
     = assessment_of_decoded (json_loads (brace_span (strip content)))
     /\ ((exists pre mid post,
            strip content = pre ++ 123%N :: mid ++ 125%N :: post
            /\ ~ In 123%N pre /\ ~ In 125%N post
            /\ brace_span (strip content) = 123%N :: mid ++ [125%N])
         \/ brace_span (strip content) = [])
     /\ (json_loads (brace_span (strip content)) = None ->
         assessment_of_response content = Some default_assessment))
  /\ assessment_json_str
       (json_text "Here is the result: {'risk_level': 'low'} Thanks")
     = json_text "{'risk_level': 'low'}"
  /\ clauses_of_response content = clauses_of_decoded (json_loads content)
  /\ (json_loads content = None -> clauses_of_response content = []).
Proof.
  split; [|split; [|split]].
  - intro H.
    assert (Hstr : assessment_json_str content = brace_span (strip content)).
    { unfold assessment_json_str. fold (has_braces (strip content)). now rewrite H. }
    unfold assessment_of_response. rewrite Hstr. split; [reflexivity|]. split.
    + destruct (has_braces_In _ H) as [Ho Hc].
      destruct (brace_span_spec _ Ho Hc) as [Hspan | [_ Hempty]];
        [now left | now right].
    + intros ->. reflexivity.
  - vm_compute. reflexivity.
  - reflexivity.
  - intro H. unfold clauses_of_response. now rewrite H.
Qed.

End EmbeddedJson.

(** The response of the example, decoded on its braced text. *)
Lemma brace_span_in_assessment_only_witness :
  @assessment_of_response reference_runtime
     (json_text "Here is the result: {'risk_level': 'low'} Thanks")
  = Some {| cra_risk_level := py "low"; cra_issues := [];
            cra_recommendations := []; cra_explanation := [] |}
  /\ @clauses_of_response reference_runtime
       (json_text "Here is the result: {'risk_level': 'low'} Thanks") = [].
Proof.
  pose proof (@brace_span_in_assessment_only reference_runtime
                (json_text "Here is the result: {'risk_level': 'low'} Thanks"))
    as (Hassess & _ & _ & Hextract).
  split.
  - rewrite (proj1 (Hassess eq_refl)). vm_compute. reflexivity.
  - apply Hextract. vm_compute. reflexivity.
Defined.

(* ================================================================== *)
(** * Properties: clause extraction *)
(* ================================================================== *)

(** C5 as stated, on an object in which one entry has a text and another
    has [null] for its text: the validation of the second record fails, the
    stage returns the empty mapping, and the first entry, an object with a
    ["text"] field, is not in it. *)
Lemma null_text_counterexample :
  @json_loads reference_runtime clauses_with_null_text
  = Some (JObj [(py "termination",
                 JObj [(py "text", JStr (py "T")); (py "summary", JStr (py "S"))]);
                (py "payment", JObj [(py "text", JNull)])])
  /\ entry_has_text (JObj [(py "text", JStr (py "T")); (py "summary", JStr (py "S"))])
     = true
  /\ @clauses_of_response reference_runtime clauses_with_null_text = []
  /\ dict_get (py "termination")
       (@clauses_of_response reference_runtime clauses_with_null_text) = None.
Proof. repeat split; vm_compute; reflexivity. Qed.

Lemma dict_set_fresh {V} (k : pystr) (v : V) (d : dict V) :
  ~ In k (dict_keys d) -> dict_set k v d = d ++ [(k, v)].
Proof.
  induction d as [|[k' v'] d IH]; simpl; intro H; [reflexivity|].
  destruct (str_eqb k k') eqn:E.
  - apply str_eqb_eq in E. subst. elim H. now left.
  - rewrite IH; [reflexivity|]. intro Hin. apply H. now right.
Qed.

Section ClauseExtraction.
Context {RT : Runtime}.

Lemma collect_clauses_expected (members : dict json) (acc : dict ClauseInfo) :
  texts_are_strings members = true ->
  NoDup (dict_keys acc ++ dict_keys members) ->
  collect_clauses members acc = Some (acc ++ expected_clauses members).
Proof.
  revert acc. induction members as [|[k v] rest IH]; intros acc Hstr Hnd.
  - simpl. now rewrite app_nil_r.
  - cbn [texts_are_strings forallb] in Hstr. apply andb_true_iff in Hstr as [Hv Hrest].
    fold (texts_are_strings rest) in Hrest. cbn [snd] in Hv.
    cbn [dict_keys map fst] in Hnd. fold (dict_keys rest) in Hnd.
    assert (Hskip : collect_clauses rest acc = Some (acc ++ expected_clauses rest)).
    { apply IH; [assumption|]. now apply NoDup_remove_1 in Hnd. }
    unfold expected_clauses. cbn [filter snd]. fold (expected_clauses rest).
    destruct v as [| | | | |fields]; try exact Hskip.
    cbn [collect_clauses entry_has_text] in *.
    destruct (dict_has (py "text") fields) eqn:Ht; [|exact Hskip].
    cbn [implb entry_field] in Hv. apply andb_true_iff in Hv as [Htext Hsum].
    destruct (dict_get_default (py "text") (JStr []) fields) as [| | |t| |] eqn:Et;
      try discriminate.
    destruct (dict_get_default (py "summary") (JStr []) fields) as [| | |sm| |] eqn:Es;
      try discriminate.
    cbn [make_ClauseInfo str_field map fst snd entry_field json_string].
    rewrite Et, Es. cbn [json_string].
    rewrite dict_set_fresh.
    + rewrite IH; [|assumption|].
      * now rewrite <- app_assoc.
      * unfold dict_keys in *. rewrite map_app, <- app_assoc. exact Hnd.
    + apply NoDup_remove_2 in Hnd. intro Hin. apply Hnd.
      apply in_or_app. now left.
Qed.

(** C5, amended.  When the response decodes to an object (a [dict], which
    holds every key once) in which every
    entry with a ["text"] field has strings for its text and its summary,
    the clause mapping holds exactly the entries with a ["text"] field, with
    that text and summary (the summary empty when it is absent); all other
    entries are dropped.  When the response does not decode, or the model
    cannot be called, the mapping is empty; the stage returns a mapping in
    every case. *)
Theorem clauses_of_object_response (text : pystr) (w : World) :
  (forall content members,
      json_loads content = Some (JObj members) ->
      NoDup (dict_keys members) ->
      texts_are_strings members = true ->
      clauses_of_response content = expected_clauses members)
  /\ (forall content,
         json_loads content = None -> clauses_of_response content = [])
  /\ (forall content w',
         model_invoke (KEY_CLAUSES_EXTRACTION_PROMPT (truncate 6000 text)) w
           = (Some content, w') ->
         extract_key_clauses_llm text w = (clauses_of_response content, w'))
  /\ (forall w',
         model_invoke (KEY_CLAUSES_EXTRACTION_PROMPT (truncate 6000 text)) w
           = (None, w') ->
         extract_key_clauses_llm text w = ([], w')).
Proof.
  repeat split.
  - intros content members Hdec Hnd Hstr.
    unfold clauses_of_response, clauses_of_decoded. rewrite Hdec.
    now rewrite (collect_clauses_expected members [] Hstr Hnd).
  - intros content Hdec. unfold clauses_of_response. now rewrite Hdec.
  - intros content w' H. unfold extract_key_clauses_llm, bind, ret. now rewrite H.
  - intros w' H. unfold extract_key_clauses_llm, bind, ret. now rewrite H.
Qed.

End ClauseExtraction.

(** An object with one entry of each kind. *)
Lemma clauses_of_object_response_witness :
  @clauses_of_response reference_runtime clauses_response
  = [(py "termination", {| ci_text := py "T"; ci_summary := py "S" |});
     (py "payment", {| ci_text := py "P"; ci_summary := [] |})].
Proof.
  refine (proj1 (@clauses_of_object_response reference_runtime [] [])
            clauses_response
            [(py "termination",
              JObj [(py "text", JStr (py "T")); (py "summary", JStr (py "S"))]);
             (py "pages", JNumber (py "5"));
             (py "notes", JObj [(py "summary", JStr (py "none"))]);
             (py "payment", JObj [(py "text", JStr (py "P"))])]
            _ _ _).
  - vm_compute. reflexivity.
  - unfold dict_keys. cbn [map fst].
    repeat (constructor; [cbn [In]; intros H; repeat destruct H as [H|H]; try discriminate; exact H|]).
    constructor.
  - vm_compute. reflexivity.
Defined.

Example specification_clause_example :
  @clauses_of_response reference_runtime
     (json_text "{'termination': {'text': 'T', 'summary': 'S'}}")
  = [(py "termination", {| ci_text := py "T"; ci_summary := py "S" |})].
Proof. vm_compute. reflexivity. Qed.

(* ================================================================== *)
(** * Properties: extraction that finds no text *)
(* ================================================================== *)

Section BlankExtraction.
Context {RT : Runtime}.

Lemma pdf_methods_keep_file : Forall (fun m => keeps_file (snd m)) pdf_methods.
Proof.
  repeat constructor; intro g; cbn [snd].
  - unfold extract_text_from_pdf_pymupdf, file_read.
    now destruct (fitz_page_texts _).
  - unfold extract_text_from_pdf_pdfplumber, file_read.
    now destruct (pdfplumber_page_texts _).
  - unfold extract_text_from_pdf_pypdf2, file_read.
    now destruct (pypdf2_page_texts _).
Qed.

Lemma docx_methods_keep_file : Forall (fun m => keeps_file (snd m)) docx_methods.
Proof.
  repeat constructor; intro g; cbn [snd].
  - unfold extract_text_from_docx_python_docx, file_read.
    now destruct (docx_paragraph_texts _).
  - unfold extract_text_from_docx_docx2txt, file_read.
    now destruct (docx2txt_process _) as [[?|]|].
Qed.

Lemma seek0_idempotent (f : pyfile) : seek0 (seek0 f) = seek0 f.
Proof. reflexivity. Qed.

Lemma try_methods_blank (methods : list (pystr * (pyfile -> pystr * pyfile)))
    (text : pystr) (f : pyfile) :
  Forall (fun m => keeps_file (snd m)) methods ->
  forallb (fun m => blank (fst (snd m (seek0 f)))) methods = true ->
  blank text = true ->
  blank (fst (try_methods methods text f)) = true.
Proof.
  revert text f. induction methods as [|[name m] rest IH]; intros text f Hkeep Hall Htext.
  - exact Htext.
  - inversion Hkeep as [|? ? Hm Hrest]; subst. cbn [snd] in Hm.
    cbn [forallb snd] in Hall. apply andb_true_iff in Hall as [Hfirst Hothers].
    cbn [try_methods]. destruct (m (seek0 f)) as [t f2] eqn:Em.
    cbn [fst] in Hfirst. unfold blank in Hfirst. rewrite Hfirst. cbn [negb].
    apply IH; try assumption.
    assert (Hsame : seek0 f2 = seek0 f).
    { specialize (Hm (seek0 f)). now rewrite Em in Hm. }
    now rewrite Hsame.
Qed.

Lemma blank_strip (s : pystr) : blank s = true -> strip s = [].
Proof. apply is_nil_true. Qed.

(** C7.  When every extraction method for the format of the document
    returns an empty or white-space-only string, [extract_text] returns the
    empty string, and [main] shows the extraction error and stops: it does
    not reach [process_contract], and the model is not called. *)
Theorem blank_extraction_halts (file_obj : pyfile) :
  all_backends_blank file_obj = true ->
  extract_text file_obj = []
  /\ forall load_sample w,
       main (Some file_obj) load_sample w = (ExtractionError, w).
Proof.
  intro H.
  assert (Hext : extract_text file_obj = []).
  { unfold extract_text. unfold all_backends_blank in H. apply blank_strip.
    destruct (str_eqb (file_suffix file_obj) (py "pdf")).
    - apply try_methods_blank; [apply pdf_methods_keep_file | exact H | reflexivity].
    - destruct (str_eqb (file_suffix file_obj) (py "docx")).
      + apply try_methods_blank; [apply docx_methods_keep_file | exact H | reflexivity].
      + destruct (str_eqb (file_suffix file_obj) (py "txt")); [|reflexivity].
        unfold decoded_text in H. unfold file_read, seek0. cbn [file_pos file_data skipn].
        destruct (utf8_decode (file_data file_obj)); exact H. }
  split; [exact Hext|]. intros load_sample w.
  unfold main. rewrite Hext. reflexivity.
Qed.

End BlankExtraction.

(** A scanned document, in which no reader finds text. *)
Lemma blank_extraction_halts_witness :
  @extract_text reference_runtime scanned_pdf = []
  /\ @main reference_runtime (Some scanned_pdf) false [Some (py "Lease")]
     = (ExtractionError, [Some (py "Lease")]).
Proof.
  destruct (@blank_extraction_halts reference_runtime scanned_pdf eq_refl)
    as [Hext Hmain].
  split; [exact Hext | exact (Hmain false [Some (py "Lease")])].
Defined.

(* ================================================================== *)
(** * Properties: highlighting *)
(* ================================================================== *)

Lemma insert_desc_perm {A} (key : A -> Z) (x : A) (l : list A) :
  Permutation (x :: l) (insert_desc key x l).
Proof.
  induction l as [|y l IH]; simpl; [reflexivity|].
  destruct (key y <=? key x)%Z; [reflexivity|].
  rewrite perm_swap. now constructor.
Qed.

Lemma insert_desc_sorted {A} (key : A -> Z) (x : A) (l : list A) :
  Sorted (fun a b => (key b <= key a)%Z) l ->
  Sorted (fun a b => (key b <= key a)%Z) (insert_desc key x l).
Proof.
  induction l as [|y l IH]; simpl; intro H.
  - repeat constructor.
  - destruct (key y <=? key x)%Z eqn:E.
    + apply Z.leb_le in E. constructor; [assumption | now constructor].
    + apply Z.leb_gt in E. inversion H as [|? ? Hs Hh]; subst.
      constructor; [now apply IH|].
      destruct l as [|z l]; simpl.
      * constructor. lia.
      * destruct (key z <=? key x)%Z; constructor; [lia|].
        now inversion Hh.
Qed.

(** The risks are processed in an order of descending keys, and every risk
    is processed once. *)
Lemma sorted_reverse_descending {A} (key : A -> Z) (l : list A) :
  Sorted (fun a b => (key b <= key a)%Z) (sorted_reverse key l)
  /\ Permutation l (sorted_reverse key l).
Proof.
  induction l as [|x l [IHs IHp]]; simpl.
  - split; constructor.
  - split; [now apply insert_desc_sorted|].
    rewrite <- insert_desc_perm. now constructor.
Qed.

Example offsets_50_before_10 :
  position_key offsets_text risk_at_10 = 10%Z
  /\ position_key offsets_text risk_at_50 = 50%Z
  /\ sorted_reverse (position_key offsets_text) [risk_at_10; risk_at_50]
     = [risk_at_50; risk_at_10]
  /\ highlight_risks_in_text offsets_text [risk_at_10; risk_at_50]
     = highlight_step (highlight_step offsets_text risk_at_50) risk_at_10.
Proof.
  split; [vm_compute; reflexivity|].
  split; [vm_compute; reflexivity|].
  split; vm_compute; reflexivity.
Qed.

(** C8, on a risk whose text is not in the source but is in the markup put
    around an earlier risk.  The text "mark" does not occur in the source;
    after the highlight of "fee" it occurs in the tags, the test against the
    text highlighted so far succeeds, and the replacement is done inside the
    tags: the result differs from the one without that risk. *)
Theorem risk_text_found_in_markup :
  contains (ri_text paraphrased_risk) fee_text = false
  /\ sorted_reverse (position_key fee_text) [fee_risk; paraphrased_risk]
     = [fee_risk; paraphrased_risk]
  /\ contains (ri_text paraphrased_risk) (highlight_step fee_text fee_risk) = true
  /\ highlight_risks_in_text fee_text [fee_risk; paraphrased_risk]
     = replace (py "mark") (mark paraphrased_risk)
         (highlight_risks_in_text fee_text [fee_risk])
  /\ highlight_risks_in_text fee_text [fee_risk; paraphrased_risk]
     <> highlight_risks_in_text fee_text [fee_risk]
  /\ startswith
       (py "The <" ++ mark paraphrased_risk ++ py " style=")
       (highlight_risks_in_text fee_text [fee_risk; paraphrased_risk]) = true.
Proof.
  split; [vm_compute; reflexivity|].
  split; [vm_compute; reflexivity|].
  split; [vm_compute; reflexivity|].
  split; [vm_compute; reflexivity|].
  split; [|vm_compute; reflexivity].
  intro H. apply str_eqb_eq in H. vm_compute in H. discriminate.
Qed.

(* ================================================================== *)
(** * Properties: the truncation of the text sent to the model *)
(* ================================================================== *)

Lemma truncate_firstn (n : N) (s : pystr) : truncate n s = firstn (N.to_nat n) s.
Proof.
  unfold truncate. destruct (n <? N.of_nat (length s))%N eqn:E; [reflexivity|].
  apply N.ltb_ge in E. symmetry. apply firstn_all2. lia.
Qed.

Lemma truncate_same_prefix (n : N) (s1 s2 : pystr) :
  firstn (N.to_nat n) s1 = firstn (N.to_nat n) s2 -> truncate n s1 = truncate n s2.
Proof. intro H. now rewrite !truncate_firstn. Qed.

Lemma shorter_prefix (n m : N) (s1 s2 : pystr) :
  (n <= m)%N ->
  firstn (N.to_nat m) s1 = firstn (N.to_nat m) s2 ->
  firstn (N.to_nat n) s1 = firstn (N.to_nat n) s2.
Proof.
  intros Hle H.
  assert (Hmin : forall s : pystr,
             firstn (N.to_nat n) s = firstn (N.to_nat n) (firstn (N.to_nat m) s)).
  { intro s. rewrite firstn_firstn. f_equal. lia. }
  now rewrite (Hmin s1), (Hmin s2), H.
Qed.

Section Truncation.
Context {RT : Runtime}.

Lemma same_prefix_same_type (text1 text2 : pystr) :
  firstn (N.to_nat 4000) text1 = firstn (N.to_nat 4000) text2 ->
  forall w, detect_contract_type_llm text1 w = detect_contract_type_llm text2 w.
Proof.
  intros H w. apply truncate_same_prefix in H.
  unfold detect_contract_type_llm. now rewrite H.
Qed.

Lemma same_prefix_same_law (text1 text2 : pystr) :
  firstn (N.to_nat 4000) text1 = firstn (N.to_nat 4000) text2 ->
  forall w, detect_governing_law_llm text1 w = detect_governing_law_llm text2 w.
Proof.
  intros H w. apply truncate_same_prefix in H.
  unfold detect_governing_law_llm. now rewrite H.
Qed.

Lemma same_prefix_same_clauses (text1 text2 : pystr) :
  firstn (N.to_nat 6000) text1 = firstn (N.to_nat 6000) text2 ->
  forall w, extract_key_clauses_llm text1 w = extract_key_clauses_llm text2 w.
Proof.
  intros H w. apply truncate_same_prefix in H.
  unfold extract_key_clauses_llm. now rewrite H.
Qed.

(** Each stage reads a bounded prefix of the contract: two texts that agree
    on their first 4000 characters get the same contract type and the same
    governing law, on their first 6000 the same clauses, on their first
    8000 the same review. *)
Theorem stages_read_a_prefix (text1 text2 : pystr) (w : World) :
  (firstn (N.to_nat 4000) text1 = firstn (N.to_nat 4000) text2 ->
   detect_contract_type_llm text1 w = detect_contract_type_llm text2 w
   /\ detect_governing_law_llm text1 w = detect_governing_law_llm text2 w)
  /\ (firstn (N.to_nat 6000) text1 = firstn (N.to_nat 6000) text2 ->
      extract_key_clauses_llm text1 w = extract_key_clauses_llm text2 w)
  /\ (firstn (N.to_nat 8000) text1 = firstn (N.to_nat 8000) text2 ->
      forall contract_type country hints,
        llm_review text1 contract_type country hints w
        = llm_review text2 contract_type country hints w).
Proof.
  split; [|split].
  - intro H. split; [now apply same_prefix_same_type | now apply same_prefix_same_law].
  - intro H. now apply same_prefix_same_clauses.
  - intros H ct country hints. apply truncate_same_prefix in H.
    unfold llm_review. now rewrite H.
Qed.

(** The analysis of a contract depends on its first 6000 characters only:
    what stands behind them reaches no stage. *)
Theorem analysis_reads_6000_characters (text1 text2 : pystr) (w : World) :
  firstn (N.to_nat 6000) text1 = firstn (N.to_nat 6000) text2 ->
  analyze_contract_comprehensive text1 w = analyze_contract_comprehensive text2 w.
Proof.
  intro H.
  assert (H4 : firstn (N.to_nat 4000) text1 = firstn (N.to_nat 4000) text2)
    by (apply (shorter_prefix 4000 6000); [lia | exact H]).
  unfold analyze_contract_comprehensive, bind.
  rewrite (same_prefix_same_type text1 text2 H4).
  destruct (detect_contract_type_llm text2 w) as [ct w1].
  rewrite (same_prefix_same_law text1 text2 H4).
  destruct (detect_governing_law_llm text2 w1) as [gl w2].
  now rewrite (same_prefix_same_clauses text1 text2 H).
Qed.

End Truncation.

(** Two texts of 6001 characters that differ in the last one. *)
Lemma analysis_reads_6000_characters_witness :
  @analyze_contract_comprehensive reference_runtime (long_text (py "x"))
     two_clause_script
  = @analyze_contract_comprehensive reference_runtime (long_text (py "y"))
      two_clause_script.
Proof.
  apply (@analysis_reads_6000_characters reference_runtime).
  vm_compute. reflexivity.
Defined.

Lemma stages_read_a_prefix_witness :
  @extract_key_clauses_llm reference_runtime (long_text (py "x")) [Some clauses_response]
  = @extract_key_clauses_llm reference_runtime (long_text (py "y")) [Some clauses_response].
Proof.
  refine (proj1 (proj2 (@stages_read_a_prefix reference_runtime
                          (long_text (py "x")) (long_text (py "y"))
                          [Some clauses_response])) _).
  vm_compute. reflexivity.
Defined.

(* ================================================================== *)
(** * Properties: governing law and regulatory hints *)
(* ================================================================== *)

(** The governing law that is returned carries no white space at its ends,
    and none of the answers for "not stated" comes through in any letter
    case: such an answer, and a failing call, give [Unknown]. *)
Theorem governing_law_normalised {RT : Runtime} (text : pystr) (w : World) :
  strip (fst (detect_governing_law_llm text w)) = fst (detect_governing_law_llm text w)
  /\ (str_in (str_lower (fst (detect_governing_law_llm text w))) unknown_variants = true ->
      fst (detect_governing_law_llm text w) = py "Unknown")
  /\ (forall content w',
        model_invoke (GOVERNING_LAW_DETECTION_PROMPT (truncate 4000 text)) w
          = (Some content, w') ->
        str_in (str_lower (strip content)) unknown_variants = true ->
        detect_governing_law_llm text w = (py "Unknown", w'))
  /\ (forall w',
        model_invoke (GOVERNING_LAW_DETECTION_PROMPT (truncate 4000 text)) w
          = (None, w') ->
        detect_governing_law_llm text w = (py "Unknown", w')).
Proof.
  unfold detect_governing_law_llm, bind, ret. fold unknown_variants.
  destruct (model_invoke (GOVERNING_LAW_DETECTION_PROMPT (truncate 4000 text)) w)
    as [[content|] w1].
  - destruct (str_in (str_lower (strip content)) unknown_variants) eqn:E; cbn [fst].
    + split; [reflexivity|]. split; [reflexivity|]. split.
      * intros c w' H _. now injection H as <- <-.
      * intros w' H. discriminate.
    + split; [apply strip_idempotent|]. split; [congruence|]. split.
      * intros c w' H Hin. injection H as <- <-. congruence.
      * intros w' H. discriminate.
  - cbn [fst]. split; [reflexivity|]. split; [reflexivity|]. split.
    + intros c w' H. discriminate.
    + intros w' H. now injection H as <-.
Qed.

Lemma governing_law_normalised_witness :
  @detect_governing_law_llm reference_runtime (py "LEASE OF PREMISES")
     [Some (py "  Not Specified ")] = (py "Unknown", []).
Proof.
  refine (proj1 (proj2 (proj2
    (@governing_law_normalised reference_runtime (py "LEASE OF PREMISES")
       [Some (py "  Not Specified ")]))) (py "  Not Specified ") [] eq_refl _).
  vm_compute. reflexivity.
Defined.

(** The hints: between three and five.  With no hints for the type and none
    for the law they are the three general ones; with hints for both, the
    cut to five leaves none of the general ones. *)
Theorem regulatory_hints_bounds (contract_type country : pystr) :
  3 <= length (search_regulatory_hints contract_type country) <= 5
  /\ (type_has_hints contract_type = false -> country_has_hints country = false ->
      search_regulatory_hints contract_type country = general_hints)
  /\ (type_has_hints contract_type = true -> country_has_hints country = true ->
      length (search_regulatory_hints contract_type country) = 5
      /\ forall h, In h general_hints ->
                   ~ In h (search_regulatory_hints contract_type country)).
Proof.
  unfold search_regulatory_hints, type_has_hints, country_has_hints, str_in.
  cbn [existsb].
  destruct (str_eqb contract_type (py "NDA"));
    destruct (str_eqb contract_type (py "Employment"));
    destruct (str_eqb contract_type (py "MSA"));
    destruct (contains (py "California") country);
    destruct (contains (py "United States") country);
    destruct (contains (py "United Kingdom") country);
    destruct (contains (py "UK") country);
    cbn [orb andb app];
    (split; [vm_compute; lia|]);
    (split; [intros H1 H2; try discriminate; reflexivity|]);
    intros H1 H2; try discriminate;
    (split; [reflexivity|]);
    intros h Hh; apply str_in_not_In; apply str_in_In in Hh;
    unfold general_hints, str_in in Hh; cbn [existsb] in Hh;
    repeat (apply orb_true_iff in Hh as [Hh | Hh]); try discriminate;
    apply str_eqb_eq in Hh; subst h; vm_compute; reflexivity.
Qed.

Lemma regulatory_hints_bounds_witness :
  length (search_regulatory_hints (py "NDA") (py "State of California")) = 5
  /\ search_regulatory_hints (py "Lease") (py "Germany") = general_hints.
Proof.
  destruct (regulatory_hints_bounds (py "NDA") (py "State of California"))
    as (_ & _ & Hboth).
  destruct (regulatory_hints_bounds (py "Lease") (py "Germany")) as (_ & Hnone & _).
  split.
  - apply Hboth; vm_compute; reflexivity.
  - apply Hnone; vm_compute; reflexivity.
Defined.

(* ================================================================== *)
(** * Properties: the count of the risks by level *)
(* ================================================================== *)

Lemma level_cases (level : pystr) :
  str_in level risk_levels = true ->
  level = py "high" \/ level = py "medium" \/ level = py "low".
Proof.
  intro H. apply str_in_In in H. unfold risk_levels in H. cbn [In] in H.
  intuition auto.
Qed.

Lemma count_risks_from (risks : list RiskItem) (h m l : nat) :
  forallb (fun r => str_in (ri_risk_level r) risk_levels) risks = true ->
  count_risks risks [(py "high", h); (py "medium", m); (py "low", l)]
  = Some [(py "high", h + count_level (py "high") risks);
          (py "medium", m + count_level (py "medium") risks);
          (py "low", l + count_level (py "low") risks)].
Proof.
  revert h m l. induction risks as [|r rest IH]; intros h m l H.
  - cbn. now rewrite !Nat.add_0_r.
  - cbn [forallb] in H. apply andb_true_iff in H as [Hr Hrest].
    unfold count_level. cbn [count_risks filter].
    destruct (level_cases _ Hr) as [E | [E | E]]; rewrite E;
      cbn -[py count_risks filter Nat.add];
      change (str_eqb (py "high") (py "high")) with true;
      change (str_eqb (py "medium") (py "medium")) with true;
      change (str_eqb (py "low") (py "low")) with true;
      change (str_eqb (py "high") (py "medium")) with false;
      change (str_eqb (py "high") (py "low")) with false;
      change (str_eqb (py "medium") (py "high")) with false;
      change (str_eqb (py "medium") (py "low")) with false;
      change (str_eqb (py "low") (py "high")) with false;
      change (str_eqb (py "low") (py "medium")) with false;
      cbn -[py count_risks filter Nat.add];
      rewrite (IH _ _ _ Hrest); unfold count_level; cbn [length];
      rewrite ?Nat.add_succ_r; reflexivity.
Qed.

Lemma count_level_total (risks : list RiskItem) :
  forallb (fun r => str_in (ri_risk_level r) risk_levels) risks = true ->
  count_level (py "high") risks + count_level (py "medium") risks
  + count_level (py "low") risks = length risks.
Proof.
  induction risks as [|r rest IH]; intro H; [reflexivity|].
  cbn [forallb] in H. apply andb_true_iff in H as [Hr Hrest].
  specialize (IH Hrest). unfold count_level in *. cbn [filter].
  destruct (level_cases _ Hr) as [E | [E | E]]; rewrite E;
    change (str_eqb (py "high") (py "high")) with true;
    change (str_eqb (py "medium") (py "medium")) with true;
    change (str_eqb (py "low") (py "low")) with true;
    change (str_eqb (py "high") (py "medium")) with false;
    change (str_eqb (py "high") (py "low")) with false;
    change (str_eqb (py "medium") (py "high")) with false;
    change (str_eqb (py "medium") (py "low")) with false;
    change (str_eqb (py "low") (py "high")) with false;
    change (str_eqb (py "low") (py "medium")) with false;
    cbn [length]; lia.
Qed.

Lemma count_risks_unknown_level (risks : list RiskItem) (counts : dict nat) :
  dict_keys counts = [py "high"; py "medium"; py "low"] ->
  forallb (fun r => str_in (ri_risk_level r) risk_levels) risks = false ->
  count_risks risks counts = None.
Proof.
  revert counts. induction risks as [|r rest IH]; intros counts Hkeys H;
    [discriminate|].
  cbn [forallb] in H. cbn [count_risks].
  destruct counts as [|[k1 n1] [|[k2 n2] [|[k3 n3] [|]]]]; try discriminate.
  cbn [dict_keys map fst] in Hkeys. injection Hkeys as -> -> ->.
  destruct (str_in (ri_risk_level r) risk_levels) eqn:Hr.
  - cbn [andb] in H.
    destruct (level_cases _ Hr) as [E | [E | E]]; rewrite E;
      cbn -[py count_risks];
      change (str_eqb (py "high") (py "high")) with true;
      change (str_eqb (py "medium") (py "medium")) with true;
      change (str_eqb (py "low") (py "low")) with true;
      change (str_eqb (py "medium") (py "high")) with false;
      change (str_eqb (py "low") (py "high")) with false;
      change (str_eqb (py "low") (py "medium")) with false;
      cbn -[py count_risks];
      (apply IH; [reflexivity | exact H]).
  - unfold risk_levels, str_in in Hr. cbn [existsb] in Hr.
    apply orb_false_iff in Hr as [H1 Hr]. apply orb_false_iff in Hr as [H2 Hr].
    apply orb_false_iff in Hr as [H3 _].
    cbn [dict_get]. now rewrite H1, H2, H3.
Qed.

(** The count of the risks by level succeeds exactly when every level is
    "high", "medium" or "low"; the three counters are then the numbers of
    risks at each level and add up to the number of risks.  One other level
    anywhere in the list makes the count fail with [KeyError]. *)
Theorem count_risks_total (risks : list RiskItem) :
  (forallb (fun r => str_in (ri_risk_level r) risk_levels) risks = true ->
   count_risks risks zero_counts
   = Some [(py "high", count_level (py "high") risks);
           (py "medium", count_level (py "medium") risks);
           (py "low", count_level (py "low") risks)]
   /\ count_level (py "high") risks + count_level (py "medium") risks
      + count_level (py "low") risks = length risks)
  /\ (forallb (fun r => str_in (ri_risk_level r) risk_levels) risks = false ->
      count_risks risks zero_counts = None).
Proof.
  split.
  - intro H. split; [|now apply count_level_total].
    unfold zero_counts. now rewrite (count_risks_from risks 0 0 0 H).
  - intro H. now apply count_risks_unknown_level.
Qed.

Lemma count_risks_total_witness :
  count_risks [fee_risk; paraphrased_risk; risk_at_50] zero_counts
  = Some [(py "high", 2); (py "medium", 0); (py "low", 1)].
Proof.
  exact (proj1 (proj1 (count_risks_total [fee_risk; paraphrased_risk; risk_at_50])
                  eq_refl)).
Defined.

(* ================================================================== *)
(** * Properties: highlighting, continued *)
(* ================================================================== *)

Lemma highlight_steps_absent (text : pystr) (risks : list RiskItem) :
  Forall (fun r => contains (ri_text r) text = false) risks ->
  fold_left highlight_step risks text = text.
Proof.
  induction risks as [|r rest IH]; intro H; [reflexivity|].
  inversion H as [|? ? Hr Hrest]; subst. cbn [fold_left].
  unfold highlight_step at 2. rewrite Hr. now apply IH.
Qed.

(** Risks whose texts do not occur in the contract leave it as it is; so
    does an empty list of risks. *)
Theorem highlight_without_occurrence (text : pystr) (risks : list RiskItem) :
  forallb (fun r => negb (contains (ri_text r) text)) risks = true ->
  highlight_risks_in_text text risks = text.
Proof.
  intro H. unfold highlight_risks_in_text. apply highlight_steps_absent.
  assert (Hall : Forall (fun r => contains (ri_text r) text = false) risks).
  { apply Forall_forall. intros r Hr. rewrite forallb_forall in H.
    apply negb_true_iff. now apply H. }
  destruct (sorted_reverse_descending (position_key text) risks) as [_ Hperm].
  now apply (Permutation_Forall Hperm).
Qed.

Lemma highlight_without_occurrence_witness :
  highlight_risks_in_text fee_text [risk_at_10; risk_at_50] = fee_text.
Proof. apply highlight_without_occurrence. vm_compute. reflexivity. Defined.

(* ================================================================== *)
(** * Properties: [clean_text], continued *)
(* ================================================================== *)

Lemma visible_squeeze (s : pystr) (b : bool) : visible (squeeze b s) = visible s.
Proof.
  revert b. induction s as [|c t IH]; intro b; [reflexivity|].
  cbn [squeeze]. unfold visible in *. cbn [filter].
  destruct (isspace c) eqn:E; cbn [negb].
  - destruct b; [apply IH|]. cbn [filter]. change (isspace 32%N) with true.
    cbn [negb]. apply IH.
  - cbn [filter]. rewrite E. cbn [negb]. now rewrite IH.
Qed.

Lemma visible_spaced (P Q : char -> bool) (s : pystr) :
  visible (spaced P Q s) = visible s.
Proof.
  induction s as [|a t IH]; [reflexivity|].
  destruct t as [|b t']; [reflexivity|].
  rewrite spaced_cons2. unfold visible in *.
  destruct (P a && Q b); cbn [filter]; change (isspace 32%N) with true;
    cbn [negb]; now rewrite IH.
Qed.

Lemma visible_lstrip (s : pystr) : visible (lstrip s) = visible s.
Proof.
  induction s as [|c t IH]; [reflexivity|].
  cbn [lstrip]. unfold visible in *. destruct (isspace c) eqn:E; [|reflexivity].
  cbn [filter]. rewrite E. exact IH.
Qed.

Lemma visible_rstrip (s : pystr) : visible (rstrip s) = visible s.
Proof.
  induction s as [|c t IH]; [reflexivity|].
  cbn [rstrip]. unfold visible in *. cbn [filter].
  destruct (isspace c) eqn:E; cbn [andb negb].
  - destruct (rstrip t) as [|d r] eqn:Er; cbn [is_nil].
    + now rewrite <- IH.
    + cbn [filter]. rewrite E. cbn [negb]. now rewrite <- IH.
  - cbn [filter]. rewrite E. cbn [negb]. now rewrite IH.
Qed.

Lemma visible_strip (s : pystr) : visible (strip s) = visible s.
Proof. unfold strip. now rewrite visible_rstrip, visible_lstrip. Qed.

Lemma visible_clean_text (x : pystr) : visible (clean_text x) = visible x.
Proof.
  destruct x as [|c t]; [reflexivity|].
  rewrite clean_text_steps by discriminate.
  rewrite visible_strip, before_newline_collapse_spaced.
  now rewrite !visible_spaced, visible_squeeze.
Qed.

Lemma visible_nil_blank (s : pystr) : visible s = [] <-> forallb isspace s = true.
Proof.
  unfold visible. induction s as [|c t IH]; [tauto|].
  cbn [filter forallb]. destruct (isspace c); cbn [negb andb].
  - exact IH.
  - split; discriminate.
Qed.

Lemma lstrip_blank (s : pystr) : forallb isspace s = true -> lstrip s = [].
Proof.
  induction s as [|c t IH]; [reflexivity|]. cbn [forallb lstrip].
  intro H. apply andb_true_iff in H as [Hc Ht]. rewrite Hc. now apply IH.
Qed.

Lemma strip_blank (s : pystr) : forallb isspace s = true -> strip s = [].
Proof. intro H. unfold strip. now rewrite lstrip_blank. Qed.

Lemma strip_nil_blank (s : pystr) : strip s = [] -> forallb isspace s = true.
Proof.
  intro H. apply visible_nil_blank. now rewrite <- (visible_strip s), H.
Qed.

Lemma clean_text_blank_aux (x : pystr) :
  clean_text x = [] -> forallb isspace x = true.
Proof.
  intro H. apply visible_nil_blank. now rewrite <- visible_clean_text, H.
Qed.

(** [clean_text] changes white space only: the other characters of the
    output are those of the input, in the same order. *)
Theorem clean_text_keeps_visible_characters (x : pystr) :
  filter (fun c => negb (isspace c)) (clean_text x)
  = filter (fun c => negb (isspace c)) x.
Proof. apply visible_clean_text. Qed.

(** The cleaned text is empty exactly when the input is empty or white
    space only. *)
Theorem clean_text_empty_iff_blank (x : pystr) :
  clean_text x = [] <-> forallb isspace x = true.
Proof.
  rewrite <- visible_nil_blank, <- visible_clean_text. split.
  - intros ->. reflexivity.
  - intro H. apply visible_nil_blank in H.
    destruct (clean_text_shape x) as (_ & _ & _ & Hstrip).
    rewrite <- Hstrip. now apply strip_blank.
Qed.

Lemma adjfree_split (P Q : char -> bool) (a : pystr) (c1 c2 : char) (b : pystr) :
  adjfree P Q (a ++ c1 :: c2 :: b) = true -> P c1 && Q c2 = false.
Proof.
  induction a as [|x a IH]; intro H.
  - cbn [app] in H. rewrite adjfree_cons2 in H. apply andb_true_iff in H as [H _].
    now apply negb_true_iff in H.
  - apply IH. destruct a as [|y a']; cbn [app] in *;
      rewrite adjfree_cons2 in H; now apply andb_true_iff in H as [_ H].
Qed.

Lemma single_spaced_adjfree (s : pystr) (b : bool) :
  single_spaced b s = true -> adjfree isspace isspace s = true.
Proof.
  revert b. induction s as [|c t IH]; intros b H; [reflexivity|].
  destruct t as [|d t']; [reflexivity|].
  rewrite adjfree_cons2, (IH false (single_spaced_tail c (d :: t') b H)), andb_true_r.
  apply negb_true_iff. destruct (isspace c) eqn:Ec; [|reflexivity].
  destruct (isspace d) eqn:Ed; [|reflexivity].
  cbn [single_spaced] in H. rewrite Ec, Ed in H. cbn [negb andb] in H.
  now rewrite andb_false_r in H.
Qed.

Lemma stripped_ends (s : pystr) :
  strip s = s ->
  match s with c :: _ => isspace c = false | [] => True end
  /\ (forall a c, s = a ++ [c] -> isspace c = false).
Proof.
  intro H. split.
  - unfold strip in H. destruct (lstrip_head s) as [E | (c & t & E & Hc)].
    + rewrite E in H. cbn in H. now subst.
    + rewrite E, (rstrip_cons_nonspace c t Hc) in H. now subst.
  - intros a c ->. assert (Hr : rstrip (a ++ [c]) = a ++ [c]).
    { rewrite <- H at 1. unfold strip. rewrite rstrip_idempotent. exact H. }
    clear H. induction a as [|x a IH].
    + cbn in Hr. destruct (isspace c); [discriminate | reflexivity].
    + cbn [app rstrip] in Hr.
      destruct (isspace x && is_nil (rstrip (a ++ [c]))); [discriminate|].
      injection Hr as Hr. now apply IH.
Qed.

(** The format of cleaned text: its only white space is the space
    character, never two in a row and none at either end, and no lower case
    letter or full stop stands directly before an upper case letter. *)
Theorem clean_text_output_format (x : pystr) :
  (forall c, In c (clean_text x) -> isspace c = true -> c = 32%N)
  /\ (forall a c1 c2 b, clean_text x = a ++ c1 :: c2 :: b ->
        isspace c1 && isspace c2 = false
        /\ is_lower_az c1 && is_upper_AZ c2 = false
        /\ is_dot c1 && is_upper_AZ c2 = false)
  /\ (forall c t, clean_text x = c :: t -> isspace c = false)
  /\ (forall a c, clean_text x = a ++ [c] -> isspace c = false).
Proof.
  destruct (clean_text_shape x) as (H1 & H2 & H3 & H4).
  destruct (stripped_ends _ H4) as [Hhead Hlast].
  split; [|split; [|split]].
  - intros c Hin Hc.
    destruct (N.eq_dec c 32) as [E | E]; [exact E | exfalso].
    assert (Hno : forallb (fun d => negb (isspace d && negb (d =? 32)%N))
                    (clean_text x) = true).
    { apply (single_spaced_no_class
               (fun d => isspace d && negb (d =? 32)%N) _ false); [|exact H1].
      intros d Hd. apply andb_true_iff in Hd as [Hd1 Hd2].
      apply negb_true_iff, N.eqb_neq in Hd2. now split. }
    rewrite forallb_forall in Hno. specialize (Hno c Hin). cbn beta in Hno.
    rewrite Hc in Hno. apply N.eqb_neq in E. rewrite E in Hno. discriminate.
  - intros a c1 c2 b E. rewrite E in *. repeat split.
    + apply (adjfree_split isspace isspace a c1 c2 b).
      now apply (single_spaced_adjfree _ false).
    + now apply (adjfree_split _ _ a c1 c2 b).
    + now apply (adjfree_split _ _ a c1 c2 b).
  - intros c t E. now rewrite E in Hhead.
  - exact Hlast.
Qed.

(* ================================================================== *)
(** * Properties: the chain of extraction methods *)
(* ================================================================== *)

Section ExtractionChain.
Context {RT : Runtime}.

Lemma method_outputs_same_start
    (methods : list (pystr * (pyfile -> pystr * pyfile))) (f g : pyfile) :
  seek0 f = seek0 g -> method_outputs methods f = method_outputs methods g.
Proof. intro H. unfold method_outputs. now rewrite H. Qed.

Lemma try_methods_first_nonblank
    (methods : list (pystr * (pyfile -> pystr * pyfile))) (text : pystr) (f : pyfile) :
  Forall (fun m => keeps_file (snd m)) methods ->
  fst (try_methods methods text f) = first_nonblank (method_outputs methods f) text.
Proof.
  revert text f. induction methods as [|[name m] rest IH]; intros text f Hkeep.
  - reflexivity.
  - inversion Hkeep as [|? ? Hm Hrest]; subst. cbn [snd] in Hm.
    cbn [try_methods method_outputs map snd first_nonblank].
    fold (method_outputs rest f).
    destruct (m (seek0 f)) as [t f2] eqn:Em. cbn [fst]. unfold blank.
    destruct (is_nil (strip t)); cbn [negb]; [|reflexivity].
    rewrite (IH t f2 Hrest). f_equal. apply method_outputs_same_start.
    specialize (Hm (seek0 f)). now rewrite Em in Hm.
Qed.

(** The text of a PDF is that of the first method in the order PyMuPDF,
    pdfplumber, PyPDF2 whose output is not blank, stripped; a method is
    asked only when those before it returned blank text, and each sees the
    file from its start.  For DOCX the order is python-docx, docx2txt.  A
    text file is decoded as UTF-8 and, when that fails, as Latin-1.  Any
    other extension gives the empty string. *)
Theorem extract_text_by_format (file_obj : pyfile) :
  (file_suffix file_obj = py "pdf" ->
     forall o1 o2 o3,
       o1 = fst (extract_text_from_pdf_pymupdf (seek0 file_obj)) ->
       o2 = fst (extract_text_from_pdf_pdfplumber (seek0 file_obj)) ->
       o3 = fst (extract_text_from_pdf_pypdf2 (seek0 file_obj)) ->
       extract_text file_obj
       = strip (if negb (blank o1) then o1 else if negb (blank o2) then o2 else o3))
  /\ (file_suffix file_obj = py "docx" ->
      forall o1 o2,
        o1 = fst (extract_text_from_docx_python_docx (seek0 file_obj)) ->
        o2 = fst (extract_text_from_docx_docx2txt (seek0 file_obj)) ->
        extract_text file_obj = strip (if negb (blank o1) then o1 else o2))
  /\ (file_suffix file_obj = py "txt" ->
      extract_text file_obj = strip (decoded_text file_obj))
  /\ (~ In (file_suffix file_obj) [py "pdf"; py "docx"; py "txt"] ->
      extract_text file_obj = []).
Proof.
  unfold extract_text. split; [|split; [|split]].
  - intros E o1 o2 o3 -> -> ->. rewrite E.
    change (str_eqb (py "pdf") (py "pdf")) with true. cbv iota.
    rewrite (try_methods_first_nonblank _ _ _ pdf_methods_keep_file).
    unfold method_outputs, pdf_methods. cbn [map snd first_nonblank].
    destruct (blank (fst (extract_text_from_pdf_pymupdf (seek0 file_obj))));
      [|reflexivity].
    destruct (blank (fst (extract_text_from_pdf_pdfplumber (seek0 file_obj))));
      [|reflexivity].
    cbn [negb]. now destruct (blank _).
  - intros E o1 o2 -> ->. rewrite E.
    change (str_eqb (py "docx") (py "pdf")) with false.
    change (str_eqb (py "docx") (py "docx")) with true. cbv iota.
    rewrite (try_methods_first_nonblank _ _ _ docx_methods_keep_file).
    unfold method_outputs, docx_methods. cbn [map snd first_nonblank].
    destruct (blank (fst (extract_text_from_docx_python_docx (seek0 file_obj))));
      [|reflexivity].
    cbn [negb]. now destruct (blank _).
  - intros E. rewrite E.
    change (str_eqb (py "txt") (py "pdf")) with false.
    change (str_eqb (py "txt") (py "docx")) with false.
    change (str_eqb (py "txt") (py "txt")) with true. cbv iota.
    unfold decoded_text, file_read, seek0. cbn [file_pos file_data skipn].
    now destruct (utf8_decode (file_data file_obj)).
  - intro H. cbn [In] in H.
    destruct (str_eqb (file_suffix file_obj) (py "pdf")) eqn:E1;
      [apply str_eqb_eq in E1; elim H; auto|].
    destruct (str_eqb (file_suffix file_obj) (py "docx")) eqn:E2;
      [apply str_eqb_eq in E2; elim H; auto|].
    destruct (str_eqb (file_suffix file_obj) (py "txt")) eqn:E3;
      [apply str_eqb_eq in E3; elim H; auto|].
    reflexivity.
Qed.

Lemma extract_text_stripped (file_obj : pyfile) :
  strip (extract_text file_obj) = extract_text file_obj.
Proof. unfold extract_text. apply strip_idempotent. Qed.

(** [main] shows the extraction error exactly when the extracted text is
    empty; in every other case [process_contract] receives the cleaned
    text, which is not empty. *)
Theorem main_error_iff_no_text (file_obj : pyfile) (load_sample : bool) (w : World) :
  (extract_text file_obj = [] ->
   main (Some file_obj) load_sample w = (ExtractionError, w))
  /\ (extract_text file_obj <> [] ->
      clean_text (extract_text file_obj) <> []
      /\ main (Some file_obj) load_sample w
         = process_contract (clean_text (extract_text file_obj)) w).
Proof.
  unfold main. split.
  - intros ->. reflexivity.
  - intro Hne.
    assert (Hclean : clean_text (extract_text file_obj) <> []).
    { intro E. apply clean_text_blank_aux in E. apply Hne.
      rewrite <- extract_text_stripped. now apply strip_blank. }
    split; [exact Hclean|].
    destruct (clean_text_shape (extract_text file_obj)) as (_ & _ & _ & Hs).
    rewrite Hs. destruct (clean_text (extract_text file_obj)); [contradiction|].
    reflexivity.
Qed.

End ExtractionChain.

(** A PDF whose first reader raises: the text of the second is returned. *)
Lemma extract_text_by_format_witness :
  @extract_text second_reader_runtime scanned_pdf
  = [76; 69; 65; 83; 69; 10; 82; 101; 110; 116; 32; 105; 115; 32; 100; 117; 101; 46]%N
  /\ @extract_text reference_runtime lease_txt = py "Lease".
Proof.
  destruct (@extract_text_by_format second_reader_runtime scanned_pdf) as (Hpdf & _).
  destruct (@extract_text_by_format reference_runtime lease_txt) as (_ & _ & Htxt & _).
  split.
  - rewrite (Hpdf eq_refl _ _ _ eq_refl eq_refl eq_refl). vm_compute. reflexivity.
  - rewrite (Htxt eq_refl). vm_compute. reflexivity.
Defined.

Lemma main_error_iff_no_text_witness :
  @main reference_runtime (Some lease_txt) false two_clause_script
  = @process_contract reference_runtime (py "Lease") two_clause_script.
Proof.
  destruct (@main_error_iff_no_text reference_runtime lease_txt false two_clause_script)
    as [_ H].
  destruct H as [_ H]; [vm_compute; discriminate|].
  exact H.
Defined.

(* ================================================================== *)
(** * Properties: the mappings of the analysis *)
(* ================================================================== *)

Lemma dict_set_NoDup {V} (k : pystr) (v : V) (d : dict V) :
  NoDup (dict_keys d) -> NoDup (dict_keys (dict_set k v d)).
Proof.
  induction d as [|[k' v'] d IH]; cbn [dict_set dict_keys map fst]; intro H.
  - constructor; [intros [] | constructor].
  - fold (dict_keys d) in *. inversion H as [|? ? Hnot Hd]; subst.
    destruct (str_eqb k k') eqn:E; cbn [map fst]; fold (dict_keys d);
      fold (dict_keys (dict_set k v d)).
    + now constructor.
    + constructor; [|now apply IH].
      intro Hin. apply dict_set_keys in Hin as [-> | Hin]; [|contradiction].
      rewrite (proj2 (str_eqb_eq k k) eq_refl) in E. discriminate.
Qed.

Lemma dict_has_In {V} (k : pystr) (d : dict V) :
  dict_has k d = true <-> In k (dict_keys d).
Proof.
  unfold dict_has. induction d as [|[k' v'] d IH]; cbn [dict_get dict_keys map fst].
  - split; [discriminate | contradiction].
  - fold (dict_keys d). destruct (str_eqb k k') eqn:E.
    + apply str_eqb_eq in E. subst. split; [now left | reflexivity].
    + rewrite IH. split; [now right|]. intros [H | H]; [|assumption].
      subst. rewrite (proj2 (str_eqb_eq k k) eq_refl) in E. discriminate.
Qed.

Section Mappings.
Context {RT : Runtime}.

Lemma collect_clauses_keys (items : dict json) (acc result : dict ClauseInfo) :
  collect_clauses items acc = Some result ->
  NoDup (dict_keys acc) ->
  NoDup (dict_keys result)
  /\ forall k, In k (dict_keys result) ->
       In k (dict_keys acc)
       \/ exists fields, In (k, JObj fields) items
                         /\ dict_has (py "text") fields = true.
Proof.
  revert acc. induction items as [|[k0 v0] rest IH]; intros acc Hres Hnd.
  - cbn in Hres. injection Hres as <-. split; [assumption | now left].
  - cbn [collect_clauses] in Hres.
    assert (Hskip : collect_clauses rest acc = Some result ->
              NoDup (dict_keys result)
              /\ forall k, In k (dict_keys result) ->
                   In k (dict_keys acc)
                   \/ exists fields, In (k, JObj fields) ((k0, v0) :: rest)
                                     /\ dict_has (py "text") fields = true).
    { intro H. destruct (IH acc H Hnd) as [Hn Hk]. split; [assumption|].
      intros k Hin. destruct (Hk k Hin) as [Ha | (fields & Hf & Ht)]; [now left|].
      right. exists fields. split; [now right | assumption]. }
    destruct v0 as [| | | | |fields]; try (now apply Hskip).
    destruct (dict_has (py "text") fields) eqn:Ht; [|now apply Hskip].
    destruct (make_ClauseInfo _ _) as [info|]; [|discriminate].
    destruct (IH _ Hres (dict_set_NoDup k0 info acc Hnd)) as [Hn Hk].
    split; [assumption|]. intros k Hin.
    destruct (Hk k Hin) as [Ha | (fields' & Hf & Ht')].
    + apply dict_set_keys in Ha as [-> | Ha]; [|now left].
      right. exists fields. split; [now left | assumption].
    + right. exists fields'. split; [now right | assumption].
Qed.

Lemma clauses_of_response_NoDup (content : pystr) :
  NoDup (dict_keys (clauses_of_response content)).
Proof.
  unfold clauses_of_response, clauses_of_decoded.
  destruct (json_loads content) as [[| | | | |members]|]; try constructor.
  destruct (collect_clauses members []) as [result|] eqn:E; [|constructor].
  apply (collect_clauses_keys members [] result E). constructor.
Qed.

(** Whatever the decoder returns, the clause mapping holds every key once,
    and each of its keys is the key of an entry of the decoded object whose
    value is an object with a ["text"] field. *)
Theorem clauses_have_unique_keys (content : pystr) :
  NoDup (dict_keys (clauses_of_response content))
  /\ forall k, In k (dict_keys (clauses_of_response content)) ->
       exists members fields,
         json_loads content = Some (JObj members)
         /\ In (k, JObj fields) members
         /\ dict_has (py "text") fields = true.
Proof.
  split; [apply clauses_of_response_NoDup|].
  unfold clauses_of_response, clauses_of_decoded.
  destruct (json_loads content) as [[| | | | |members]|]; try contradiction.
  destruct (collect_clauses members []) as [result|] eqn:E; [|contradiction].
  intros k Hin.
  destruct (proj2 (collect_clauses_keys members [] result E (NoDup_nil _)) k Hin)
    as [[] | (fields & Hf & Ht)].
  now exists members, fields.
Qed.

Lemma assess_clauses_NoDup (ct gl : pystr) (items : dict ClauseInfo)
    (acc : dict ClauseRiskAssessment) (w : World) :
  NoDup (dict_keys acc) ->
  NoDup (dict_keys (fst (assess_clauses ct gl items acc w))).
Proof.
  revert acc w. induction items as [|[k ci] rest IH]; intros acc w H; [exact H|].
  cbn [assess_clauses]. destruct (100 <? length (ci_text ci)); [|now apply IH].
  unfold bind. destruct (assess_clause_risk_llm (ci_text ci) ct gl w) as [[a|] w1];
    [|now apply IH].
  apply IH. now apply dict_set_NoDup.
Qed.

Lemma contract_type_valid (text : pystr) (w : World) :
  In (fst (detect_contract_type_llm text w)) valid_types.
Proof.
  unfold detect_contract_type_llm, bind, ret.
  destruct (model_invoke _ w) as [[content|] w1]; [|apply commercial_valid].
  destruct (str_in (strip content) valid_types) eqn:E; cbn [fst];
    [now apply str_in_In | apply commercial_valid].
Qed.

Lemma extract_key_clauses_llm_NoDup (text : pystr) (w : World) :
  NoDup (dict_keys (fst (extract_key_clauses_llm text w))).
Proof.
  unfold extract_key_clauses_llm, bind, ret.
  destruct (model_invoke _ w) as [[content|] w1]; cbn [fst];
    [apply clauses_of_response_NoDup | constructor].
Qed.

(** The result of the analysis, for every behaviour of the model: the
    contract type is one of the nine, the clause mapping and the risk
    mapping hold every key once, and a clause that has an assessment is
    found under its key in the clause mapping. *)
Theorem analysis_is_well_formed (text : pystr) (w : World) :
  In (contract_type (fst (analyze_contract_comprehensive text w))) valid_types
  /\ NoDup (dict_keys (key_clauses (fst (analyze_contract_comprehensive text w))))
  /\ NoDup (dict_keys (clause_risks (fst (analyze_contract_comprehensive text w))))
  /\ forall k, dict_has k (clause_risks (fst (analyze_contract_comprehensive text w)))
               = true ->
               dict_has k (key_clauses (fst (analyze_contract_comprehensive text w)))
               = true.
Proof.
  unfold analyze_contract_comprehensive, bind, ret.
  pose proof (contract_type_valid text w) as Hct.
  destruct (detect_contract_type_llm text w) as [ct w1].
  destruct (detect_governing_law_llm text w1) as [gl w2].
  pose proof (extract_key_clauses_llm_NoDup text w2) as Hclauses.
  destruct (extract_key_clauses_llm text w2) as [clauses w3].
  pose proof (assess_clauses_NoDup ct gl clauses [] w3 (NoDup_nil _)) as Hrisks.
  pose proof (assess_clauses_keys ct gl clauses [] w3) as Hkeys.
  destruct (assess_clauses ct gl clauses [] w3) as [risks w4].
  cbn [fst contract_type key_clauses clause_risks] in *.
  repeat split; try assumption.
  intros k Hk. apply dict_has_In in Hk.
  destruct (Hkeys k Hk) as [[] | (ci & Hin & _)].
  apply dict_has_In. unfold dict_keys. apply in_map_iff. now exists (k, ci).
Qed.

(** With the model out of reach, the page still shows a report: the type
    [Commercial], the law [Unknown], no clauses, and the one risk that says
    the analysis could not be completed, counted under "medium". *)
Theorem process_contract_offline (text : pystr) (w : World) :
  (forall p w0, fst (model_invoke p w0) = None) ->
  exists w',
    process_contract text w
    = (Report {| contract_type := py "Commercial"; governing_law := py "Unknown";
                 key_clauses := []; clause_risks := [] |}
              [error_risk]
              (highlight_risks_in_text text [error_risk])
              [(py "high", 0); (py "medium", 1); (py "low", 0)],
       w').
Proof.
  intro Hdown.
  assert (Hnone : forall p w0, exists w1, model_invoke p w0 = (None, w1)).
  { intros p w0. specialize (Hdown p w0).
    destruct (model_invoke p w0) as [r w1]. cbn in Hdown. subst. now exists w1. }
  unfold process_contract, analyze_contract_full, analyze_contract_comprehensive,
    detect_contract_type_llm, detect_governing_law_llm, extract_key_clauses_llm,
    llm_review, bind, ret.
  destruct (Hnone (CONTRACT_TYPE_DETECTION_PROMPT (truncate 4000 text)) w) as [w1 ->].
  destruct (Hnone (GOVERNING_LAW_DETECTION_PROMPT (truncate 4000 text)) w1) as [w2 ->].
  destruct (Hnone (KEY_CLAUSES_EXTRACTION_PROMPT (truncate 6000 text)) w2) as [w3 ->].
  cbn [assess_clauses ret contract_type governing_law].
  match goal with
  | |- context [model_invoke ?p w3] => destruct (Hnone p w3) as [w4 ->]
  end.
  exists w4. reflexivity.
Qed.

End Mappings.

Lemma process_contract_offline_witness :
  fst (@process_contract offline_runtime fee_text tt)
  = Report {| contract_type := py "Commercial"; governing_law := py "Unknown";
              key_clauses := []; clause_risks := [] |}
           [error_risk] fee_text
           [(py "high", 0); (py "medium", 1); (py "low", 0)].
Proof.
  destruct (@process_contract_offline offline_runtime fee_text tt
              (fun _ _ => eq_refl)) as [w' H].
  rewrite H. reflexivity.
Defined.

(* ================================================================== *)
(** * Properties: splitting and searching *)
(* ================================================================== *)

Lemma startswith_app (p rest : pystr) : startswith p (p ++ rest) = true.
Proof.
  induction p as [|c p IH]; [reflexivity|].
  cbn [app startswith]. now rewrite N.eqb_refl, IH.
Qed.

Lemma split_scan_clear (sep a tail cur : pystr) :
  clear_of sep a tail = true ->
  split_scan sep 0 cur (a ++ tail) = split_scan sep 0 (rev a ++ cur) tail.
Proof.
  revert cur. induction a as [|x a IH]; intros cur H; [reflexivity|].
  cbn [clear_of] in H. apply andb_true_iff in H as [H1 H2].
  apply negb_true_iff in H1. cbn [app] in *. cbn [split_scan]. rewrite H1.
  rewrite (IH _ H2). cbn [rev]. now rewrite <- app_assoc.
Qed.

Lemma split_scan_skip (sep x rest cur : pystr) :
  split_scan sep (length x) cur (x ++ rest) = split_scan sep 0 cur rest.
Proof. induction x as [|c x IH]; [reflexivity | exact IH]. Qed.

Lemma split_scan_at_separator (sep rest cur : pystr) :
  sep <> [] ->
  split_scan sep 0 cur (sep ++ rest) = rev cur :: split_scan sep 0 [] rest.
Proof.
  intro Hsep. destruct sep as [|h sep']; [contradiction|].
  pose proof (startswith_app (h :: sep') rest) as Hs.
  pose proof (split_scan_skip (h :: sep') sep' rest []) as Hk.
  cbn [app] in *. cbn [split_scan]. rewrite Hs. f_equal.
  replace (length (h :: sep') - 1) with (length sep') by (cbn [length]; lia).
  exact Hk.
Qed.

(** A field in front of a separator is cut off as it is. *)
Lemma split_field (sep a rest : pystr) :
  sep <> [] -> clear_of sep a (sep ++ rest) = true ->
  split sep (a ++ sep ++ rest) = a :: split sep rest.
Proof.
  intros Hsep H. unfold split. rewrite (split_scan_clear _ _ _ _ H).
  rewrite (split_scan_at_separator _ _ _ Hsep).
  now rewrite app_nil_r, rev_involutive.
Qed.

Lemma split_last (sep a : pystr) :
  clear_of sep a [] = true -> split sep a = [a].
Proof.
  intro H. unfold split. rewrite <- (app_nil_r a) at 1.
  rewrite (split_scan_clear _ _ _ _ H). cbn. now rewrite app_nil_r, rev_involutive.
Qed.

Lemma contains_app (sep a rest : pystr) : contains sep (a ++ sep ++ rest) = true.
Proof.
  induction a as [|x a IH].
  - cbn [app]. destruct (sep ++ rest) eqn:E; cbn [contains]; rewrite <- E;
      now rewrite startswith_app.
  - cbn [app contains]. rewrite IH. apply orb_true_r.
Qed.

Lemma find_clear (sep a rest : pystr) :
  clear_of sep a (sep ++ rest) = true ->
  find sep (a ++ sep ++ rest) = Z.of_nat (length a).
Proof.
  induction a as [|x a IH]; intro H.
  - cbn [app length]. destruct (sep ++ rest) eqn:E; cbn [find]; rewrite <- E;
      now rewrite startswith_app.
  - cbn [clear_of] in H. apply andb_true_iff in H as [H1 H2].
    apply negb_true_iff in H1. cbn [app] in *. cbn [find]. rewrite H1, (IH H2).
    destruct (Z.of_nat (length a) <? 0)%Z eqn:E; [apply Z.ltb_lt in E; lia|].
    cbn [length]. lia.
Qed.

(** A separator cannot start where one of its characters is missing. *)
Lemma clear_no_head (h : char) (sep a tail : pystr) :
  ~ In h a -> clear_of (h :: sep) a tail = true.
Proof.
  induction a as [|x a IH]; intro H; [reflexivity|].
  cbn [clear_of app startswith].
  destruct (N.eqb h x) eqn:E.
  - apply N.eqb_eq in E. subst. elim H. now left.
  - cbn [andb negb]. apply IH. intro Hin. apply H. now right.
Qed.

Lemma clear_no_second (h s : char) (sep a tail : pystr) :
  ~ In s a -> match tail with c :: _ => c <> s | [] => True end ->
  clear_of (h :: s :: sep) a tail = true.
Proof.
  induction a as [|x a IH]; intros H Ht; [reflexivity|].
  cbn [clear_of]. rewrite IH; [|intro Hin; apply H; now right | exact Ht].
  rewrite andb_true_r. apply negb_true_iff. cbn [app startswith].
  destruct (N.eqb h x); [|reflexivity]. cbn [andb].
  destruct a as [|y a'].
  - cbn [app]. destruct tail as [|c tail']; [reflexivity|].
    destruct (N.eqb s c) eqn:E; [|reflexivity].
    apply N.eqb_eq in E. subst. contradiction.
  - cbn [app]. destruct (N.eqb s y) eqn:E; [|reflexivity].
    apply N.eqb_eq in E. subst. elim H. right. now left.
Qed.

Lemma startswith_In (p s : pystr) (c : char) :
  startswith p s = true -> In c p -> In c s.
Proof.
  revert s. induction p as [|x p IH]; intros s H Hin; [contradiction|].
  destruct s as [|y s]; [discriminate|]. cbn in H.
  apply andb_true_iff in H as [Hx Hp]. apply N.eqb_eq in Hx. subst.
  destruct Hin as [-> | Hin]; [now left | right; now apply IH].
Qed.

(** [replace] finds nothing to replace where a character of [old] does not
    occur. *)
Lemma replace_scan_absent (old new s : pystr) (c : char) :
  In c old -> ~ In c s -> replace_scan old new 0 s = s.
Proof.
  intros Hc. induction s as [|x s IH]; intro Hs; [reflexivity|].
  cbn [replace_scan].
  destruct (startswith old (x :: s)) eqn:E.
  - elim Hs. now apply (startswith_In old).
  - rewrite IH; [reflexivity|]. intro Hin. apply Hs. now right.
Qed.

Lemma replace_scan_skip (old new x rest : pystr) :
  replace_scan old new (length x) (x ++ rest) = replace_scan old new 0 rest.
Proof.
  induction x as [|c x IH]; [reflexivity|]. cbn [length app].
  destruct rest; exact IH.
Qed.

Lemma replace_scan_at (old new rest : pystr) :
  old <> [] ->
  replace_scan old new 0 (old ++ rest) = new ++ replace_scan old new 0 rest.
Proof.
  intro Hne. destruct old as [|h old']; [contradiction|].
  pose proof (startswith_app (h :: old') rest) as Hs.
  pose proof (replace_scan_skip (h :: old') new old' rest) as Hk.
  cbn [app] in *. cbn [replace_scan]. rewrite Hs. f_equal.
  replace (length (h :: old') - 1) with (length old') by (cbn [length]; lia).
  exact Hk.
Qed.

(** The label in front of a field is taken off and the field is kept. *)
Lemma drop_label_field (label field : pystr) (c : char) :
  label <> [] -> In c label -> ~ In c field ->
  drop_label label (label ++ field) = field.
Proof.
  intros Hne Hc Hf. unfold drop_label. rewrite startswith_app.
  unfold replace. destruct label as [|h label']; [contradiction|].
  rewrite (replace_scan_at _ _ _ Hne).
  now rewrite (replace_scan_absent _ _ _ c).
Qed.
(* ================================================================== *)
(** * Properties: the grammar of the risk lines *)
(* ================================================================== *)

Lemma no_delimiter_spec (s : pystr) :
  no_delimiter s = true -> ~ In 45%N s /\ ~ In 58%N s /\ ~ In 10%N s.
Proof.
  unfold no_delimiter. rewrite forallb_forall. intro H.
  repeat split; intro Hin; specialize (H _ Hin); discriminate.
Qed.

Lemma field_ok_spec (s : pystr) :
  field_ok s = true ->
  ~ In 45%N s /\ ~ In 58%N s /\ ~ In 10%N s /\ strip s = s.
Proof.
  unfold field_ok. intro H. apply andb_true_iff in H as [H1 H2].
  apply str_eqb_eq in H2. destruct (no_delimiter_spec s H1) as (A & B & C). auto.
Qed.

Lemma strip_fixed_rstrip (s : pystr) : strip s = s -> rstrip s = s.
Proof.
  intro H. rewrite <- H at 1. unfold strip. rewrite rstrip_idempotent. exact H.
Qed.

Lemma rstrip_app_fixed (a b : pystr) :
  rstrip b = b -> b <> [] -> rstrip (a ++ b) = a ++ b.
Proof.
  intros Hb Hne. induction a as [|x a IH]; [exact Hb|].
  cbn [app rstrip]. rewrite IH.
  destruct (a ++ b) eqn:E; [|now rewrite andb_false_r].
  destruct a; [subst; contradiction | discriminate].
Qed.

Lemma split_lines (lines : list pystr) :
  lines <> [] -> Forall (fun l => ~ In 10%N l) lines ->
  split [10%N] (join [10%N] lines) = lines.
Proof.
  induction lines as [|x rest IH]; intros Hne H; [contradiction|].
  inversion H as [|? ? Hx Hrest]; subst.
  destruct rest as [|y rest'].
  - cbn [join]. apply split_last. now apply clear_no_head.
  - change (join [10%N] (x :: y :: rest')) with (x ++ [10%N] ++ join [10%N] (y :: rest')).
    rewrite split_field; [|discriminate | now apply clear_no_head].
    f_equal. apply IH; [discriminate | assumption].
Qed.

Lemma entry_ok_spec (entry : pystr * RiskItem) :
  entry_ok entry = true ->
  no_delimiter (fst entry) = true
  /\ field_ok (ri_text (snd entry)) = true
  /\ field_ok (ri_issue (snd entry)) = true
  /\ field_ok (ri_suggestion (snd entry)) = true
  /\ field_ok (ri_risk_level (snd entry)) = true
  /\ ri_risk_level (snd entry) <> [].
Proof.
  unfold entry_ok, item_ok. intro H.
  apply andb_true_iff in H as [Hlab H]. apply andb_true_iff in H as [H He].
  apply andb_true_iff in H as [H Hd]. apply andb_true_iff in H as [H Hc].
  apply andb_true_iff in H as [Ha Hb].
  repeat split; try assumption.
  intro E. rewrite E in He. discriminate.
Qed.

Section RiskLines.
Context {RT : Runtime}.

Lemma not_in_app (c : char) (a b : pystr) : ~ In c a -> ~ In c b -> ~ In c (a ++ b).
Proof. intros Ha Hb Hin. apply in_app_or in Hin as [H | H]; auto. Qed.

(** The four parts of a formatted line. *)
Lemma risk_line_parts (entry : pystr * RiskItem) :
  entry_ok entry = true ->
  split (py " - ") (risk_line entry)
  = [py "Risk" ++ fst entry ++ py ": " ++ ri_text (snd entry);
     py "Issue: " ++ ri_issue (snd entry);
     py "Suggestion: " ++ ri_suggestion (snd entry);
     py "Level: " ++ ri_risk_level (snd entry)].
Proof.
  intro H. destruct (entry_ok_spec entry H) as (H0 & H1 & H2 & H3 & H4 & _).
  destruct entry as [label item]. cbn [fst snd] in *.
  destruct (no_delimiter_spec _ H0) as (Hl & _ & _).
  destruct (field_ok_spec _ H1) as (Ht & _ & _ & _).
  destruct (field_ok_spec _ H2) as (Hi & _ & _ & _).
  destruct (field_ok_spec _ H3) as (Hs & _ & _ & _).
  destruct (field_ok_spec _ H4) as (Hv & _ & _ & _).
  unfold risk_line. cbn [fst snd].
  change (py " - Issue: ") with (py " - " ++ py "Issue: ").
  change (py " - Suggestion: ") with (py " - " ++ py "Suggestion: ").
  change (py " - Level: ") with (py " - " ++ py "Level: ").
  assert (Hc : forall x : pystr, ~ In 45%N x -> forall rest,
             clear_of (py " - ") x (py " - " ++ rest) = true).
  { intros x Hx rest. apply (clear_no_second 32%N 45%N [32%N]); [exact Hx|].
    cbn. discriminate. }
  replace (py "Risk" ++ label ++ py ": " ++ ri_text item
             ++ (py " - " ++ py "Issue: ") ++ ri_issue item
             ++ (py " - " ++ py "Suggestion: ") ++ ri_suggestion item
             ++ (py " - " ++ py "Level: ") ++ ri_risk_level item)
    with ((py "Risk" ++ label ++ py ": " ++ ri_text item)
            ++ py " - " ++ (py "Issue: " ++ ri_issue item)
            ++ py " - " ++ (py "Suggestion: " ++ ri_suggestion item)
            ++ py " - " ++ (py "Level: " ++ ri_risk_level item))
    by (now rewrite <- !app_assoc).
  rewrite split_field; [f_equal|discriminate|].
  - rewrite split_field; [f_equal|discriminate|].
    + rewrite split_field; [f_equal|discriminate|].
      * apply split_last. apply (clear_no_second 32%N 45%N [32%N]); [|exact I].
        apply not_in_app; [|exact Hv]. cbn. intuition discriminate.
      * apply Hc. apply not_in_app; [|exact Hs]. cbn. intuition discriminate.
    + apply Hc. apply not_in_app; [|exact Hi]. cbn. intuition discriminate.
  - apply Hc. apply not_in_app; [cbn; intuition discriminate|].
    apply not_in_app; [exact Hl|]. apply not_in_app; [|exact Ht].
    cbn. intuition discriminate.
Qed.

Lemma rstrip_app_fixed_ne (a b : pystr) :
  rstrip b = b /\ b <> [] -> rstrip (a ++ b) = a ++ b /\ a ++ b <> [].
Proof.
  intros [Hb Hne]. split; [now apply rstrip_app_fixed|].
  destruct a; [exact Hne | discriminate].
Qed.

Lemma skipn_two_apps (a b c : pystr) : skipn (length a + length b) (a ++ b ++ c) = c.
Proof.
  rewrite app_assoc, <- length_app, skipn_app, skipn_all, Nat.sub_diag.
  reflexivity.
Qed.

Lemma risk_line_stripped (entry : pystr * RiskItem) :
  entry_ok entry = true ->
  strip (risk_line entry) = risk_line entry /\ ~ In 10%N (risk_line entry).
Proof.
  intro H. destruct (entry_ok_spec entry H) as (H0 & H1 & H2 & H3 & H4 & Hne).
  destruct (no_delimiter_spec _ H0) as (_ & _ & Nl).
  destruct (field_ok_spec _ H1) as (_ & _ & Nt & _).
  destruct (field_ok_spec _ H2) as (_ & _ & Ni & _).
  destruct (field_ok_spec _ H3) as (_ & _ & Ns & _).
  destruct (field_ok_spec _ H4) as (_ & _ & Nv & Sv).
  split.
  - unfold strip. assert (Hl : lstrip (risk_line entry) = risk_line entry)
      by reflexivity.
    rewrite Hl. unfold risk_line.
    repeat (apply rstrip_app_fixed_ne).
    split; [now apply strip_fixed_rstrip | exact Hne].
  - unfold risk_line.
    repeat (apply not_in_app; [try assumption; cbn; intuition discriminate|]).
    exact Nv.
Qed.

(** One formatted line: the record that was open is closed and the fields
    of the line are taken as they stand, the level in lower case. *)
Lemma review_line_formatted (entry : pystr * RiskItem)
    (state : list RiskItem * dict pystr) :
  entry_ok entry = true ->
  flushed (review_line state (risk_line entry)) = flushed state ++ [lowered (snd entry)].
Proof.
  intro H. destruct (entry_ok_spec entry H) as (H0 & H1 & H2 & H3 & H4 & Hne).
  destruct (no_delimiter_spec _ H0) as (_ & Cl & _).
  destruct (field_ok_spec _ H1) as (_ & _ & _ & St).
  destruct (field_ok_spec _ H2) as (_ & Ci & _ & Si).
  destruct (field_ok_spec _ H3) as (_ & Cs & _ & Ss).
  destruct (field_ok_spec _ H4) as (_ & Cv & _ & Sv).
  destruct state as [risks cur]. unfold review_line.
  rewrite (proj1 (risk_line_stripped entry H)).
  rewrite (risk_line_parts entry H).
  assert (Hnil : is_nil (risk_line entry) = false) by reflexivity.
  assert (Hstart : startswith (py "Risk") (risk_line entry) = true)
    by apply startswith_app.
  assert (Hcolon : contains (py ":") (risk_line entry) = true).
  { unfold risk_line. change (py ": ") with (py ":" ++ py " ").
    rewrite <- !app_assoc. rewrite (app_assoc (py "Risk")). apply contains_app. }
  rewrite Hnil, Hstart, Hcolon. cbn [andb length Nat.leb nth].
  assert (Hhas : contains (py ": ")
                   (py "Risk" ++ fst entry ++ py ": " ++ ri_text (snd entry)) = true).
  { rewrite (app_assoc (py "Risk")). apply contains_app. }
  assert (Hclear : clear_of (py ": ") (py "Risk" ++ fst entry)
                     (py ": " ++ ri_text (snd entry)) = true).
  { apply (clear_no_head 58%N [32%N]). apply not_in_app; [|exact Cl].
    cbn. intuition discriminate. }
  assert (Htext : nth 1 (split1 (py ": ")
                           (py "Risk" ++ fst entry ++ py ": " ++ ri_text (snd entry))) []
                  = ri_text (snd entry)).
  { unfold split1. rewrite (app_assoc (py "Risk")). rewrite (find_clear _ _ _ Hclear).
    destruct (Z.of_nat (length (py "Risk" ++ fst entry)) <? 0)%Z eqn:E;
      [apply Z.ltb_lt in E; lia|].
    cbn [nth]. rewrite Nat2Z.id. apply skipn_two_apps. }
  rewrite Hhas, Htext.
  rewrite (drop_label_field (py "Issue: ") _ 58%N); [|discriminate|cbn; tauto|exact Ci].
  rewrite (drop_label_field (py "Suggestion: ") _ 58%N);
    [|discriminate|cbn; tauto|exact Cs].
  rewrite (drop_label_field (py "Level: ") _ 58%N); [|discriminate|cbn; tauto|exact Cv].
  rewrite St, Si, Ss, Sv.
  unfold flushed at 2. cbn [fst snd].
  destruct (negb (is_nil cur)); unfold flushed; cbn [fst snd is_nil negb];
    reflexivity.
Qed.

Lemma parsed_risks_flushed (response_text : pystr) :
  parsed_risks response_text
  = flushed (fold_left review_line (split [10%N] response_text) ([], [])).
Proof.
  unfold parsed_risks, flushed.
  now destruct (fold_left review_line (split [10%N] response_text) ([], [])).
Qed.

Lemma fold_formatted_lines (entries : list (pystr * RiskItem))
    (state : list RiskItem * dict pystr) :
  forallb entry_ok entries = true ->
  flushed (fold_left review_line (map risk_line entries) state)
  = flushed state ++ map (fun e => lowered (snd e)) entries.
Proof.
  revert state. induction entries as [|e rest IH]; intros state H.
  - cbn. now rewrite app_nil_r.
  - cbn [forallb] in H. apply andb_true_iff in H as [He Hrest].
    cbn [map fold_left]. rewrite (IH _ Hrest), (review_line_formatted e state He).
    now rewrite <- app_assoc.
Qed.
End RiskLines.

Section ReviewGrammar.
Context {RT : Runtime}.

Lemma join_formatted_stripped (entries : list (pystr * RiskItem)) :
  entries <> [] -> forallb entry_ok entries = true ->
  strip (join [10%N] (map risk_line entries)) = join [10%N] (map risk_line entries)
  /\ join [10%N] (map risk_line entries) <> [].
Proof.
  intros Hne H.
  assert (Hr : rstrip (join [10%N] (map risk_line entries))
               = join [10%N] (map risk_line entries)
               /\ join [10%N] (map risk_line entries) <> []).
  { revert Hne H. induction entries as [|e rest IH]; intros Hne H.
    - contradiction.
    - cbn [forallb] in H. apply andb_true_iff in H as [He Hrest].
      destruct rest as [|e' rest'].
      + cbn [map join]. split.
        * apply strip_fixed_rstrip. now apply risk_line_stripped.
        * discriminate.
      + change (join [10%N] (map risk_line (e :: e' :: rest')))
          with (risk_line e ++ [10%N] ++ join [10%N] (map risk_line (e' :: rest'))).
        apply rstrip_app_fixed_ne. apply rstrip_app_fixed_ne.
        apply IH; [discriminate | exact Hrest]. }
  destruct Hr as [Hr Hnn]. split; [|exact Hnn].
  unfold strip.
  assert (Hl : lstrip (join [10%N] (map risk_line entries))
               = join [10%N] (map risk_line entries)).
  { destruct entries as [|e [|e' rest]]; [contradiction | reflexivity | reflexivity]. }
  now rewrite Hl.
Qed.

(** The grammar of the review reads back what the format of the prompt
    writes: a response of lines [Risk<label>: text - Issue: issue -
    Suggestion: suggestion - Level: level], whose fields hold no hyphen,
    colon or newline and no white space at their ends, gives one record per
    line, in order, with these fields and the level in lower case. *)
Theorem formatted_risks_are_read_back (entries : list (pystr * RiskItem)) :
  forallb entry_ok entries = true ->
  parsed_risks (join [10%N] (map risk_line entries))
  = map (fun e => lowered (snd e)) entries
  /\ (entries <> [] ->
      says_no_risks (join [10%N] (map risk_line entries)) = false ->
      risks_of_response (join [10%N] (map risk_line entries))
      = map (fun e => lowered (snd e)) entries).
Proof.
  intro H.
  assert (Hparsed : parsed_risks (join [10%N] (map risk_line entries))
                    = map (fun e => lowered (snd e)) entries).
  { destruct entries as [|e rest] eqn:E; [reflexivity|]. rewrite <- E in *.
    rewrite parsed_risks_flushed, split_lines.
    - now rewrite (fold_formatted_lines entries ([], []) H).
    - rewrite E. discriminate.
    - apply Forall_forall. intros l Hl. apply in_map_iff in Hl as (e0 & <- & Hin).
      rewrite forallb_forall in H. now apply risk_line_stripped, H. }
  split; [exact Hparsed|]. intros Hne Hsay.
  destruct (join_formatted_stripped entries Hne H) as [Hs Hnn].
  unfold risks_of_response. rewrite Hs. fold (says_no_risks (join [10%N] (map risk_line entries))).
  rewrite Hsay, Hparsed.
  destruct (join [10%N] (map risk_line entries)); [contradiction|].
  destruct entries; [contradiction | reflexivity].
Qed.

Lemma fold_no_risk_lines (lines : list pystr) (state : list RiskItem * dict pystr) :
  forallb (fun l => negb (is_risk_line l)) lines = true ->
  fold_left review_line lines state = state.
Proof.
  revert state. induction lines as [|l rest IH]; intros state H; [reflexivity|].
  cbn [forallb] in H. apply andb_true_iff in H as [Hl Hrest].
  apply negb_true_iff in Hl. unfold is_risk_line in Hl.
  cbn [fold_left]. rewrite <- (IH state Hrest) at 2. f_equal.
  unfold review_line. destruct state as [risks cur].
  destruct (is_nil (strip l)); [reflexivity|]. now rewrite Hl.
Qed.

(** A response that is not empty, does not say "no significant risks" and
    has no line that starts a risk record gives the general risk and
    nothing else. *)
Theorem prose_gives_the_general_risk (content : pystr) :
  strip content <> [] ->
  says_no_risks (strip content) = false ->
  forallb (fun l => negb (is_risk_line l)) (split [10%N] (strip content)) = true ->
  risks_of_response content = [general_risk].
Proof.
  intros Hne Hsay Hlines. unfold risks_of_response.
  fold (says_no_risks (strip content)). rewrite Hsay.
  rewrite parsed_risks_flushed, (fold_no_risk_lines _ _ Hlines).
  destruct (strip content); [contradiction | reflexivity].
Qed.

End ReviewGrammar.

(** Two risks in the format of the prompt. *)
Lemma formatted_risks_are_read_back_witness :
  @risks_of_response reference_runtime
     (py "Risk 1: fee - Issue: No amount is stated - Suggestion: State the amount - Level: high"
        ++ [10%N]
        ++ py "Risk 2: [UNCAPPED FEE] - Issue: Fee without a cap - Suggestion: Cap the fee - Level: high")
  = [fee_risk; risk_at_50].
Proof.
  exact (proj2 (@formatted_risks_are_read_back reference_runtime
                  [(py " 1", fee_risk); (py " 2", risk_at_50)] eq_refl)
           ltac:(discriminate) eq_refl).
Defined.

Lemma prose_gives_the_general_risk_witness :
  @risks_of_response reference_runtime
     (py "  The indemnity clause is one-sided; see Risk 4.") = [general_risk].
Proof.
  apply (@prose_gives_the_general_risk reference_runtime).
  - vm_compute. discriminate.
  - vm_compute. reflexivity.
  - vm_compute. reflexivity.
Defined.

(* ================================================================== *)
(** * Properties: conversion to Markdown *)
(* ================================================================== *)

Lemma contains_false_clear (sep a : pystr) :
  contains sep a = false -> clear_of sep a [] = true.
Proof.
  induction a as [|x a IH]; intro H; [reflexivity|].
  cbn [contains] in H. apply orb_false_iff in H as [H1 H2].
  cbn [clear_of]. rewrite app_nil_r, H1. now apply IH.
Qed.

Lemma split_absent (sep s : pystr) : contains sep s = false -> split sep s = [s].
Proof. intro H. now apply split_last, contains_false_clear. Qed.

Lemma clean_text_no_newline (x : pystr) : ~ In 10%N (clean_text x).
Proof.
  intro Hin. destruct (clean_text_shape x) as (H1 & _).
  pose proof (single_spaced_no_class is_newline _ false newline_is_space H1) as Hn.
  rewrite forallb_forall in Hn. specialize (Hn _ Hin). discriminate.
Qed.

Lemma no_newline_no_break (s : pystr) : ~ In 10%N s -> contains [10%N; 10%N] s = false.
Proof.
  induction s as [|c t IH]; intro H; [reflexivity|].
  cbn [contains startswith]. destruct (N.eqb 10 c) eqn:E.
  - apply N.eqb_eq in E. subst. elim H. now left.
  - cbn [andb orb]. apply IH. intro Hin. apply H. now right.
Qed.

Section MarkdownProperties.
Context {CS : Casing}.

(** Blank text gives the empty document, whatever the title.  Text without
    a blank line gives the title and one block.  The text of an upload has
    been through [clean_text], which leaves no newline: its Markdown is the
    title and the whole contract as one block, so no line inside the
    contract is ever made a heading. *)
Theorem markdown_of_one_paragraph (text : pystr) (title : option pystr) :
  (strip text = [] -> convert_text_to_markdown text title = [])
  /\ (strip text <> [] -> contains [10%N; 10%N] text = false ->
      convert_text_to_markdown text title
      = title_heading title ++ markdown_block (strip text))
  /\ (clean_text text <> [] ->
      convert_text_to_markdown (clean_text text) title
      = title_heading title ++ markdown_block (clean_text text)).
Proof.
  assert (Hone : forall t, strip t <> [] -> contains [10%N; 10%N] t = false ->
                 convert_text_to_markdown t title
                 = title_heading title ++ markdown_block (strip t)).
  { intros t Hne Hno. unfold convert_text_to_markdown.
    rewrite (split_absent _ _ Hno). cbn [fold_left].
    destruct (strip t); [contradiction | reflexivity]. }
  split; [|split].
  - intro H. unfold convert_text_to_markdown. now rewrite H.
  - apply Hone.
  - intro Hne. destruct (clean_text_shape text) as (_ & _ & _ & Hs).
    rewrite (Hone (clean_text text)).
    + now rewrite Hs.
    + now rewrite Hs.
    + apply no_newline_no_break, clean_text_no_newline.
Qed.

End MarkdownProperties.

(** The heading in capitals is made a heading when the text is converted as
    it is, and is part of the one block when the text is cleaned first. *)
Lemma markdown_of_one_paragraph_witness :
  @convert_text_to_markdown ascii_casing (clean_text headed_text) None
  = py "TERMINATION 1. Either party may terminate on notice." ++ [10%N; 10%N].
Proof.
  rewrite (proj2 (proj2 (@markdown_of_one_paragraph ascii_casing headed_text None)));
    [vm_compute; reflexivity | vm_compute; discriminate].
Defined.

Example markdown_promotes_headings :
  @convert_text_to_markdown ascii_casing headed_text (Some (py "Lease"))
  = py "# Lease" ++ [10%N; 10%N] ++ py "## Termination" ++ [10%N; 10%N]
      ++ py "### 1. Either party may terminate on notice." ++ [10%N; 10%N].
Proof. vm_compute. reflexivity. Qed.

(* ================================================================== *)
(** * Properties: the validation of an assessment *)
(* ================================================================== *)

Section AssessmentValidation.
Context {RT : Runtime}.

Lemma refused_list_None (v : json) : refused_list v = true -> list_str_field v = None.
Proof.
  destruct v as [| | | |items|]; try reflexivity. cbn [refused_list list_str_field].
  induction items as [|i rest IH]; [discriminate|].
  cbn [existsb map all_some]. intro H.
  destruct i; try reflexivity; cbn [orb] in H; specialize (IH H);
    (destruct (str_field _); [now rewrite IH | reflexivity]).
Qed.

(** An assessment is taken whole or not at all: what is returned is the
    default assessment, or it carries the four validated fields of the
    decoded object.  A list of issues or of recommendations that is no list
    of strings gives the default assessment, at "medium", whatever level
    the object states. *)
Theorem assessment_all_or_nothing (content : pystr) :
  (forall a, assessment_of_response content = Some a ->
     a = default_assessment
     \/ exists data,
          json_loads (assessment_json_str content) = Some (JObj data)
          /\ str_field (dict_get_default (py "risk_level") (JStr (py "medium")) data)
             = Some (cra_risk_level a)
          /\ list_str_field (dict_get_default (py "issues") (JArr []) data)
             = Some (cra_issues a)
          /\ list_str_field (dict_get_default (py "recommendations") (JArr []) data)
             = Some (cra_recommendations a)
          /\ str_field (dict_get_default (py "explanation") (JStr []) data)
             = Some (cra_explanation a))
  /\ (forall data v,
        json_loads (assessment_json_str content) = Some (JObj data) ->
        dict_get (py "issues") data = Some v
        \/ dict_get (py "recommendations") data = Some v ->
        refused_list v = true ->
        assessment_of_response content = Some default_assessment).
Proof.
  unfold assessment_of_response, assessment_of_decoded. split.
  - intros a.
    destruct (json_loads (assessment_json_str content)) as [d|];
      [|intro H; injection H as <-; now left].
    destruct d as [| | | | |data]; try discriminate.
    unfold make_ClauseRiskAssessment.
    destruct (str_field (dict_get_default (py "risk_level") (JStr (py "medium")) data))
      as [r|] eqn:Er; [|intro H; injection H as <-; now left].
    destruct (list_str_field (dict_get_default (py "issues") (JArr []) data))
      as [i|] eqn:Ei; [|intro H; injection H as <-; now left].
    destruct (list_str_field (dict_get_default (py "recommendations") (JArr []) data))
      as [c|] eqn:Ec; [|intro H; injection H as <-; now left].
    destruct (str_field (dict_get_default (py "explanation") (JStr []) data))
      as [e|] eqn:Ee; intro H; injection H as <-; [|now left].
    right. exists data. cbn [cra_risk_level cra_issues cra_recommendations cra_explanation].
    auto.
  - intros data v -> Hget Hv. apply refused_list_None in Hv.
    unfold make_ClauseRiskAssessment, dict_get_default.
    destruct (str_field _); [|reflexivity].
    destruct Hget as [-> | ->]; rewrite Hv; [reflexivity|].
    clear Hv. now destruct (list_str_field _).
Qed.

End AssessmentValidation.

(** A high risk with its issues given as one string. *)
Lemma assessment_all_or_nothing_witness :
  @assessment_of_response reference_runtime
     (json_text "{'risk_level': 'high', 'issues': 'No cap on damages'}")
  = Some default_assessment.
Proof.
  refine (proj2 (@assessment_all_or_nothing reference_runtime
                   (json_text "{'risk_level': 'high', 'issues': 'No cap on damages'}"))
            [(py "risk_level", JStr (py "high"));
             (py "issues", JStr (py "No cap on damages"))]
            (JStr (py "No cap on damages")) _ _ _).
  - vm_compute. reflexivity.
  - left. reflexivity.
  - reflexivity.
Defined.

(* ================================================================== *)
(** * Properties: the order of the highlights *)
(* ================================================================== *)

Lemma find_of_contained (sub s : pystr) : contains sub s = true -> (0 <= find sub s)%Z.
Proof.
  induction s as [|c t IH]; cbn [contains find].
  - destruct (startswith sub []); [lia | discriminate].
  - destruct (startswith sub (c :: t)); [lia|]. cbn [orb]. intro H.
    specialize (IH H). destruct (find sub t <? 0)%Z eqn:F; lia.
Qed.

(** The risks are highlighted one after the other, each once, in the order
    of descending position of their text in the source; a risk whose text
    is not in the source counts as position 0. *)
Theorem highlight_order (text : pystr) (risks : list RiskItem) :
  exists order,
    Permutation risks order
    /\ Sorted (fun a b => (position_key text b <= position_key text a)%Z) order
    /\ highlight_risks_in_text text risks = fold_left highlight_step order text
    /\ forall r, In r risks ->
         (0 <= position_key text r)%Z
         /\ (contains (ri_text r) text = false -> position_key text r = 0%Z).
Proof.
  exists (sorted_reverse (position_key text) risks).
  destruct (sorted_reverse_descending (position_key text) risks) as [Hs Hp].
  repeat split; try assumption.
  - unfold position_key. destruct (contains (ri_text r) text) eqn:E; [|lia].
    apply find_of_contained. exact E.
  - intros E. unfold position_key. now rewrite E.
Qed.
